(** * A virtually-rendered scrollable list: windowing and reclamation

    Shallow embedding of the two implementations of [VirtualList]:
    [src/vlist.js] (reclamation by a polling interval) and the unnamed
    variant (reclamation through a throttled function).  The DOM is
    modelled as far as the program touches it: a store of elements, the
    child list of the list's container, and the style properties and
    classes the program writes. *)

From Stdlib Require Import ZArith Lia.
From stdpp Require Import gmap strings list fin_maps sorting.

Local Open Scope Z_scope.

(** ** JavaScript values held by [config.items] *)

Definition node_id := nat.

Inductive jsval :=
| VUndefined
| VNull
| VBool (b : bool)
| VNum (z : Z)
| VStr (s : string)
| VNode (n : node_id).

(** ToBoolean. *)
Definition truthy (v : jsval) : bool :=
  match v with
  | VUndefined | VNull => false
  | VBool b => b
  | VNum z => negb (z =? 0)
  | VStr s => negb (String.eqb s "")
  | VNode _ => true
  end.

Definition typeof (v : jsval) : string :=
  match v with
  | VUndefined => "undefined"
  | VNull => "object"
  | VBool _ => "boolean"
  | VNum _ => "number"
  | VStr _ => "string"
  | VNode _ => "object"
  end.

(** [items[i]]: reading an array outside its bounds gives [undefined]. *)
Definition items_get (items : list jsval) (i : Z) : jsval :=
  if i <? 0 then VUndefined else default VUndefined (items !! Z.to_nat i).

(** ** DOM elements *)

(** A length as the sources write it: [n + 'px'], or a percentage such as
    ['100%']. *)
Inductive css_length := Px (n : Z) | Percent (n : Z).

(** The [height] property takes no negative length: the assignment of such
    a value is ignored, and the property keeps the value it had. *)
Definition valid_height (l : css_length) : bool :=
  match l with Px n | Percent n => 0 <=? n end.

Definition assign_height (l : css_length) (old : option css_length)
    : option css_length :=
  if valid_height l then Some l else old.

(** The style properties the rows use.  The offset [top] is a pixel length
    ([n + 'px']), kept as the number [n]; [None] is a property never
    written. *)
Record style := Style {
  st_height : option css_length;
  st_display : string;
  st_position : string;
  st_top : option Z
}.

Record element := Element {
  el_tag : string;
  el_text : list string;   (* data of the text-node children, in order *)
  el_class : list string;  (* classList *)
  el_style : style
}.

Definition blank (tag : string) : element :=
  Element tag [] [] (Style None "" "" None).

(** Row status: the source writes the numbers 0 and 1. *)
Inductive status := Stale (* 0 *) | Active (* 1 *).

Global Instance status_eq_dec : EqDecision status.
Proof. solve_decision. Defined.

(** An entry of [this.itemsInContainer]: [{status: 0/1, node: DOMNode}]. *)
Record entry := Entry { e_status : status; e_node : node_id }.

Global Instance entry_eq_dec : EqDecision entry.
Proof. solve_decision. Defined.

(** ** The mutable world of one list instance *)

Record world := World {
  heap : list element;            (* every element created so far, by id *)
  children : list node_id;        (* this.container's children, in order *)
  itemsInContainer : gmap Z entry;
  lastRepaintY : option Z;        (* closure variable; None = undefined *)
  lastScrolled : Z;               (* closure variable *)
  rmPending : bool;               (* a throttled reclamation waits for its timer *)
  planned : list (Z * Z);         (* ghost: windows rendered, newest first *)
  produced : list Z               (* ghost: indices handed to the row factory, newest first *)
}.

Definition with_heap (f : list element → list element) (w : world) : world :=
  World (f (heap w)) (children w) (itemsInContainer w) (lastRepaintY w)
        (lastScrolled w) (rmPending w) (planned w) (produced w).

Definition with_children (f : list node_id → list node_id) (w : world) : world :=
  World (heap w) (f (children w)) (itemsInContainer w) (lastRepaintY w)
        (lastScrolled w) (rmPending w) (planned w) (produced w).

Definition with_table (f : gmap Z entry → gmap Z entry) (w : world) : world :=
  World (heap w) (children w) (f (itemsInContainer w)) (lastRepaintY w)
        (lastScrolled w) (rmPending w) (planned w) (produced w).

Definition with_lastRepaintY (y : option Z) (w : world) : world :=
  World (heap w) (children w) (itemsInContainer w) y
        (lastScrolled w) (rmPending w) (planned w) (produced w).

Definition with_lastScrolled (t : Z) (w : world) : world :=
  World (heap w) (children w) (itemsInContainer w) (lastRepaintY w)
        t (rmPending w) (planned w) (produced w).

Definition with_rmPending (b : bool) (w : world) : world :=
  World (heap w) (children w) (itemsInContainer w) (lastRepaintY w)
        (lastScrolled w) b (planned w) (produced w).

Definition with_planned (f : list (Z * Z) → list (Z * Z)) (w : world) : world :=
  World (heap w) (children w) (itemsInContainer w) (lastRepaintY w)
        (lastScrolled w) (rmPending w) (f (planned w)) (produced w).

Definition with_produced (f : list Z → list Z) (w : world) : world :=
  World (heap w) (children w) (itemsInContainer w) (lastRepaintY w)
        (lastScrolled w) (rmPending w) (planned w) (f (produced w)).

(** ** Computations: state, and exceptions that keep the state *)

Inductive exn := TypeError | NotFoundError.

Inductive outcome (A : Type) :=
| Ok (a : A)
| Throw (e : exn).
Arguments Ok {A} a.
Arguments Throw {A} e.

Definition M (A : Type) : Type := world → outcome A * world.

Definition ret {A} (a : A) : M A := λ w, (Ok a, w).

Definition bind {A B} (m : M A) (k : A → M B) : M B :=
  λ w, match m w with
       | (Ok a, w') => k a w'
       | (Throw e, w') => (Throw e, w')
       end.

Definition throw {A} (e : exn) : M A := λ w, (Throw e, w).
Definition get : M world := λ w, (Ok w, w).
Definition modify (f : world → world) : M unit := λ w, (Ok tt, f w).

Notation "x <- m ;; k" := (bind m (λ x, k))
  (at level 62, m at next level, right associativity, only parsing).
Notation "m ;;; k" := (bind m (λ _, k))
  (at level 62, right associativity, only parsing).

(** [xs.forEach(f)], stopping at the first exception. *)
Fixpoint forEach {A} (xs : list A) (f : A → M unit) : M unit :=
  match xs with
  | [] => ret tt
  | x :: xs' => f x ;;; forEach xs' f
  end.

(** An event handler runs to its end or to its first exception; the event
    loop goes on with the world it left. *)
Definition handle (m : M unit) (w : world) : world := snd (m w).

(** ** DOM operations *)

(** [document.createElement(tag)]: the new element's id is the next free one. *)
Definition createElement (tag : string) : M node_id :=
  λ w, (Ok (length (heap w)), with_heap (λ h, h ++ [blank tag]) w).

Definition update (n : node_id) (f : element → element) : M unit :=
  modify (with_heap (alter f n)).

Definition restyle (f : style → style) (e : element) : element :=
  Element (el_tag e) (el_text e) (el_class e) (f (el_style e)).

(** [n.style.height = l]. *)
Definition set_css_height (n : node_id) (l : css_length) : M unit :=
  update n (restyle (λ s, Style (assign_height l (st_height s)) (st_display s)
                                (st_position s) (st_top s))).

(** [n.style.height = px + 'px']. *)
Definition set_height (n : node_id) (px : Z) : M unit := set_css_height n (Px px).

Definition set_display (n : node_id) (d : string) : M unit :=
  update n (restyle (λ s, Style (st_height s) d (st_position s) (st_top s))).

Definition set_position (n : node_id) (p : string) : M unit :=
  update n (restyle (λ s, Style (st_height s) (st_display s) p (st_top s))).

Definition set_top (n : node_id) (px : Z) : M unit :=
  update n (restyle (λ s, Style (st_height s) (st_display s) (st_position s) (Some px))).

(** [n.classList.add(c)]. *)
Definition classList_add (n : node_id) (c : string) : M unit :=
  update n (λ e, Element (el_tag e) (el_text e)
                         (if decide (c ∈ el_class e) then el_class e else el_class e ++ [c])
                         (el_style e)).

(** [n.appendChild(document.createTextNode(s))]. *)
Definition appendText (n : node_id) (s : string) : M unit :=
  update n (λ e, Element (el_tag e) (el_text e ++ [s]) (el_class e) (el_style e)).

(** [n.textContent]: the text children joined. *)
Definition textContent (w : world) (n : node_id) : option string :=
  (λ e, foldr String.append "" (el_text e)) <$> heap w !! n.

(** Taking a node out of a child list (a node has one position at most). *)
Definition detach (n : node_id) (l : list node_id) : list node_id :=
  filter (λ x, x ≠ n) l.

(** [container.appendChild(n)]: a node that is already a child moves to the end. *)
Definition container_appendChild (n : node_id) : M unit :=
  modify (with_children (λ c, detach n c ++ [n])).

(** [container.removeChild(n)] returns [n], or throws when [n] is not a child. *)
Definition container_removeChild (n : node_id) : M node_id :=
  w <- get ;;
  if decide (n ∈ children w)
  then modify (with_children (detach n)) ;;; ret n
  else throw NotFoundError.

(** [fragment.appendChild(n)] on a local DocumentFragment whose children are
    [fragment]: [n] leaves the container when it was there. *)
Definition fragment_appendChild (fragment : list node_id) (n : node_id) : M (list node_id) :=
  modify (with_children (detach n)) ;;; ret (detach n fragment ++ [n]).

(** [container.appendChild(fragment)]: all of the fragment's children move. *)
Definition container_appendFragment (fragment : list node_id) : M unit :=
  modify (with_children (λ c, c ++ fragment)).

(** Reading a property of a value as an element ([item.classList], [item.style]):
    anything but an element ends in a TypeError. *)
Definition as_element (v : jsval) : M node_id :=
  match v with
  | VNode n => ret n
  | _ => throw TypeError
  end.

(** [Object.keys(o)] of an object whose keys are row indices (integers
    from 0, which JavaScript lists in ascending order). *)
Definition Object_keys (o : gmap Z entry) : list Z :=
  merge_sort Z.le (elements (dom o)).

(** [Math.ceil(a / b)] on integers, [b] not zero. *)
Definition ceil_div (a b : Z) : Z := - ((- a) / b).

(** [for (var i = from; i < finalItem; i++)] over a loop body that carries
    the local fragment. *)
Fixpoint for_rows (n : nat) (i : Z) (body : Z → list node_id → M (list node_id))
    (fragment : list node_id) : M (list node_id) :=
  match n with
  | O => ret fragment
  | S n' => fragment' <- body i fragment ;; for_rows n' (i + 1) body fragment'
  end.

(** The signals the environment delivers to an instance; offsets are whole
    pixels, times are the values of [Date.now()]. *)
Inductive event :=
| Scroll (scrollTop : Z) (now : Z)   (* a scroll event, at time [now] *)
| Tick (now : Z).                    (* the reclamation timer fires at [now] *)

(** The world a constructor starts in: the document's existing elements
    (the pre-built rows among them), nothing else yet. *)
Definition fresh_world (dom0 : list element) : world :=
  World dom0 [] ∅ None 0 false [] [].

(** What the caller passes to either constructor, all numbers integers.
    [w] only sets the container's width, which is not modelled, and
    [generatorFn] is left out: the instance uses the prototype's. *)
Record config := Config {
  cfg_h : Z;
  cfg_itemHeight : Z;
  cfg_items : option (list jsval);
  cfg_totalRows : option Z;
  cfg_itemBuffer : option Z
}.

(** [x || d] and [x ? x : d] on an optional number: absent and 0 are falsy. *)
Definition or_else (x : option Z) (d : Z) : Z :=
  match x with
  | Some z => if z =? 0 then d else z
  | None => d
  end.

(** [VirtualList.createScroller(h)]; opacity, left and width are not modelled. *)
Definition createScroller (h : Z) : M node_id :=
  scroller <- createElement "div" ;;
  set_position scroller "absolute" ;;;
  set_top scroller 0 ;;;
  set_height scroller h ;;;
  classList_add scroller "vScroller" ;;;
  ret scroller.

(** [VirtualList.createContainer(w, h)], [h] being ['100%'] or a pixel
    length; width, overflow and padding are not modelled. *)
Definition createContainer (h : css_length) : M node_id :=
  c <- createElement "div" ;;
  set_css_height c h ;;;
  set_position c "relative" ;;;
  classList_add c "vContainer" ;;;
  ret c.

(** The test of [onScroll]:
    [!lastRepaintY || Math.abs(scrollTop - lastRepaintY) > maxBuffer]. *)
Definition repaint_due (maxBuffer : Z) (lastRepaintY : option Z) (scrollTop : Z) : bool :=
  match lastRepaintY with
  | None => true
  | Some y => (y =? 0) || (maxBuffer <? Z.abs (scrollTop - y))
  end.

(** The first significant digit of [n / d], for [0 < n < d]. *)
Fixpoint first_digit_below (fuel : nat) (n d : Z) : Z :=
  match fuel with
  | O => 0
  | S fuel' => if d <=? 10 * n then (10 * n) / d
               else first_digit_below fuel' (10 * n) d
  end.

(** The first digit of the integer [m], for [0 < m]. *)
Fixpoint first_digit_of (fuel : nat) (m : Z) : Z :=
  match fuel with
  | O => m
  | S fuel' => if m <? 10 then m else first_digit_of fuel' (m / 10)
  end.

(** [parseInt(a / b)] for integers [a] and [b], [b] not zero.  [parseInt]
    turns the number into its decimal string and reads the integer at the
    head of it.  A number of size from 1e-6 up to 1e21 is written in
    positional notation, and the result is the quotient truncated towards
    zero; a smaller or larger one is written in exponent notation
    ([5e-7], [1.2e+21]), and the result is its first digit, with the
    sign.  The quotient is taken exactly: the rounding of the division to
    a double is not modelled. *)
Definition parseInt_quotient (a b : Z) : Z :=
  let n := Z.abs a in
  let d := Z.abs b in
  if n =? 0 then 0
  else if n * 10 ^ 6 <? d
       then Z.sgn a * Z.sgn b * first_digit_below (S (Z.to_nat (Z.log2 d))) n d
  else if d * 10 ^ 21 <=? n
       then Z.sgn a * Z.sgn b * first_digit_of (S (Z.to_nat (Z.log2 n))) (n / d)
  else Z.quot a b.

(** The index [onScroll] renders from: [first < 0 ? 0 : first] with
    [first = parseInt(scrollTop / itemHeight) - screenItemsLen]. *)
Definition chunk_start (itemHeight screenItemsLen scrollTop : Z) : Z :=
  let first := parseInt_quotient scrollTop itemHeight - screenItemsLen in
  if first <? 0 then 0 else first.

(** ** src/vlist.js *)

Module VList.

(** [this], with the constructor's closure constants. *)
Record t := Make {
  itemHeight : Z;
  items : list jsval;
  totalRows : Z;
  cachedItemsLen : Z;
  generatorFn : Z → M jsval;   (* the prototype's, or config.generatorFn *)
  container : node_id;
  screenItemsLen : Z;
  maxBuffer : Z
}.

(** [VirtualList.prototype.generatorFn], reading [this.items] and
    [this.itemHeight]; the branch on [VStr] is the test
    [typeof this.items[i] === 'string']. *)
Definition prototype_generatorFn (items : list jsval) (itemHeight : Z) (i : Z) : M jsval :=
  if truthy (items_get items i) then
    match items_get items i with
    | VStr s =>
        item <- createElement "div" ;;
        set_height item itemHeight ;;;
        appendText item s ;;;
        ret (VNode item)
    | other => ret other
    end
  else
    item <- createElement "div" ;;
    set_height item itemHeight ;;;
    ret (VNode item).

Definition createRow (this : t) (i : Z) : M node_id :=
  modify (with_produced (cons i)) ;;;   (* ghost: the factory is called for [i] *)
  v <- generatorFn this i ;;
  item <- as_element v ;;
  classList_add item "vrow" ;;;
  set_display item "" ;;;
  set_position item "absolute" ;;;
  set_top item (i * itemHeight this) ;;;
  modify (with_table <[i := Entry Active item]>) ;;;
  ret item.

(** [_renderChunk(node, from)]; [node] is [this.container] at both call sites. *)
Definition _renderChunk (this : t) (from : Z) : M unit :=
  let finalItem :=
    if totalRows this <? from + cachedItemsLen this
    then totalRows this else from + cachedItemsLen this in
  modify (with_planned (cons (from, finalItem))) ;;;   (* ghost *)
  w <- get ;;
  forEach (Object_keys (itemsInContainer w)) (λ key,
    w <- get ;;
    match itemsInContainer w !! key with
    | Some itemInContainer =>
        modify (with_table <[key := Entry Stale (e_node itemInContainer)]>) ;;;
        set_display (e_node itemInContainer) "none"
    | None => throw TypeError
    end) ;;;
  fragment <- for_rows (Z.to_nat (finalItem - from)) from
                (λ i fragment, row <- createRow this i ;; fragment_appendChild fragment row) [] ;;
  container_appendFragment fragment.

(** The function given to [setInterval], run at time [now]. *)
Definition rmNodeInterval (this : t) (now : Z) : M unit :=
  w <- get ;;
  if 100 <? now - lastScrolled w then
    let badItemIndicies :=
      filter (λ index, e_status <$> itemsInContainer w !! index = Some Stale)
             (Object_keys (itemsInContainer w)) in
    forEach badItemIndicies (λ index,
      w <- get ;;
      match itemsInContainer w !! index with
      | Some badItem =>
          removedNode <- container_removeChild (e_node badItem) ;;
          set_display removedNode "" ;;;
          modify (with_table (delete index))
      | None => throw TypeError
      end)
  else ret tt.

(** [onScroll(e)] with [e.target.scrollTop = scrollTop], at time [now]. *)
Definition onScroll (this : t) (scrollTop now : Z) : M unit :=
  w <- get ;;
  (if repaint_due (maxBuffer this) (lastRepaintY w) scrollTop then
     _renderChunk this (chunk_start (itemHeight this) (screenItemsLen this) scrollTop) ;;;
     modify (with_lastRepaintY (Some scrollTop))
   else ret tt) ;;;
  modify (with_lastScrolled now).

(** The fields and closure constants the constructor computes from
    [config], with the prototype's row factory; [container] is the element
    it creates. *)
Definition instance (config : config) (container : node_id) : t :=
  let itemHeight := cfg_itemHeight config in
  let items := default [] (cfg_items config) in
  let totalRows := or_else (cfg_totalRows config) (Z.of_nat (length items)) in
  let screenItemsLen := ceil_div (cfg_h config) itemHeight in
  let cachedItemsLen := or_else (cfg_itemBuffer config) (screenItemsLen * 3) in
  Make itemHeight items totalRows cachedItemsLen
       (prototype_generatorFn items itemHeight)
       container screenItemsLen (screenItemsLen * itemHeight).

(** [new VirtualList(config)]. *)
Definition VirtualList (config : config) : M t :=
  modify (with_table (λ _, ∅)) ;;;
  scroller <- createScroller (itemHeight (instance config 0%nat)
                              * totalRows (instance config 0%nat)) ;;
  container <- createContainer (if cfg_h config =? 0 then Percent 100
                                else Px (cfg_h config)) ;;
  container_appendChild scroller ;;;
  let this := instance config container in
  _renderChunk this 0 ;;;
  modify (with_lastRepaintY None) ;;;
  modify (with_lastScrolled 0) ;;;
  ret this.

Definition step (this : t) (e : event) : world → world :=
  handle match e with
         | Scroll scrollTop now => onScroll this scrollTop now
         | Tick now => rmNodeInterval this now
         end.

End VList.

(** ** The unnamed variant: reclamation through a throttled function *)

Module Throttled.

Record t := Make {
  itemHeight : Z;
  items : list jsval;
  totalRows : Z;
  cachedItemsLen : Z;
  generatorFn : list jsval → Z → Z → M jsval;
  container : node_id;
  screenItemsLen : Z;
  maxBuffer : Z
}.

(** [VirtualList.prototype.generatorFn(items, i, itemHeight)]; a defined
    item that is not a string is returned before the height is set. *)
Definition prototype_generatorFn (items : list jsval) (i : Z) (itemHeight : Z) : M jsval :=
  if negb (String.eqb (typeof (items_get items i)) "undefined") then
    match items_get items i with
    | VStr s =>
        item <- createElement "div" ;;
        appendText item s ;;;
        set_height item itemHeight ;;;
        ret (VNode item)
    | other => ret other
    end
  else
    item <- createElement "div" ;;
    set_height item itemHeight ;;;
    ret (VNode item).

Definition createRow (this : t) (i : Z) : M node_id :=
  modify (with_produced (cons i)) ;;;   (* ghost: the factory is called for [i] *)
  v <- generatorFn this (items this) i (itemHeight this) ;;
  item <- as_element v ;;
  classList_add item "vrow" ;;;
  set_display item "" ;;;
  set_position item "absolute" ;;;
  set_top item (i * itemHeight this) ;;;
  ret item.

Definition _renderChunk (this : t) (from : Z) : M unit :=
  let finalItem :=
    if totalRows this <? from + cachedItemsLen this
    then totalRows this else from + cachedItemsLen this in
  modify (with_planned (cons (from, finalItem))) ;;;   (* ghost *)
  w <- get ;;
  forEach (Object_keys (itemsInContainer w)) (λ key,
    w <- get ;;
    match itemsInContainer w !! key with
    | Some itemInContainer =>
        modify (with_table <[key := Entry Stale (e_node itemInContainer)]>) ;;;
        set_display (e_node itemInContainer) "none"
    | None => throw TypeError
    end) ;;;
  fragment <- for_rows (Z.to_nat (finalItem - from)) from
                (λ i fragment,
                   row <- createRow this i ;;
                   modify (with_table <[i := Entry Active row]>) ;;;
                   fragment_appendChild fragment row) [] ;;
  container_appendFragment fragment.

(** [while (container.children.length > 1) container.removeChild(container.lastChild)],
    with one unit of fuel per child. *)
Fixpoint remove_all_but_first (fuel : nat) : M unit :=
  match fuel with
  | O => ret tt
  | S fuel' =>
      w <- get ;;
      if decide (1 < length (children w))%nat
      then modify (with_children (λ c, removelast c)) ;;; remove_all_but_first fuel'
      else ret tt
  end.

(** The callback of [reduce]: an entry of the old table is kept when its
    status is 1. *)
Definition keep_active (old items : gmap Z entry) (index : Z) : gmap Z entry :=
  match old !! index with
  | Some item => if decide (e_status item = Active)
                 then <[index := item]> items else items
  | None => items
  end.

(** The function wrapped by [throttle], run at time [now]. *)
Definition rmNode (this : t) (now : Z) : M unit :=
  w <- get ;;
  if 100 <? now - lastScrolled w then
    modify (with_table (λ old, foldl (keep_active old) ∅ (Object_keys old))) ;;;
    w <- get ;;
    remove_all_but_first (length (children w)) ;;;
    w <- get ;;
    forEach (Object_keys (itemsInContainer w)) (λ index,
      w <- get ;;
      match itemsInContainer w !! index with
      | Some item => container_appendChild (e_node item)
      | None => throw TypeError
      end)
  else ret tt.

(** [this.throttledRmNode()]: with [{leading: false, trailing: true}] a call
    only arms the timer; the wrapped function runs when the timer fires.
    (That lodash runs it inside the call when its timer is overdue is not
    modelled.) *)
Definition throttledRmNode : M unit := modify (with_rmPending true).

Definition onScroll (this : t) (scrollTop now : Z) : M unit :=
  w <- get ;;
  (if repaint_due (maxBuffer this) (lastRepaintY w) scrollTop then
     _renderChunk this (chunk_start (itemHeight this) (screenItemsLen this) scrollTop) ;;;
     throttledRmNode ;;;
     modify (with_lastRepaintY (Some scrollTop))
   else ret tt) ;;;
  modify (with_lastScrolled now).

(** The fields and closure constants the constructor computes from
    [config], with the prototype's row factory. *)
Definition instance (config : config) (container : node_id) : t :=
  let itemHeight := cfg_itemHeight config in
  let items := default [] (cfg_items config) in
  let totalRows := or_else (cfg_totalRows config) (Z.of_nat (length items)) in
  let screenItemsLen := ceil_div (cfg_h config) itemHeight in
  let cachedItemsLen := or_else (cfg_itemBuffer config) (screenItemsLen * 3) in
  Make itemHeight items totalRows cachedItemsLen
       prototype_generatorFn
       container screenItemsLen (screenItemsLen * itemHeight).

(** [new VirtualList(config)]. *)
Definition VirtualList (config : config) : M t :=
  modify (with_table (λ _, ∅)) ;;;
  scroller <- createScroller (itemHeight (instance config 0%nat)
                              * totalRows (instance config 0%nat)) ;;
  container <- createContainer (if cfg_h config =? 0 then Percent 100
                                else Px (cfg_h config)) ;;
  container_appendChild scroller ;;;
  let this := instance config container in
  _renderChunk this 0 ;;;
  modify (with_lastRepaintY None) ;;;
  modify (with_lastScrolled 0) ;;;
  ret this.

(** The timer started by a call of the throttled function fires: the
    wrapped function runs if a call is waiting. *)
Definition timer (this : t) (now : Z) : M unit :=
  w <- get ;;
  if rmPending w then modify (with_rmPending false) ;;; rmNode this now else ret tt.

Definition step (this : t) (e : event) : world → world :=
  handle match e with
         | Scroll scrollTop now => onScroll this scrollTop now
         | Tick now => timer this now
         end.

End Throttled.

(** * Specification vocabulary *)

(** [runs m w Q]: from [w], [m] returns normally with a result and a world
    that satisfy [Q]. *)
Definition runs {A} (m : M A) (w : world) (Q : A → world → Prop) : Prop :=
  ∃ a w', m w = (Ok a, w') ∧ Q a w'.

(** The element a default factory builds: a [div] of the row height. *)
Definition row_div (itemHeight : Z) (text : list string) : element :=
  Element "div" text [] (Style (assign_height (Px itemHeight) None) "" "" None).

(** What the list relies on in its row factory, default or supplied: called
    for index [i] it returns an element, either one it has just created or
    the pre-built node [items[i]], and touches nothing else. *)
Definition factory_ok (items : list jsval) (gen : Z → M jsval) : Prop :=
  ∀ i w, ∃ n,
    (n = length (heap w)
     ∧ ∃ e, gen i w = (Ok (VNode n), with_heap (λ h, h ++ [e]) w))
    ∨ (items_get items i = VNode n ∧ gen i w = (Ok (VNode n), w)).

(** The documented item types of the default factory: strings and elements,
    or no item. *)
Definition items_plain (items : list jsval) : Prop :=
  ∀ i, match items_get items i with
       | VStr _ | VNode _ | VUndefined => True
       | _ => False
       end.

(** Pre-built rows are elements of the document the list was created in
    (the first [d] of the store), each given at one index only. *)
Definition prebuilt_ok (d : nat) (items : list jsval) : Prop :=
  (∀ i n, items_get items i = VNode n → (n < d)%nat)
  ∧ (∀ i j n, items_get items i = VNode n → items_get items j = VNode n → i = j).

(** The configurations the model covers: a positive row height (a zero
    height makes the source compute with Infinity and NaN), and items as
    above. *)
Definition config_ok (dom0 : list element) (cfg : config) : Prop :=
  0 < cfg_itemHeight cfg
  ∧ items_plain (default [] (cfg_items cfg))
  ∧ prebuilt_ok (length dom0) (default [] (cfg_items cfg)).

(** Marking an entry for deletion. *)
Definition mark (e : entry) : entry := Entry Stale (e_node e).

Definition is_active (w : world) (i : Z) : Prop :=
  e_status <$> itemsInContainer w !! i = Some Active.

(** The number of table entries with status Active. *)
Definition active_count (w : world) : nat :=
  size (filter (λ kv, e_status kv.2 = Active) (itemsInContainer w)).

(** The row nodes in the container: its children but the scroller. *)
Definition row_nodes (w : world) : nat := (length (children w) - 1)%nat.

(** The closure variables and the timer flag. *)
Definition control (w : world) : option Z * Z * bool :=
  (lastRepaintY w, lastScrolled w, rmPending w).

(** The effect of one turn of the rendering loop for index [i], which
    leaves the fragment [fr'] and the world [w'] and made the node [n]. *)
Record row_step (items : list jsval) (i : Z) (n : node_id)
    (fr : list node_id) (w : world) (fr' : list node_id) (w' : world) : Prop := {
  rs_fragment : fr' = detach n fr ++ [n];
  rs_table : itemsInContainer w' = <[i := Entry Active n]> (itemsInContainer w);
  rs_children : children w' = detach n (children w);
  rs_control : control w' = control w;
  rs_planned : planned w' = planned w;
  rs_produced : produced w' = i :: produced w;
  rs_node : (n = length (heap w) ∧ length (heap w') = S (length (heap w)))
            ∨ (items_get items i = VNode n ∧ length (heap w') = length (heap w))
}.

(** [finalItem] of [_renderChunk]. *)
Definition finalItem (totalRows cachedItemsLen from : Z) : Z :=
  if totalRows <? from + cachedItemsLen then totalRows else from + cachedItemsLen.

(** A loop body each turn of which is a [row_step]. *)
Definition steps_rows (items : list jsval)
    (body : Z → list node_id → M (list node_id)) : Prop :=
  ∀ i fr w, runs (body i fr) w (λ fr' w', ∃ n, row_step items i n fr w fr' w').

(** The shape both [_renderChunk]s share: the window's end, the marking
    loop, the rendering loop over [body], the fragment's insertion. *)
Definition render_with (totalRows cachedItemsLen : Z)
    (body : Z → list node_id → M (list node_id)) (from : Z) : M unit :=
  let fin := finalItem totalRows cachedItemsLen from in
  modify (with_planned (cons (from, fin))) ;;;   (* ghost *)
  w <- get ;;
  forEach (Object_keys (itemsInContainer w)) (λ key,
    w <- get ;;
    match itemsInContainer w !! key with
    | Some itemInContainer =>
        modify (with_table <[key := Entry Stale (e_node itemInContainer)]>) ;;;
        set_display (e_node itemInContainer) "none"
    | None => throw TypeError
    end) ;;;
  fragment <- for_rows (Z.to_nat (fin - from)) from body [] ;;
  container_appendFragment fragment.

Definition vlist_body (this : VList.t) (i : Z) (fr : list node_id) : M (list node_id) :=
  row <- VList.createRow this i ;; fragment_appendChild fr row.

Definition throttled_body (this : Throttled.t) (i : Z) (fr : list node_id)
    : M (list node_id) :=
  row <- Throttled.createRow this i ;;
  modify (with_table <[i := Entry Active row]>) ;;;
  fragment_appendChild fr row.

(** The row factory of the variant, as a function of the index. *)
Definition throttled_factory (this : Throttled.t) (i : Z) : M jsval :=
  Throttled.generatorFn this (Throttled.items this) i (Throttled.itemHeight this).

(** The shape of a world while rows are rendered into the local fragment
    [fr]; [d] is the number of elements the document had before the list
    was created, which makes [d] the scroller's id. *)
Record well_formed (items : list jsval) (d : nat) (fr : list node_id) (w : world) : Prop := {
  wf_heap : (d + 2 ≤ length (heap w))%nat;
  wf_scroller : head (children w) = Some d;
  wf_nodup : NoDup (children w ++ fr);
  wf_alloc : ∀ n, n ∈ children w ++ fr → (n < length (heap w))%nat;
  wf_in : ∀ k e, itemsInContainer w !! k = Some e → e_node e ∈ children w ++ fr;
  wf_row : ∀ k e, itemsInContainer w !! k = Some e → e_node e ≠ d;
  wf_prebuilt : ∀ k e, itemsInContainer w !! k = Some e → (e_node e < d)%nat →
                items_get items k = VNode (e_node e);
  wf_inj : ∀ k1 k2 e1 e2,
             itemsInContainer w !! k1 = Some e1 → itemsInContainer w !! k2 = Some e2 →
             e_node e1 = e_node e2 → k1 = k2
}.

(** The invariant between two signals: the scroller is the container's
    first child, every table entry's node is a child of the container, and
    no two entries share a node. *)
Definition Inv (items : list jsval) (d : nat) (w : world) : Prop :=
  well_formed items d [] w.

(** The two implementations. *)
Inductive variant :=
| Polling      (* src/vlist.js: setInterval *)
| Throttling.  (* the unnamed variant: lodash.throttle *)

(** [w0] is the world the constructor leaves in a document of the elements
    [dom0]. *)
Definition constructed (v : variant) (cfg : config) (dom0 : list element)
    (w0 : world) : Prop :=
  match v with
  | Polling => ∃ this, VList.VirtualList cfg (fresh_world dom0) = (Ok this, w0)
  | Throttling => ∃ this, Throttled.VirtualList cfg (fresh_world dom0) = (Ok this, w0)
  end.

(** One signal, handled by the instance whose container is [c]. *)
Definition step (v : variant) (cfg : config) (c : node_id) (e : event)
    : world → world :=
  match v with
  | Polling => VList.step (VList.instance cfg c) e
  | Throttling => Throttled.step (Throttled.instance cfg c) e
  end.

(** The worlds an instance goes through: the constructor's, then one
    signal after another.  The container is the second element the
    constructor creates, after the scroller, hence its id. *)
Inductive reachable (v : variant) (cfg : config) (dom0 : list element)
    : world → Prop :=
| reach_new w0 :
    constructed v cfg dom0 w0 → reachable v cfg dom0 w0
| reach_step w e :
    reachable v cfg dom0 w →
    reachable v cfg dom0 (step v cfg (S (length dom0)) e w).

(** The configured items. *)
Definition items_of (cfg : config) : list jsval := default [] (cfg_items cfg).

(** The quantities of the specification. *)
Definition visibleCount (cfg : config) : Z :=
  ceil_div (cfg_h cfg) (cfg_itemHeight cfg).

Definition bufferSize (cfg : config) : Z :=
  or_else (cfg_itemBuffer cfg) (3 * visibleCount cfg).

Definition rowCount (cfg : config) : Z :=
  or_else (cfg_totalRows cfg) (Z.of_nat (length (items_of cfg))).

Definition spec_maxBuffer (cfg : config) : Z :=
  visibleCount cfg * cfg_itemHeight cfg.

(** [first = max(0, floor(s / rowHeight) - visibleCount)] and
    [last = min(totalRows, first + bufferSize)]. *)
Definition spec_first (cfg : config) (s : Z) : Z :=
  Z.max 0 (s / cfg_itemHeight cfg - visibleCount cfg).

Definition spec_last (cfg : config) (first : Z) : Z :=
  Z.min (rowCount cfg) (first + bufferSize cfg).

(** What a rendering of the window [from, fin) does to a world. *)
Record rendered (items : list jsval) (from fin : Z) (w w' : world) : Prop := {
  rd_in : ∀ x, from ≤ x < fin →
      ∃ nd, itemsInContainer w' !! x = Some (Entry Active nd)
            ∧ ((length (heap w) ≤ nd < length (heap w'))%nat
               ∨ items_get items x = VNode nd);
  rd_out : ∀ x, ¬ (from ≤ x < fin) →
      itemsInContainer w' !! x = mark <$> itemsInContainer w !! x;
  rd_planned : planned w' = (from, fin) :: planned w;
  rd_produced : produced w' = rev (seqZ from (fin - from)) ++ produced w;
  rd_children : (length (children w') ≤ length (children w) + Z.to_nat (fin - from))%nat;
  rd_keeps : ∀ n, n ∈ children w → n ∈ children w';
  rd_heap : (length (heap w) ≤ length (heap w'))%nat
}.

(** The reclamation callback of either variant, run at time [now] by the
    instance whose container is [c]. *)
Definition sweep (v : variant) (cfg : config) (c : node_id) (now : Z)
    : world → world :=
  handle match v with
         | Polling => VList.rmNodeInterval (VList.instance cfg c) now
         | Throttling => Throttled.rmNode (Throttled.instance cfg c) now
         end.

(** The table with its Stale entries dropped. *)
Definition active_only (t : gmap Z entry) : gmap Z entry :=
  filter (λ kv, e_status kv.2 = Active) t.

(** [n] is the node of a Stale entry. *)
Definition stale_node (w : world) (n : node_id) : Prop :=
  ∃ k e, itemsInContainer w !! k = Some e ∧ e_status e = Stale ∧ e_node e = n.

(** [n] is the node of an Active entry. *)
Definition active_node (w : world) (n : node_id) : Prop :=
  ∃ k e, itemsInContainer w !! k = Some e ∧ e_status e = Active ∧ e_node e = n.

(** The window of the last rendering covers [from .. spec_last from), and
    exactly its indices are Active. *)
Definition window_is (cfg : config) (w : world) (from : Z) : Prop :=
  head (planned w) = Some (from, spec_last cfg from)
  ∧ 0 ≤ from
  ∧ ∀ i, is_active w i ↔ from ≤ i < spec_last cfg from.

(** The indices handed to the row factory between [w] and a later [w'],
    newest first. *)
Definition calls_between (w w' : world) : list Z :=
  take (length (produced w') - length (produced w)) (produced w').

(** Decidable forms of the conditions on the items. *)
Definition plain (v : jsval) : bool :=
  match v with
  | VStr _ | VNode _ | VUndefined => true
  | _ => false
  end.

Definition node_of (v : jsval) : option node_id :=
  match v with
  | VNode n => Some n
  | _ => None
  end.

Definition prebuilt_check (d : nat) (items : list jsval) : bool :=
  forallb (λ n, n <? d)%nat (omap node_of items)
  && bool_decide (NoDup (omap node_of items)).

Definition config_check (dom0 : list element) (cfg : config) : bool :=
  (0 <? cfg_itemHeight cfg)
  && forallb plain (default [] (cfg_items cfg))
  && prebuilt_check (length dom0) (default [] (cfg_items cfg)).

(** ** Two concrete lists

    The scenario of the specification: 1000 rows of height 20 in a viewport
    of height 200, so that 10 rows are visible and 30 are buffered; the
    first three rows have items, the second of them a pre-built element of
    the document. *)
Definition demo_cfg : config :=
  Config 200 20 (Some [VStr "first"; VNode 0%nat; VStr "third"]) (Some 1000) None.

Definition demo_dom : list element := [blank "li"].

(** The world the constructor of [src/vlist.js] leaves. *)
Definition demo_world : world :=
  snd (VList.VirtualList demo_cfg (fresh_world demo_dom)).

(** A smaller list for the unnamed variant: 8 placeholder rows of height
    10 in a viewport of height 20, 3 rows buffered. *)
Definition small_cfg : config := Config 20 10 None (Some 8) (Some 3).

Definition small_world : world :=
  snd (Throttled.VirtualList small_cfg (fresh_world [])).

(** The timer signal runs the reclamation callback: always in
    [src/vlist.js], and in the unnamed variant when a call of the throttled
    function is waiting. *)
Definition tick_fires (v : variant) (w : world) : Prop :=
  match v with
  | Polling => True
  | Throttling => rmPending w = true
  end.

(** The first list after a signal at offset 3000: rows 0 to 29 are Stale. *)
Definition demo_scrolled : world :=
  step Polling demo_cfg 2%nat (Scroll 3000 20) demo_world.

(** The second list after a signal at offset 40: a sweep is waiting. *)
Definition small_scrolled : world :=
  step Throttling small_cfg 1%nat (Scroll 40 10) small_world.

(** ** Further vocabulary *)

(** A list without rows: no items, no [totalRows]. *)
Definition empty_cfg : config := Config 200 20 None None None.

(** Timer signals at the times [ts], one after another. *)
Definition ticks (v : variant) (cfg : config) (c : node_id) (ts : list Z)
    (w : world) : world :=
  foldl (λ w t, step v cfg c (Tick t) w) w ts.

(** The nodes of the Active entries of a table, in index order. *)
Definition active_nodes (t : gmap Z entry) : list node_id :=
  omap (λ k, e_node <$> active_only t !! k) (Object_keys (active_only t)).

(** The signals [es], one after another. *)
Definition run (v : variant) (cfg : config) (c : node_id) (es : list event)
    (w : world) : world :=
  foldl (λ w e, step v cfg c e w) w es.

(** A row node of the container that no table entry refers to. *)
Definition orphan (d : nat) (w : world) (n : node_id) : Prop :=
  n ∈ children w ∧ n ≠ d
  ∧ ∀ k e, itemsInContainer w !! k = Some e → e_node e ≠ n.

(** The first list after a signal at offset 205, which renders rows 0 to
    29 again. *)
Definition demo_rerendered : world :=
  step Polling demo_cfg 2%nat (Scroll 205 10) demo_world.

(** [throws m w e Q]: from [w], [m] ends in the exception [e], leaving a
    world that satisfies [Q]. *)
Definition throws {A} (m : M A) (w : world) (e : exn) (Q : world → Prop) : Prop :=
  ∃ w', m w = (Throw e, w') ∧ Q w'.

(** A world in which the sweep of [src/vlist.js] cannot get through: some
    Stale entry's node is not a child of the container, or two Stale
    entries have the same node. *)
Definition sweep_blocked (w : world) : Prop :=
  ∃ k e, itemsInContainer w !! k = Some e ∧ e_status e = Stale
    ∧ ((e_node e ∉ children w)
       ∨ ∃ k2 e2, k2 ≠ k ∧ itemsInContainer w !! k2 = Some e2
                  ∧ e_status e2 = Stale ∧ e_node e2 = e_node e).

(** A list whose first two items are one and the same element. *)
Definition twin_cfg : config :=
  Config 20 10 (Some [VNode 0%nat; VNode 0%nat]) (Some 8) (Some 2).

(** That list after a signal at offset 60: rows 0 and 1 are Stale. *)
Definition twin_scrolled : world :=
  handle (VList.onScroll (VList.instance twin_cfg 2%nat) 60 10)
         (snd (VList.VirtualList twin_cfg (fresh_world [blank "li"]))).

(** The items a variant's default factory hands back as they are although
    they are not elements: in [src/vlist.js] the truthy values that are
    neither strings nor elements, in the unnamed variant every defined
    value that is neither. *)
Definition rejects (v : variant) (x : jsval) : bool :=
  match x with
  | VStr _ | VNode _ => false
  | _ => match v with
         | Polling => truthy x
         | Throttling => negb (String.eqb (typeof x) "undefined")
         end
  end.

(** The body of the rendering loop of either variant. *)
Definition row_body (v : variant) (cfg : config) (c : node_id)
    : Z → list node_id → M (list node_id) :=
  match v with
  | Polling => vlist_body (VList.instance cfg c)
  | Throttling => throttled_body (Throttled.instance cfg c)
  end.

(** The scroll handler of either variant. *)
Definition onScroll (v : variant) (cfg : config) (c : node_id) (s now : Z) : M unit :=
  match v with
  | Polling => VList.onScroll (VList.instance cfg c) s now
  | Throttling => Throttled.onScroll (Throttled.instance cfg c) s now
  end.

(** What [new VirtualList(config)] ends in, in a document of the elements
    [dom0]: nothing for a normal return, or the exception. *)
Definition construction (v : variant) (cfg : config) (dom0 : list element)
    : option exn :=
  match v with
  | Polling => match fst (VList.VirtualList cfg (fresh_world dom0)) with
               | Ok _ => None | Throw e => Some e end
  | Throttling => match fst (Throttled.VirtualList cfg (fresh_world dom0)) with
                  | Ok _ => None | Throw e => Some e end
  end.

(** A list whose sixth item is a number, and the world after its
    construction. *)
Definition late_cfg : config :=
  Config 20 10 (Some [VStr "a"; VStr "b"; VStr "c"; VStr "d"; VStr "e"; VNum 7])
         (Some 8) (Some 3).

Definition late_world : world :=
  snd (VList.VirtualList late_cfg (fresh_world [])).

(** A list whose second item is [null]. *)
Definition null_cfg : config := Config 20 10 (Some [VStr "a"; VNull]) None None.

(** ** What the elements look like *)

(** [el], the element [n], is the row of index [k] with status [st]: it
    has the class [vrow], is placed absolutely at [k * itemHeight], is
    shown when Active and hidden when Stale, and holds the item: it is the
    pre-built element itself, or a [div] of the row height whose text is
    the string (no text for an absent item). *)
Definition row_of (cfg : config) (k : Z) (st : status) (n : node_id) (el : element)
    : Prop :=
  "vrow" ∈ el_class el
  ∧ st_position (el_style el) = "absolute"
  ∧ st_top (el_style el) = Some (k * cfg_itemHeight cfg)
  ∧ st_display (el_style el) = match st with Active => "" | Stale => "none" end
  ∧ match items_get (items_of cfg) k with
    | VNode m => n = m
    | VStr s => el_tag el = "div"
                ∧ foldr String.append "" (el_text el) = s
                ∧ st_height (el_style el) = Some (Px (cfg_itemHeight cfg))
    | _ => el_tag el = "div" ∧ el_text el = []
           ∧ st_height (el_style el) = Some (Px (cfg_itemHeight cfg))
    end.

(** The scroller and the container as the constructor leaves them. *)
Definition scroller_element (cfg : config) : element :=
  Element "div" [] ["vScroller"]
          (Style (assign_height (Px (cfg_itemHeight cfg * rowCount cfg)) None)
                 "" "absolute" (Some 0)).

Definition container_element (cfg : config) : element :=
  Element "div" [] ["vContainer"]
          (Style (assign_height (if cfg_h cfg =? 0 then Percent 100 else Px (cfg_h cfg))
                                None)
                 "" "relative" None).

(** The element store of a list made in a document of the elements [dom0]:
    every table entry's node is the row of its index, the scroller and the
    container are as they were made, and the document's elements that are
    not items of the list are as they were. *)
Record Shown (cfg : config) (dom0 : list element) (w : world) : Prop := {
  sh_rows : ∀ k e, itemsInContainer w !! k = Some e →
      ∃ el, heap w !! e_node e = Some el ∧ row_of cfg k (e_status e) (e_node e) el;
  sh_not_container : ∀ k e, itemsInContainer w !! k = Some e →
      e_node e ≠ S (length dom0);
  sh_scroller : heap w !! length dom0 = Some (scroller_element cfg);
  sh_container : heap w !! S (length dom0) = Some (container_element cfg);
  sh_document : ∀ m, (m < length dom0)%nat →
      (∀ i, items_get (items_of cfg) i ≠ VNode m) → heap w !! m = dom0 !! m
}.

(** ** Quotients and tall rows *)

(** The quotient [s / itemHeight] is zero or of a size that JavaScript
    writes in positional notation, from 1e-6 up to 1e21. *)
Definition positional (s itemHeight : Z) : Prop :=
  (s = 0 ∨ Z.abs itemHeight ≤ 10 ^ 6 * Z.abs s)
  ∧ Z.abs s < 10 ^ 21 * Z.abs itemHeight.

(** Ten rows of 2000000 pixels each in a view of 500, and the worlds the
    two constructors leave. *)
Definition tall_cfg : config := Config 500 2000000 None (Some 10) None.

Definition tall_world (v : variant) : world :=
  match v with
  | Polling => snd (VList.VirtualList tall_cfg (fresh_world []))
  | Throttling => snd (Throttled.VirtualList tall_cfg (fresh_world []))
  end.

(** ** Alternating re-plans and sweeps *)

(** The list of the first scenario as the unnamed variant constructs it. *)
Definition demo_world_throttled : world :=
  snd (Throttled.VirtualList demo_cfg (fresh_world demo_dom)).

(** A signal at offset 205, a sweep, a signal at offset 420, a sweep: each
    re-plan has the sweep after it, and each sweep acts. *)
Definition settled_twice (v : variant) (w : world) : world :=
  let w1 := step v demo_cfg (S (length demo_dom)) (Scroll 205 10) w in
  let w2 := step v demo_cfg (S (length demo_dom)) (Tick 400) w1 in
  let w3 := step v demo_cfg (S (length demo_dom)) (Scroll 420 500) w2 in
  step v demo_cfg (S (length demo_dom)) (Tick 900) w3.

(** * Reasoning about computations *)

Section Rules.
Context {A B : Type}.

Lemma runs_ret (a : A) w (Q : A → world → Prop) : Q a w → runs (ret a) w Q.
Proof. intros H. exists a, w. done. Qed.

Lemma runs_bind (m : M A) (k : A → M B) w (Q : B → world → Prop) :
  runs m w (λ a w', runs (k a) w' Q) → runs (bind m k) w Q.
Proof.
  intros (a & w' & Hm & b & w'' & Hk & HQ).
  exists b, w''. unfold bind. rewrite Hm. done.
Qed.

Lemma runs_conseq (m : M A) w (Q Q' : A → world → Prop) :
  runs m w Q → (∀ a w', Q a w' → Q' a w') → runs m w Q'.
Proof. intros (a & w' & Hm & HQ) H. exists a, w'. auto. Qed.

End Rules.

Lemma runs_handled (m : M unit) w (Q : world → Prop) :
  runs m w (λ _ w', Q w') → Q (handle m w).
Proof. intros ([] & w' & Hm & HQ). unfold handle. by rewrite Hm. Qed.

(** A goal about the world a handler leaves, from what the handler does. *)
Ltac by_handler :=
  match goal with
  | |- context [handle ?m ?w] =>
      pattern (handle m w); apply runs_handled; cbv beta
  end.

Lemma runs_modify f w (Q : unit → world → Prop) : Q tt (f w) → runs (modify f) w Q.
Proof. intros H. by exists tt, (f w). Qed.

Lemma runs_get w (Q : world → world → Prop) : Q w w → runs get w Q.
Proof. intros H. by exists w, w. Qed.

(** The loop rules: an invariant over what is left to do. *)
Lemma runs_forEach {A} (I : list A → world → Prop) (f : A → M unit) xs w :
  I xs w →
  (∀ x rest w, I (x :: rest) w → runs (f x) w (λ _ w', I rest w')) →
  runs (forEach xs f) w (λ _ w', I [] w').
Proof.
  intros HI Hstep. revert w HI.
  induction xs as [|x xs IH]; intros w HI; simpl.
  - by apply runs_ret.
  - apply runs_bind. eapply runs_conseq; [by apply Hstep|].
    intros ? w' HI'. by apply IH.
Qed.

Lemma runs_for_rows (I : nat → Z → list node_id → world → Prop) body n i fragment w :
  I n i fragment w →
  (∀ k j fr w, I (S k) j fr w → runs (body j fr) w (λ fr' w', I k (j + 1) fr' w')) →
  runs (for_rows n i body fragment) w (λ fr' w', ∃ j, I O j fr' w').
Proof.
  intros HI Hstep. revert i fragment w HI.
  induction n as [|n IH]; intros i fragment w HI; simpl.
  - apply runs_ret. by exists i.
  - apply runs_bind. eapply runs_conseq; [by apply Hstep|].
    intros fr' w' HI'. by apply (IH _ _ _ HI').
Qed.

Lemma runs_createElement tag w (Q : node_id → world → Prop) :
  Q (length (heap w)) (with_heap (λ h, h ++ [blank tag]) w) →
  runs (createElement tag) w Q.
Proof. intros H. by eexists _, _. Qed.

Ltac step_runs :=
  repeat (cbv beta;
          lazymatch goal with
          | |- runs (bind _ _) _ _ => apply runs_bind
          | |- runs (modify _) _ _ => apply runs_modify
          | |- runs get _ _ => apply runs_get
          | |- runs (ret _) _ _ => apply runs_ret
          | |- runs (createElement _) _ _ => apply runs_createElement
          end).

(** Goals that a field no operation wrote is what it was. *)
Ltac framed := unfold control in *; simpl in *; congruence.

(** * The default row factories *)

Lemma alter_new (f : element → element) (h : list element) (e : element) :
  alter f (length h) (h ++ [e]) = h ++ [f e].
Proof.
  rewrite alter_app_r_alt by lia. by rewrite Nat.sub_diag.
Qed.

Lemma vlist_factory_string items ih i s w :
  items_get items i = VStr s → s ≠ "" →
  VList.prototype_generatorFn items ih i w
  = (Ok (VNode (length (heap w))), with_heap (λ h, h ++ [row_div ih [s]]) w).
Proof.
  intros Hi Hs. unfold VList.prototype_generatorFn. rewrite Hi. simpl.
  destruct (String.eqb_spec s "") as [->|_]; [done|]. simpl.
  unfold bind, createElement, set_height, set_css_height, appendText, update, modify, ret, with_heap; simpl.
  by rewrite !alter_new.
Qed.

Lemma vlist_factory_falsy items ih i w :
  truthy (items_get items i) = false →
  VList.prototype_generatorFn items ih i w
  = (Ok (VNode (length (heap w))), with_heap (λ h, h ++ [row_div ih []]) w).
Proof.
  intros Hi. unfold VList.prototype_generatorFn. rewrite Hi.
  unfold bind, createElement, set_height, set_css_height, update, modify, ret, with_heap; simpl.
  by rewrite !alter_new.
Qed.

Lemma vlist_factory_node items ih i n w :
  items_get items i = VNode n →
  VList.prototype_generatorFn items ih i w = (Ok (VNode n), w).
Proof. intros Hi. unfold VList.prototype_generatorFn. by rewrite Hi. Qed.

Lemma throttled_factory_string items ih i s w :
  items_get items i = VStr s →
  Throttled.prototype_generatorFn items i ih w
  = (Ok (VNode (length (heap w))), with_heap (λ h, h ++ [row_div ih [s]]) w).
Proof.
  intros Hi. unfold Throttled.prototype_generatorFn. rewrite Hi. simpl.
  unfold bind, createElement, set_height, set_css_height, appendText, update, modify, ret, with_heap; simpl.
  by rewrite !alter_new.
Qed.

Lemma throttled_factory_undefined items ih i w :
  items_get items i = VUndefined →
  Throttled.prototype_generatorFn items i ih w
  = (Ok (VNode (length (heap w))), with_heap (λ h, h ++ [row_div ih []]) w).
Proof.
  intros Hi. unfold Throttled.prototype_generatorFn. rewrite Hi. simpl.
  unfold bind, createElement, set_height, set_css_height, update, modify, ret, with_heap; simpl.
  by rewrite !alter_new.
Qed.

Lemma throttled_factory_other items ih i w :
  items_get items i ≠ VUndefined → (∀ s, items_get items i ≠ VStr s) →
  Throttled.prototype_generatorFn items i ih w = (Ok (items_get items i), w).
Proof.
  intros Hu Hs. unfold Throttled.prototype_generatorFn.
  destruct (items_get items i); simpl; try done. by destruct (Hs s).
Qed.

Lemma append_empty_r (s : string) : String.append s "" = s.
Proof.
  induction s as [|a s IH]; [done|].
  change (String a (String.append s "") = String a s). by rewrite IH.
Qed.

Lemma textContent_new w e :
  textContent (with_heap (λ h, h ++ [e]) w) (length (heap w))
  = Some (foldr String.append "" (el_text e)).
Proof.
  unfold textContent; simpl. rewrite lookup_app_r by lia.
  by rewrite Nat.sub_diag.
Qed.


(** * The rendering loop *)

Lemma Object_keys_spec (o : gmap Z entry) k : k ∈ Object_keys o ↔ is_Some (o !! k).
Proof.
  unfold Object_keys. rewrite merge_sort_Permutation.
  rewrite elem_of_elements. apply elem_of_dom.
Qed.

Lemma Object_keys_NoDup (o : gmap Z entry) : NoDup (Object_keys o).
Proof.
  unfold Object_keys. rewrite merge_sort_Permutation. apply NoDup_elements.
Qed.

Lemma vlist_default_factory_ok items ih :
  items_plain items → factory_ok items (VList.prototype_generatorFn items ih).
Proof.
  intros Hp i w. specialize (Hp i).
  destruct (items_get items i) as [| |b|z|s|n] eqn:Hi; try done.
  - exists (length (heap w)). left. split; [done|]. eexists.
    apply vlist_factory_falsy. by rewrite Hi.
  - exists (length (heap w)). left. split; [done|].
    destruct (decide (s = "")) as [->|Hne].
    + eexists. apply vlist_factory_falsy. by rewrite Hi.
    + eexists. by apply vlist_factory_string.
  - exists n. right. split; [done|]. by apply vlist_factory_node.
Qed.

Lemma throttled_default_factory_ok items ih :
  items_plain items →
  factory_ok items (λ i, Throttled.prototype_generatorFn items i ih).
Proof.
  intros Hp i w. specialize (Hp i).
  destruct (items_get items i) as [| |b|z|s|n] eqn:Hi; try done.
  - exists (length (heap w)). left. split; [done|]. eexists.
    by apply throttled_factory_undefined.
  - exists (length (heap w)). left. split; [done|]. eexists.
    by apply throttled_factory_string.
  - exists n. right. split; [done|].
    rewrite throttled_factory_other; rewrite Hi; done.
Qed.

(** One turn of the loop of [src/vlist.js]. *)
Lemma vlist_row_step this i fr w :
  factory_ok (VList.items this) (VList.generatorFn this) →
  runs (row <- VList.createRow this i ;; fragment_appendChild fr row) w
       (λ fr' w', ∃ n, row_step (VList.items this) i n fr w fr' w').
Proof.
  intros Hf.
  destruct (Hf i (with_produced (cons i) w)) as [n [[-> [e He]]|[Hi He]]].
  - unfold runs, VList.createRow, fragment_appendChild, bind, modify. simpl.
    rewrite He. simpl. eexists _, _. split; [reflexivity|].
    eexists. split; simpl; try done.
    left. split; [done|]. rewrite !length_alter, length_app. simpl. lia.
  - unfold runs, VList.createRow, fragment_appendChild, bind, modify. simpl.
    rewrite He. simpl. eexists _, _. split; [reflexivity|].
    exists n. split; simpl; try done.
    right. split; [done|]. by rewrite !length_alter.
Qed.

(** The first loop of [_renderChunk] marks every entry, and hides its node. *)
Lemma mark_all_spec w :
  runs (forEach (Object_keys (itemsInContainer w)) (λ key,
          w <- get ;;
          match itemsInContainer w !! key with
          | Some itemInContainer =>
              modify (with_table <[key := Entry Stale (e_node itemInContainer)]>) ;;;
              set_display (e_node itemInContainer) "none"
          | None => throw TypeError
          end)) w
       (λ _ w', itemsInContainer w' = mark <$> itemsInContainer w
                ∧ children w' = children w
                ∧ length (heap w') = length (heap w)
                ∧ control w' = control w
                ∧ planned w' = planned w ∧ produced w' = produced w).
Proof.
  set (t0 := itemsInContainer w).
  eapply runs_conseq.
  - apply (runs_forEach (λ rest w',
      (∀ k, k ∈ rest → is_Some (t0 !! k))
      ∧ (∀ k, itemsInContainer w' !! k = mark <$> t0 !! k
              ∨ (k ∈ rest ∧ itemsInContainer w' !! k = t0 !! k))
      ∧ children w' = children w
      ∧ length (heap w') = length (heap w)
      ∧ control w' = control w
      ∧ planned w' = planned w ∧ produced w' = produced w)).
    + split_and!; try done.
      * intros k Hk. by apply Object_keys_spec.
      * intros k. destruct (t0 !! k) as [e|] eqn:Hk.
        -- right. split; [|done]. apply Object_keys_spec. by rewrite Hk.
        -- by left.
    + intros x rest w1 (Hin & Ht & Hc & Hh & Hctl & Hp & Hq).
      apply runs_bind, runs_get.
      assert (∃ e, itemsInContainer w1 !! x = Some e
                   ∧ mark e = mark (default e (t0 !! x))) as (e & He & Hme).
      { destruct (Hin x) as [e0 He0]; [by left|].
        destruct (Ht x) as [H|[_ H]]; rewrite He0 in H.
        - exists (mark e0). by rewrite He0.
        - exists e0. by rewrite He0. }
      rewrite He. step_runs. unfold set_display, update. step_runs. simpl.
      split_and!; try done.
      * intros k Hk. apply Hin. by right.
      * intros k. destruct (decide (k = x)) as [->|Hne].
        -- left. rewrite lookup_insert_eq.
           destruct (Hin x) as [e0 He0]; [by left|].
           rewrite He0 in Hme |- *. simpl in *. by rewrite <-Hme.
        -- rewrite lookup_insert_ne by done.
           destruct (Ht k) as [H|[Hk H]]; [by left|].
           right. split; [|done]. by apply elem_of_cons in Hk as [?|?].
      * by rewrite length_alter.
  - intros _ w' (_ & Ht & Hrest). split; [|done].
    apply map_eq. intros k. rewrite lookup_fmap.
    destruct (Ht k) as [H|[Hk _]]; [done|]. by apply elem_of_nil in Hk.
Qed.

Lemma elem_of_detach n x (l : list node_id) : x ∈ detach n l ↔ x ≠ n ∧ x ∈ l.
Proof. unfold detach. by rewrite list_elem_of_filter. Qed.

Lemma length_detach n (l : list node_id) : (length (detach n l) ≤ length l)%nat.
Proof. apply length_filter. Qed.

(** The rendering loop, as far as the table, the counters and the control
    variables go. *)
Lemma rows_loop_table items body n from w :
  steps_rows items body →
  runs (for_rows n from body []) w (λ fr w',
    (∀ x, from ≤ x < from + Z.of_nat n →
        ∃ nd, itemsInContainer w' !! x = Some (Entry Active nd)
              ∧ ((length (heap w) ≤ nd < length (heap w'))%nat
                 ∨ items_get items x = VNode nd))
    ∧ (∀ x, ¬ (from ≤ x < from + Z.of_nat n) →
        itemsInContainer w' !! x = itemsInContainer w !! x)
    ∧ control w' = control w
    ∧ planned w' = planned w
    ∧ produced w' = rev (seqZ from (Z.of_nat n)) ++ produced w
    ∧ (length (children w') + length fr ≤ length (children w) + n)%nat
    ∧ (∀ x, x ∈ children w → x ∈ children w' ++ fr)
    ∧ (length (heap w) ≤ length (heap w'))%nat).
Proof.
  intros Hbody.
  pose (I := λ (k : nat) (j : Z) (fr : list node_id) (w' : world),
    ∃ c : nat, (c + k = n)%nat ∧ j = from + Z.of_nat c
    ∧ (∀ x, from ≤ x < j →
        ∃ nd, itemsInContainer w' !! x = Some (Entry Active nd)
              ∧ ((length (heap w) ≤ nd < length (heap w'))%nat
                 ∨ items_get items x = VNode nd))
    ∧ (∀ x, ¬ (from ≤ x < j) →
        itemsInContainer w' !! x = itemsInContainer w !! x)
    ∧ control w' = control w
    ∧ planned w' = planned w
    ∧ produced w' = rev (seqZ from (Z.of_nat c)) ++ produced w
    ∧ (length (children w') + length fr ≤ length (children w) + c)%nat
    ∧ (∀ x, x ∈ children w → x ∈ children w' ++ fr)
    ∧ (length (heap w) ≤ length (heap w'))%nat).
  eapply runs_conseq.
  - apply (runs_for_rows I).
    + exists O. split_and!; try done; try lia; try (intros; simpl; lia).
      intros x Hx. by rewrite app_nil_r.
    + intros k j fr w1 (c & Hc & -> & Hin & Hout & Hctl & Hp & Hq & Hlen & Hk & Hh).
      eapply runs_conseq; [apply Hbody|]. simpl.
      intros fr' w2 (nd & [Hfr Ht Hch Hctl2 Hp2 Hq2 Hnd]).
      exists (S c). split_and!; try lia.
      * intros x Hx. rewrite Ht.
        destruct (decide (x = from + Z.of_nat c)) as [->|Hne].
        -- exists nd. rewrite lookup_insert_eq. split; [done|].
           destruct Hnd as [[-> Hl]|[Hi Hl]]; [left; lia | by right].
        -- rewrite lookup_insert_ne by done.
           destruct (Hin x) as (nd' & Hx' & Hnd'); [lia|].
           exists nd'. split; [done|].
           destruct Hnd' as [?|?]; [left|by right].
           destruct Hnd as [[_ Hl]|[_ Hl]]; lia.
      * intros x Hx. rewrite Ht, lookup_insert_ne by lia. apply Hout. lia.
      * congruence.
      * congruence.
      * rewrite Hq2, Hq, seqZ_S, rev_app_distr. done.
      * rewrite Hch, Hfr, length_app. simpl.
        pose proof (length_detach nd (children w1)).
        pose proof (length_detach nd fr). lia.
      * intros x Hx. apply Hk in Hx.
        rewrite Hch, Hfr, !elem_of_app, !elem_of_detach, list_elem_of_singleton.
        apply elem_of_app in Hx. destruct (decide (x = nd)); tauto.
  - intros fr w' (j & c & Hc & -> & Hrest).
    assert (c = n) as -> by lia. done.
Qed.

Lemma vlist_renderChunk_shape this from :
  VList._renderChunk this from
  = render_with (VList.totalRows this) (VList.cachedItemsLen this) (vlist_body this) from.
Proof. reflexivity. Qed.

Lemma throttled_renderChunk_shape this from :
  Throttled._renderChunk this from
  = render_with (Throttled.totalRows this) (Throttled.cachedItemsLen this)
                (throttled_body this) from.
Proof. reflexivity. Qed.

Lemma vlist_steps_rows this :
  factory_ok (VList.items this) (VList.generatorFn this) →
  steps_rows (VList.items this) (vlist_body this).
Proof. intros Hf i fr w. by apply vlist_row_step. Qed.

Lemma throttled_steps_rows this :
  factory_ok (Throttled.items this) (throttled_factory this) →
  steps_rows (Throttled.items this) (throttled_body this).
Proof.
  intros Hf i fr w.
  destruct (Hf i (with_produced (cons i) w)) as [n [[-> [e He]]|[Hi He]]];
    unfold throttled_factory in He.
  - unfold runs, throttled_body, Throttled.createRow, fragment_appendChild, bind, modify.
    simpl. rewrite He. simpl. eexists _, _. split; [reflexivity|].
    eexists. split; simpl; try done.
    left. split; [done|]. rewrite !length_alter, length_app. simpl. lia.
  - unfold runs, throttled_body, Throttled.createRow, fragment_appendChild, bind, modify.
    simpl. rewrite He. simpl. eexists _, _. split; [reflexivity|].
    exists n. split; simpl; try done.
    right. split; [done|]. by rewrite !length_alter.
Qed.

Lemma seqZ_to_nat m n : seqZ m (Z.of_nat (Z.to_nat n)) = seqZ m n.
Proof. unfold seqZ. by rewrite Nat2Z.id. Qed.

(** What a rendering does to the table, the counters and the control
    variables. *)
Lemma render_table items totalRows cachedItemsLen body from w :
  steps_rows items body →
  runs (render_with totalRows cachedItemsLen body from) w (λ _ w',
    rendered items from (finalItem totalRows cachedItemsLen from) w w'
    ∧ control w' = control w).
Proof.
  intros Hbody. unfold render_with.
  set (fin := finalItem totalRows cachedItemsLen from).
  apply runs_bind, runs_modify, runs_bind, runs_get, runs_bind.
  eapply runs_conseq; [apply mark_all_spec|].
  intros ? w1 (Ht1 & Hc1 & Hh1 & Hctl1 & Hp1 & Hq1). simpl in *.
  apply runs_bind.
  eapply runs_conseq; [by apply (rows_loop_table items)|].
  intros fr w2 (Hin & Hout & Hctl2 & Hp2 & Hq2 & Hlen & Hk & Hh2).
  unfold container_appendFragment. apply runs_modify. simpl.
  split; [split|]; simpl.
  - intros x Hx. destruct (Hin x) as (nd & Hx' & Hnd); [lia|].
    exists nd. split; [done|]. rewrite Hh1 in Hnd. done.
  - intros x Hx. rewrite Hout by lia. by rewrite Ht1, lookup_fmap.
  - congruence.
  - rewrite Hq2, Hq1, seqZ_to_nat. done.
  - rewrite length_app, <-Hc1. lia.
  - intros n Hn. apply Hk. by rewrite Hc1.
  - lia.
  - framed.
Qed.

(** * The structural invariant *)

Lemma runs_result {A} (m : M A) w a w' (Q : A → world → Prop) :
  runs m w Q → m w = (Ok a, w') → Q a w'.
Proof. intros (a2 & w2 & Hm & HQ) Hm2. rewrite Hm in Hm2. by injection Hm2 as <- <-. Qed.

Lemma detach_head n d (l : list node_id) :
  n ≠ d → head l = Some d → head (detach n l) = Some d.
Proof.
  intros Hne Hl. destruct l as [|x l]; [done|]. simpl in Hl. injection Hl as ->.
  unfold detach. rewrite filter_cons_True by done. done.
Qed.

Lemma detach_NoDup n (l : list node_id) : NoDup l → NoDup (detach n l).
Proof. apply NoDup_filter. Qed.

Lemma row_step_well_formed items d i nd fr w fr' w' :
  prebuilt_ok d items →
  row_step items i nd fr w fr' w' →
  well_formed items d fr w → well_formed items d fr' w'.
Proof.
  intros [Hpre Hinj] [Hfr Ht Hch _ _ _ Hnd] [Hh Hs Hnod Hal Hin Hrow Hpb Hij].
  assert (Hd : nd ≠ d).
  { destruct Hnd as [[-> _]|[Hi _]]; [lia|]. apply Hpre in Hi. lia. }
  assert (Hnew : ∀ k e, itemsInContainer w !! k = Some e → k ≠ i → e_node e ≠ nd).
  { intros k e Hk Hki Heq. destruct Hnd as [[-> _]|[Hi _]].
    - apply Hin, Hal in Hk. lia.
    - apply Hki, (Hinj _ _ nd); [|done]. rewrite <-Heq. apply (Hpb _ _ Hk).
      rewrite Heq. by apply Hpre in Hi. }
  assert (Hpool : ∀ x, x ∈ children w' ++ fr' ↔ x = nd ∨ x ∈ children w ++ fr).
  { intros x. rewrite Hch, Hfr, !elem_of_app, !elem_of_detach, list_elem_of_singleton.
    destruct (decide (x = nd)); tauto. }
  split.
  - destruct Hnd as [[_ Hl]|[_ Hl]]; lia.
  - rewrite Hch. by apply detach_head.
  - rewrite Hch, Hfr. unfold detach. rewrite app_assoc, <-filter_app.
    apply NoDup_app. split_and!.
    + by apply NoDup_filter.
    + intros x Hx Hx'. apply list_elem_of_filter in Hx as [Hx _].
      by apply list_elem_of_singleton in Hx'.
    + apply NoDup_singleton.
  - intros x Hx. apply Hpool in Hx as [->|Hx].
    + destruct Hnd as [[-> Hl]|[Hi Hl]]; [lia|]. apply Hpre in Hi. lia.
    + apply Hal in Hx. destruct Hnd as [[_ Hl]|[_ Hl]]; lia.
  - intros k e. rewrite Ht. intros Hk. apply Hpool.
    destruct (decide (k = i)) as [->|Hne].
    + rewrite lookup_insert_eq in Hk. injection Hk as <-. by left.
    + rewrite lookup_insert_ne in Hk by done. right. by apply (Hin k).
  - intros k e. rewrite Ht. intros Hk.
    destruct (decide (k = i)) as [->|Hne].
    + rewrite lookup_insert_eq in Hk. by injection Hk as <-.
    + rewrite lookup_insert_ne in Hk by done. by apply (Hrow k).
  - intros k e. rewrite Ht. intros Hk Hlt.
    destruct (decide (k = i)) as [->|Hne].
    + rewrite lookup_insert_eq in Hk. injection Hk as <-. simpl in *.
      destruct Hnd as [[-> _]|[Hi _]]; [lia|done].
    + rewrite lookup_insert_ne in Hk by done. by apply (Hpb k).
  - intros k1 k2 e1 e2. rewrite Ht. intros H1 H2 Heq.
    destruct (decide (k1 = i)) as [->|Hne1], (decide (k2 = i)) as [->|Hne2]; [done|..].
    + rewrite lookup_insert_eq in H1. injection H1 as <-.
      rewrite lookup_insert_ne in H2 by done. simpl in Heq.
      by destruct (Hnew _ _ H2 Hne2).
    + rewrite lookup_insert_eq in H2. injection H2 as <-.
      rewrite lookup_insert_ne in H1 by done. simpl in Heq.
      by destruct (Hnew _ _ H1 Hne1).
    + rewrite lookup_insert_ne in H1, H2 by done. by apply (Hij _ _ _ _ H1 H2).
Qed.

(** A rendering keeps the invariant. *)
Lemma render_Inv items d totalRows cachedItemsLen body from w :
  steps_rows items body → prebuilt_ok d items →
  Inv items d w →
  runs (render_with totalRows cachedItemsLen body from) w (λ _ w', Inv items d w').
Proof.
  intros Hbody Hpre HI. unfold render_with.
  set (fin := finalItem totalRows cachedItemsLen from).
  apply runs_bind, runs_modify, runs_bind, runs_get, runs_bind.
  eapply runs_conseq; [apply mark_all_spec|].
  intros ? w1 (Ht1 & Hc1 & Hh1 & _). simpl in *.
  assert (HI1 : well_formed items d [] w1).
  { destruct HI as [Hh Hs Hnod Hal Hin Hrow Hpb Hij].
    split; rewrite ?Hc1, ?Hh1, ?Ht1; try done.
    - intros k e. rewrite lookup_fmap. intros He.
      apply fmap_Some in He as (e0 & He0 & ->). simpl. by apply (Hin k).
    - intros k e. rewrite lookup_fmap. intros He.
      apply fmap_Some in He as (e0 & He0 & ->). simpl. by apply (Hrow k).
    - intros k e. rewrite lookup_fmap. intros He.
      apply fmap_Some in He as (e0 & He0 & ->). simpl. by apply (Hpb k).
    - intros k1 k2 e1 e2. rewrite !lookup_fmap. intros H1 H2.
      apply fmap_Some in H1 as (e1' & H1 & ->).
      apply fmap_Some in H2 as (e2' & H2 & ->). simpl. by apply (Hij _ _ _ _ H1 H2). }
  apply runs_bind.
  eapply runs_conseq.
  { apply (runs_for_rows (λ _ _ fr w', well_formed items d fr w')); [exact HI1|].
    intros k j fr w2 Hwf. eapply runs_conseq; [apply Hbody|].
    intros fr' w3 (nd & Hstep). simpl. by eapply row_step_well_formed. }
  intros fr w2 (_ & [Hh Hs Hnod Hal Hin Hrow Hpb Hij]).
  unfold container_appendFragment. apply runs_modify.
  split; simpl; rewrite ?app_nil_r; try done.
  destruct (children w2); [done|]. done.
Qed.

(** * The constructor *)

Lemma well_formed_same items d fr w w' :
  length (heap w') = length (heap w) → children w' = children w →
  itemsInContainer w' = itemsInContainer w →
  well_formed items d fr w → well_formed items d fr w'.
Proof.
  intros Hh Hc Ht [? ? ? ? ? ? ? ?]. split; rewrite ?Hh, ?Hc, ?Ht; done.
Qed.

Lemma createScroller_eq h w :
  ∃ e, createScroller h w = (Ok (length (heap w)), with_heap (λ hp, hp ++ [e]) w).
Proof.
  destruct w. unfold createScroller, set_position, set_top, set_height, set_css_height, classList_add,
    update, createElement, bind, modify, ret, with_heap. simpl.
  rewrite !alter_new. by eexists.
Qed.

Lemma createContainer_eq h w :
  ∃ e, createContainer h w = (Ok (length (heap w)), with_heap (λ hp, hp ++ [e]) w).
Proof.
  destruct w; unfold createContainer, set_position, set_css_height, classList_add,
    update, createElement, bind, modify, ret, with_heap; simpl;
    rewrite !alter_new; by eexists.
Qed.

Lemma runs_eq {A} (m : M A) w a w' (Q : A → world → Prop) :
  m w = (Ok a, w') → Q a w' → runs m w Q.
Proof. intros Hm HQ. by exists a, w'. Qed.

(** The constructor of [src/vlist.js] up to its call of [_renderChunk], and
    after it. *)
Lemma vlist_new_runs cfg dom0 (Q : world → Prop) :
  (∀ w1, length (heap w1) = (length dom0 + 2)%nat →
         children w1 = [length dom0] →
         itemsInContainer w1 = ∅ →
         control w1 = (None, 0, false) → planned w1 = [] → produced w1 = [] →
         runs (VList._renderChunk (VList.instance cfg (S (length dom0))) 0) w1
              (λ _ w2, Q w2)) →
  runs (VList.VirtualList cfg) (fresh_world dom0) (λ this w',
    this = VList.instance cfg (S (length dom0))
    ∧ ∃ w2, Q w2 ∧ w' = with_lastScrolled 0 (with_lastRepaintY None w2)).
Proof.
  intros HQ. unfold VList.VirtualList.
  apply runs_bind, runs_modify, runs_bind.
  match goal with |- runs (createScroller ?h) ?w _ =>
    destruct (createScroller_eq h w) as [e1 He1] end.
  eapply runs_eq; [exact He1|]. apply runs_bind.
  match goal with |- runs (createContainer ?h) ?w _ =>
    destruct (createContainer_eq h w) as [e2 He2] end.
  eapply runs_eq; [exact He2|].
  unfold container_appendChild. step_runs. simpl.
  rewrite length_app. simpl. rewrite Nat.add_1_r.
  eapply runs_conseq.
  { apply HQ; simpl; rewrite ?length_app; simpl; try done. lia. }
  intros ? w2 HQ2. step_runs. split; [done|]. by exists w2.
Qed.

(** * Scroll signals *)

Lemma vlist_instance_factory_ok cfg c :
  items_plain (items_of cfg) →
  factory_ok (VList.items (VList.instance cfg c)) (VList.generatorFn (VList.instance cfg c)).
Proof. intros Hp. by apply vlist_default_factory_ok. Qed.

Lemma throttled_instance_factory_ok cfg c :
  items_plain (items_of cfg) →
  factory_ok (Throttled.items (Throttled.instance cfg c))
             (throttled_factory (Throttled.instance cfg c)).
Proof. intros Hp. by apply throttled_default_factory_ok. Qed.

Lemma bufferSize_code cfg :
  or_else (cfg_itemBuffer cfg) (ceil_div (cfg_h cfg) (cfg_itemHeight cfg) * 3)
  = bufferSize cfg.
Proof. unfold bufferSize, visibleCount. f_equal. lia. Qed.

(** A rendering by either variant's instance. *)
Lemma renderChunk_spec v cfg c from w :
  items_plain (items_of cfg) →
  runs (match v with
        | Polling => VList._renderChunk (VList.instance cfg c) from
        | Throttling => Throttled._renderChunk (Throttled.instance cfg c) from
        end) w (λ _ w',
    rendered (items_of cfg) from (finalItem (rowCount cfg) (bufferSize cfg) from) w w'
    ∧ control w' = control w
    ∧ (∀ d, prebuilt_ok d (items_of cfg) →
            Inv (items_of cfg) d w → Inv (items_of cfg) d w')).
Proof.
  intros Hp. rewrite <-bufferSize_code. destruct v.
  - rewrite vlist_renderChunk_shape.
    pose proof (vlist_steps_rows _ (vlist_instance_factory_ok cfg c Hp)) as Hb.
    destruct (render_table _ (rowCount cfg)
                (or_else (cfg_itemBuffer cfg) (ceil_div (cfg_h cfg) (cfg_itemHeight cfg) * 3))
                _ from w Hb) as (a & w' & Heq & Hr & Hc).
    eapply runs_eq; [exact Heq|]. split_and!; [done..|].
    intros d Hpre HI.
    exact (runs_result _ _ _ _ _ (render_Inv _ d _ _ _ from w Hb Hpre HI) Heq).
  - rewrite throttled_renderChunk_shape.
    pose proof (throttled_steps_rows _ (throttled_instance_factory_ok cfg c Hp)) as Hb.
    destruct (render_table _ (rowCount cfg)
                (or_else (cfg_itemBuffer cfg) (ceil_div (cfg_h cfg) (cfg_itemHeight cfg) * 3))
                _ from w Hb) as (a & w' & Heq & Hr & Hc).
    eapply runs_eq; [exact Heq|]. split_and!; [done..|].
    intros d Hpre HI.
    exact (runs_result _ _ _ _ _ (render_Inv _ d _ _ _ from w Hb Hpre HI) Heq).
Qed.

Lemma rendered_same items from fin w w1 w2 :
  heap w2 = heap w1 → children w2 = children w1 →
  itemsInContainer w2 = itemsInContainer w1 →
  planned w2 = planned w1 → produced w2 = produced w1 →
  rendered items from fin w w1 → rendered items from fin w w2.
Proof.
  intros Hh Hc Ht Hp Hq [? ? ? ? ? ? ?].
  split; rewrite ?Hh, ?Hc, ?Ht, ?Hp, ?Hq; done.
Qed.

(** A scroll signal that re-plans. *)
Lemma scroll_due v cfg c s now w :
  items_plain (items_of cfg) →
  repaint_due (spec_maxBuffer cfg) (lastRepaintY w) s = true →
  let from := chunk_start (cfg_itemHeight cfg) (visibleCount cfg) s in
  let w' := step v cfg c (Scroll s now) w in
  rendered (items_of cfg) from (finalItem (rowCount cfg) (bufferSize cfg) from) w w'
  ∧ lastRepaintY w' = Some s ∧ lastScrolled w' = now
  ∧ (∀ d, prebuilt_ok d (items_of cfg) →
          Inv (items_of cfg) d w → Inv (items_of cfg) d w').
Proof.
  intros Hp Hdue from w'. subst w'.
  destruct (renderChunk_spec v cfg c from w Hp) as (a & w1 & Heq & Hr & Hc & HI).
  destruct v; unfold step, VList.step, Throttled.step.
  - by_handler.
    unfold VList.onScroll. apply runs_bind, runs_get.
    change (VList.maxBuffer (VList.instance cfg c)) with (spec_maxBuffer cfg).
    rewrite Hdue. apply runs_bind, runs_bind.
    eapply runs_eq; [exact Heq|]. step_runs.
    split_and!; try done.
    + eapply rendered_same; [..|exact Hr]; done.
    + intros d Hpre HIw. eapply well_formed_same; [..|exact (HI d Hpre HIw)]; done.
  - by_handler.
    unfold Throttled.onScroll, Throttled.throttledRmNode. apply runs_bind, runs_get.
    change (Throttled.maxBuffer (Throttled.instance cfg c)) with (spec_maxBuffer cfg).
    rewrite Hdue. apply runs_bind, runs_bind.
    eapply runs_eq; [exact Heq|]. step_runs.
    split_and!; try done.
    + eapply rendered_same; [..|exact Hr]; done.
    + intros d Hpre HIw. eapply well_formed_same; [..|exact (HI d Hpre HIw)]; done.
Qed.

(** A scroll signal within the threshold only records its time. *)
Lemma scroll_idle v cfg c s now w :
  repaint_due (spec_maxBuffer cfg) (lastRepaintY w) s = false →
  step v cfg c (Scroll s now) w = with_lastScrolled now w.
Proof.
  intros Hdue.
  destruct v; unfold step, VList.step, Throttled.step, handle,
    VList.onScroll, Throttled.onScroll, bind, get.
  - change (VList.maxBuffer (VList.instance cfg c)) with (spec_maxBuffer cfg).
    by rewrite Hdue.
  - change (Throttled.maxBuffer (Throttled.instance cfg c)) with (spec_maxBuffer cfg).
    by rewrite Hdue.
Qed.

Lemma parseInt_positional a b :
  positional a b → parseInt_quotient a b = Z.quot a b.
Proof.
  intros [Hsmall Hbig]. unfold parseInt_quotient.
  destruct (Z.eqb_spec (Z.abs a) 0) as [H0|H0].
  { assert (a = 0) as -> by lia. by destruct b. }
  destruct (Z.ltb_spec (Z.abs a * 10 ^ 6) (Z.abs b)); [lia|].
  destruct (Z.leb_spec (Z.abs b * 10 ^ 21) (Z.abs a)); [lia|]. done.
Qed.

(** Below 1e-6 the result is a digit from 1 to 9, whatever the quotient. *)
Lemma first_digit_below_range fuel n d :
  0 < n < d → d ≤ 10 ^ Z.of_nat fuel * n →
  1 ≤ first_digit_below fuel n d ≤ 9.
Proof.
  revert n. induction fuel as [|fuel IH]; intros n Hn Hd.
  { simpl in Hd. lia. }
  cbn [first_digit_below]. destruct (Z.leb_spec d (10 * n)) as [Hle|Hgt].
  - split.
    + apply Z.div_le_lower_bound; lia.
    + assert ((10 * n) `div` d < 10); [|lia]. apply Z.div_lt_upper_bound; lia.
  - apply IH; [lia|].
    rewrite Nat2Z.inj_succ, Z.pow_succ_r in Hd by lia. lia.
Qed.

Lemma parseInt_tiny a b :
  0 < a → a * 10 ^ 6 < b → 1 ≤ parseInt_quotient a b ≤ 9.
Proof.
  intros Ha Hb.
  assert (H6 : 10 ^ 6 = 1000000) by reflexivity.
  unfold parseInt_quotient.
  destruct (Z.eqb_spec (Z.abs a) 0); [lia|].
  destruct (Z.ltb_spec (Z.abs a * 10 ^ 6) (Z.abs b)); [|lia].
  rewrite (Z.sgn_pos a), (Z.sgn_pos b), (Z.abs_eq a), (Z.abs_eq b) by lia.
  rewrite !Z.mul_1_l. apply first_digit_below_range; [lia|].
  rewrite Nat2Z.inj_succ, Z2Nat.id by apply Z.log2_nonneg.
  assert (Hlog : b < 2 ^ Z.succ (Z.log2 b)) by (apply Z.log2_spec; lia).
  assert (Hpow : 2 ^ Z.succ (Z.log2 b) ≤ 10 ^ Z.succ (Z.log2 b)).
  { apply Z.pow_le_mono_l. lia. }
  nia.
Qed.

Lemma chunk_start_spec cfg s :
  0 < cfg_itemHeight cfg → 0 ≤ s → positional s (cfg_itemHeight cfg) →
  chunk_start (cfg_itemHeight cfg) (visibleCount cfg) s = spec_first cfg s.
Proof.
  intros Hih Hs Hpos. unfold chunk_start, spec_first.
  rewrite parseInt_positional by done.
  rewrite Z.quot_div_nonneg by lia.
  destruct (Z.ltb_spec (s / cfg_itemHeight cfg - visibleCount cfg) 0); lia.
Qed.

Lemma finalItem_spec cfg first :
  finalItem (rowCount cfg) (bufferSize cfg) first = spec_last cfg first.
Proof.
  unfold finalItem, spec_last.
  destruct (Z.ltb_spec (rowCount cfg) (first + bufferSize cfg)); lia.
Qed.

Lemma rendered_active items from fin w w' i :
  rendered items from fin w w' → is_active w' i ↔ from ≤ i < fin.
Proof.
  intros Hr. unfold is_active. split.
  - intros Ha. destruct (decide (from ≤ i < fin)) as [|Hn]; [done|].
    rewrite (rd_out _ _ _ _ _ Hr) in Ha by done.
    by destruct (itemsInContainer w !! i).
  - intros Hi. destruct (rd_in _ _ _ _ _ Hr i Hi) as (nd & -> & _). done.
Qed.


(** * Reclamation *)

Lemma active_only_lookup (t : gmap Z entry) k :
  active_only t !! k
  = match t !! k with
    | Some e => if decide (e_status e = Active) then Some e else None
    | None => None
    end.
Proof.
  unfold active_only. rewrite map_lookup_filter.
  destruct (t !! k) as [e|]; simpl; [|done].
  case_guard; simpl in *; repeat case_decide; done.
Qed.

Lemma status_cases (s : status) : s = Stale ∨ s = Active.
Proof. destruct s; auto. Qed.

(** The sweep of [src/vlist.js], in a world that satisfies the invariant. *)
Lemma vlist_sweep_runs this now items d w :
  Inv items d w → 100 < now - lastScrolled w →
  runs (VList.rmNodeInterval this now) w (λ _ w',
    itemsInContainer w' = active_only (itemsInContainer w)
    ∧ (∀ n, n ∈ children w' ↔ n ∈ children w ∧ ¬ stale_node w n)
    ∧ NoDup (children w')
    ∧ head (children w') = Some d
    ∧ (length (children w') ≤ length (children w))%nat
    ∧ length (heap w') = length (heap w)
    ∧ control w' = control w
    ∧ planned w' = planned w ∧ produced w' = produced w).
Proof.
  unfold Inv. intros [Hh Hs Hnod Hal Hin Hrow Hpb Hij] Hnow.
  rewrite app_nil_r in Hnod. setoid_rewrite app_nil_r in Hin.
  unfold VList.rmNodeInterval. apply runs_bind, runs_get.
  destruct (Z.ltb_spec 100 (now - lastScrolled w)) as [_|?]; [|lia].
  set (t0 := itemsInContainer w).
  set (stale0 := λ k : Z, e_status <$> t0 !! k = Some Stale).
  eapply runs_conseq.
  - apply (runs_forEach (λ rest w1,
      NoDup rest
      ∧ (∀ k, k ∈ rest → stale0 k)
      ∧ (∀ k, itemsInContainer w1 !! k
              = if decide (stale0 k ∧ k ∉ rest) then None else t0 !! k)
      ∧ (∀ n, n ∈ children w1 ↔
              n ∈ children w
              ∧ ∀ k e, k ∉ rest → t0 !! k = Some e → e_status e = Stale → e_node e ≠ n)
      ∧ NoDup (children w1)
      ∧ head (children w1) = Some d
      ∧ (length (children w1) ≤ length (children w))%nat
      ∧ length (heap w1) = length (heap w)
      ∧ control w1 = control w
      ∧ planned w1 = planned w ∧ produced w1 = produced w)).
    + assert (Hmem : ∀ k, k ∈ filter (λ index, e_status <$> t0 !! index = Some Stale)
                                     (Object_keys t0) ↔ stale0 k).
      { intros k. rewrite list_elem_of_filter, Object_keys_spec. unfold stale0.
        split; [tauto|]. intros Hk. split; [done|].
        destruct (t0 !! k); [by eexists | done]. }
      split_and!; try done.
      * apply NoDup_filter, Object_keys_NoDup.
      * intros k Hk. by apply Hmem.
      * intros k. destruct (decide _) as [[Hk Hn]|]; [|done].
        by apply Hmem in Hk.
      * intros n. split; [|tauto]. intros Hn. split; [done|].
        intros k e Hk He Hst. destruct Hk. apply Hmem. unfold stale0.
        by rewrite He, <-Hst.
    + intros x rest w1
        (Hnd & Hst & Ht & Hch & Hnd1 & Hhd & Hlen & Hhp & Hctl & Hp & Hq).
      apply NoDup_cons in Hnd as [Hx Hnd].
      assert (∃ e, t0 !! x = Some e ∧ e_status e = Stale) as (e & He & Hes).
      { specialize (Hst x (list_elem_of_here _ _)). unfold stale0 in Hst.
        destruct (t0 !! x) as [e|]; [|done]. exists e. split; [done|].
        simpl in Hst. congruence. }
      apply runs_bind, runs_get. rewrite Ht.
      destruct (decide (stale0 x ∧ x ∉ x :: rest)) as [[_ Hn]|_].
      { destruct Hn. by left. }
      rewrite He. unfold container_removeChild.
      apply runs_bind, runs_bind, runs_get.
      destruct (decide (e_node e ∈ children w1)) as [Hmem|Hmem].
      2:{ destruct Hmem. apply Hch. split; [by apply (Hin x)|].
          intros k e' Hk He' _ Heq. apply Hk.
          rewrite (Hij k x e' e He' He Heq). by left. }
      unfold set_display, update. step_runs. simpl.
      split_and!; try done.
      * intros k Hk. apply Hst. by right.
      * intros k. destruct (decide (k = x)) as [->|Hne].
        -- rewrite lookup_delete_eq. destruct (decide _) as [|Hn]; [done|].
           destruct Hn. split; [|done]. apply Hst. by left.
        -- rewrite lookup_delete_ne, Ht by done.
           destruct (decide (stale0 k ∧ k ∉ x :: rest)) as [[? Hn]|Hn],
                    (decide (stale0 k ∧ k ∉ rest)) as [[? Hn']|Hn']; try done.
           ++ destruct Hn'. split; [done|]. intros ?. apply Hn. by right.
           ++ destruct Hn. split; [done|]. intros [?|?]%elem_of_cons; done.
      * intros n. rewrite elem_of_detach, Hch. split.
        -- intros (Hne & Hn & Hall). split; [done|].
           intros k e' Hk He' Hst'. destruct (decide (k = x)) as [->|Hkx].
           ++ rewrite He in He'. injection He' as <-. done.
           ++ apply (Hall k e'); try done. intros [?|?]%elem_of_cons; done.
        -- intros (Hn & Hall). split_and!; [|done|].
           ++ intros ->. by apply (Hall x e).
           ++ intros k e' Hk. apply Hall. intros ?. apply Hk. by right.
      * by apply detach_NoDup.
      * apply detach_head; [|done]. by apply (Hrow x).
      * pose proof (length_detach (e_node e) (children w1)). lia.
      * by rewrite length_alter.
  - intros ? w' (_ & _ & Ht & Hch & Hnd1 & Hhd & Hlen & Hhp & Hctl & Hp & Hq).
    split_and!; try done.
    + apply map_eq. intros k. rewrite Ht, active_only_lookup. fold t0.
      case_decide as Hd.
      * destruct Hd as [Hd _]. unfold stale0 in Hd.
        destruct (t0 !! k) as [e|]; [|done]. simpl in Hd. injection Hd as Hd.
        rewrite decide_False; [done|congruence].
      * destruct (t0 !! k) as [e|] eqn:He; [|done].
        rewrite decide_True; [done|].
        destruct (status_cases (e_status e)) as [Hse|Hse]; [|done].
        destruct Hd. split; [|apply not_elem_of_nil].
        unfold stale0. rewrite He. simpl. by rewrite Hse.
    + intros n. rewrite Hch. split.
      * intros [Hn Hall]. split; [done|]. intros (k & e & He & Hst & Heq).
        by apply (Hall k e (not_elem_of_nil _)).
      * intros [Hn Hall]. split; [done|]. intros k e _ He Hst Heq.
        apply Hall. by exists k, e.
Qed.

Lemma keep_active_lookup (t0 : gmap Z entry) ks (acc : gmap Z entry) k :
  foldl (Throttled.keep_active t0) acc ks !! k
  = match t0 !! k with
    | Some e => if decide (k ∈ ks ∧ e_status e = Active) then Some e else acc !! k
    | None => acc !! k
    end.
Proof.
  revert acc. induction ks as [|x ks IH]; intros acc; simpl.
  - destruct (t0 !! k) as [e|]; [|done].
    destruct (decide (k ∈ [] ∧ e_status e = Active)) as [[[]%elem_of_nil _]|]; done.
  - rewrite IH.
    assert (Hacc : k ≠ x → Throttled.keep_active t0 acc x !! k = acc !! k).
    { intros Hne. unfold Throttled.keep_active. destruct (t0 !! x) as [ex|]; [|done].
      destruct (decide _); [by rewrite lookup_insert_ne|done]. }
    destruct (t0 !! k) as [e|] eqn:He.
    + destruct (decide (k ∈ ks ∧ e_status e = Active)) as [[Hk Ha]|Hn].
      * rewrite decide_True; [done|]. split; [by right|done].
      * destruct (decide (k = x)) as [->|Hne].
        -- unfold Throttled.keep_active. rewrite He.
           destruct (decide (e_status e = Active)) as [Ha|Ha].
           ++ rewrite lookup_insert_eq. rewrite decide_True; [done|].
              split; [by left|done].
           ++ rewrite decide_False; [done|]. by intros [_ ?].
        -- rewrite Hacc by done. rewrite decide_False; [done|].
           intros [[?|?]%elem_of_cons ?]; [done|]. by apply Hn.
    + destruct (decide (k = x)) as [->|Hne]; [|by apply Hacc].
      unfold Throttled.keep_active. by rewrite He.
Qed.

Lemma keep_active_spec (t0 : gmap Z entry) :
  foldl (Throttled.keep_active t0) ∅ (Object_keys t0) = active_only t0.
Proof.
  apply map_eq. intros k. rewrite keep_active_lookup, active_only_lookup.
  destruct (t0 !! k) as [e|] eqn:He; [|done].
  destruct (decide (e_status e = Active)) as [Ha|Ha].
  - rewrite decide_True; [done|]. split; [|done].
    apply Object_keys_spec. by rewrite He.
  - rewrite decide_False; [done|]. by intros [_ ?].
Qed.

Lemma removelast_long (c : list node_id) :
  (1 < length c)%nat →
  take 1 (removelast c) = take 1 c ∧ length (removelast c) = pred (length c).
Proof.
  intros Hlen. rewrite removelast_firstn_len. split.
  - rewrite take_take. f_equal. lia.
  - rewrite length_take. lia.
Qed.

Lemma remove_all_but_first_spec fuel w :
  (length (children w) ≤ S fuel)%nat →
  Throttled.remove_all_but_first fuel w = (Ok tt, with_children (take 1) w).
Proof.
  revert w. induction fuel as [|fuel IH]; intros w Hlen.
  - simpl. unfold ret. f_equal. destruct w as [hp c t y ls p pl pr].
    unfold with_children; simpl in *. f_equal. symmetry. by apply take_ge.
  - simpl. unfold bind, get, modify.
    destruct (decide (1 < length (children w))%nat) as [Hgt|Hle].
    + destruct w as [hp c t y ls p pl pr]. simpl in *.
      destruct (removelast_long c Hgt) as [Htk Hl].
      rewrite IH by (simpl; rewrite Hl; lia).
      unfold with_children. simpl. by rewrite Htk.
    + unfold ret. f_equal. destruct w as [hp c t y ls p pl pr].
      unfold with_children; simpl in *. f_equal. symmetry. apply take_ge. lia.
Qed.

(** The sweep of the unnamed variant, in a world that satisfies the
    invariant. *)
Lemma throttled_sweep_runs this now items d w :
  Inv items d w → 100 < now - lastScrolled w →
  runs (Throttled.rmNode this now) w (λ _ w',
    itemsInContainer w' = active_only (itemsInContainer w)
    ∧ (∀ n, n ∈ children w' ↔ n = d ∨ active_node w n)
    ∧ NoDup (children w')
    ∧ head (children w') = Some d
    ∧ (length (children w') ≤ length (children w))%nat
    ∧ length (heap w') = length (heap w)
    ∧ control w' = control w
    ∧ planned w' = planned w ∧ produced w' = produced w).
Proof.
  unfold Inv. intros [Hh Hs Hnod Hal Hin Hrow Hpb Hij] Hnow.
  rewrite app_nil_r in Hnod. setoid_rewrite app_nil_r in Hin.
  unfold Throttled.rmNode. apply runs_bind, runs_get.
  destruct (Z.ltb_spec 100 (now - lastScrolled w)) as [_|?]; [|lia].
  apply runs_bind, runs_modify, runs_bind, runs_get, runs_bind.
  eapply runs_eq; [apply remove_all_but_first_spec; simpl; lia|].
  apply runs_bind, runs_get. simpl. rewrite keep_active_spec.
  set (t0 := itemsInContainer w) in *. set (t1 := active_only t0).
  assert (Hsub : ∀ k e, t1 !! k = Some e → t0 !! k = Some e ∧ e_status e = Active).
  { intros k e. unfold t1. rewrite active_only_lookup.
    destruct (t0 !! k) as [e'|]; [|done]. case_decide; [|done].
    by intros [= <-]. }
  assert (Hsup : ∀ k e, t0 !! k = Some e → e_status e = Active → t1 !! k = Some e).
  { intros k e He Ha. unfold t1. rewrite active_only_lookup, He. by rewrite decide_True. }
  apply head_Some in Hs as [rest Hc].
  eapply runs_conseq.
  - apply (runs_forEach (λ rest w1,
      NoDup rest
      ∧ (∀ k, k ∈ rest → is_Some (t1 !! k))
      ∧ itemsInContainer w1 = t1
      ∧ (∀ n, n ∈ children w1 ↔
              n = d ∨ ∃ k e, (k ∉ rest) ∧ t1 !! k = Some e ∧ e_node e = n)
      ∧ NoDup (children w1)
      ∧ head (children w1) = Some d
      ∧ length (heap w1) = length (heap w)
      ∧ control w1 = control w
      ∧ planned w1 = planned w ∧ produced w1 = produced w)).
    + simpl. rewrite Hc. simpl. split_and!; try done.
      * apply Object_keys_NoDup.
      * intros k Hk. by apply Object_keys_spec.
      * apply keep_active_spec.
      * intros n. rewrite list_elem_of_singleton. split; [by left|].
        intros [?|(k & e & Hk & He & _)]; [done|].
        destruct Hk. apply Object_keys_spec. by rewrite He.
      * apply NoDup_singleton.
    + intros x rest' w1 (Hnk & Hks & Ht & Hch & Hnd1 & Hhd & Hhp & Hctl & Hp & Hq).
      apply NoDup_cons in Hnk as [Hx Hnk].
      apply runs_bind, runs_get. rewrite Ht.
      destruct (Hks x (list_elem_of_here _ _)) as [e He]. rewrite He.
      unfold container_appendChild. apply runs_modify. simpl.
      destruct (Hsub _ _ He) as [He0 Hact].
      assert (Hned : e_node e ≠ d) by (by apply (Hrow x)).
      split_and!; try done.
      * intros k Hk. apply Hks. by right.
      * intros n. rewrite elem_of_app, elem_of_detach, list_elem_of_singleton, Hch.
        split.
        -- intros [[Hne [?|(k & e' & Hk & He' & Heq)]]| ->]; [by left|..].
           ++ right. exists k, e'. split_and!; try done.
              intros ?. apply Hk. by right.
           ++ right. by exists x, e.
        -- intros [->|(k & e' & Hk & He' & Heq)].
           ++ left. split; [done|]. by left.
           ++ destruct (decide (n = e_node e)) as [|Hne]; [by right|].
              left. split; [done|]. right. exists k, e'. split_and!; try done.
              intros [->|?]%elem_of_cons; [|done].
              rewrite He in He'. injection He' as <-. done.
      * apply NoDup_app. split_and!.
        -- by apply detach_NoDup.
        -- intros n [Hn _]%elem_of_detach ->%list_elem_of_singleton. done.
        -- apply NoDup_singleton.
      * apply (detach_head (e_node e)) in Hhd; [|done].
        apply head_Some in Hhd as [l' ->]. done.
  - intros ? w' (_ & _ & Ht & Hch & Hnd1 & Hhd & Hhp & Hctl & Hp & Hq).
    assert (Hmem : ∀ n, n ∈ children w' ↔ n = d ∨ active_node w n).
    { intros n. rewrite Hch. split.
      - intros [?|(k & e & _ & He & Heq)]; [by left|]. right.
        destruct (Hsub _ _ He) as [He0 Ha]. by exists k, e.
      - intros [?|(k & e & He & Ha & Heq)]; [by left|]. right.
        exists k, e. split_and!; [apply not_elem_of_nil|by apply Hsup|done]. }
    split_and!; try done.
    apply submseteq_length, NoDup_submseteq; [done|].
    intros n [->|(k & e & He & _ & <-)]%Hmem.
    + rewrite Hc. by left.
    + by apply (Hin k).
Qed.

Lemma stale_not_active items d w n :
  Inv items d w → stale_node w n → active_node w n → False.
Proof.
  intros HI (k1 & e1 & H1 & Hs & <-) (k2 & e2 & H2 & Ha & Heq).
  pose proof (wf_inj _ _ _ _ HI _ _ _ _ H2 H1 Heq) as ->.
  rewrite H1 in H2. injection H2 as <-. congruence.
Qed.

(** A sweep after scrolling has settled, for either variant. *)
Lemma sweep_acts v cfg c now items d w :
  Inv items d w → 100 < now - lastScrolled w →
  let w' := sweep v cfg c now w in
  itemsInContainer w' = active_only (itemsInContainer w)
  ∧ (∀ n, stale_node w n → n ∉ children w')
  ∧ (∀ n, active_node w n → n ∈ children w')
  ∧ (∀ n, n ∈ children w' → n ∈ children w)
  ∧ (length (children w') ≤ length (children w))%nat
  ∧ Inv items d w'
  ∧ control w' = control w
  ∧ planned w' = planned w ∧ produced w' = produced w.
Proof.
  intros HI Hnow w'. subst w'. unfold sweep.
  assert (Hin : ∀ n, active_node w n → n ∈ children w).
  { intros n (k & e & He & _ & <-).
    pose proof (wf_in _ _ _ _ HI _ _ He) as H. by rewrite app_nil_r in H. }
  assert (Hnd : ∀ n, active_node w n → n ≠ d).
  { intros n (k & e & He & _ & <-). by apply (wf_row _ _ _ _ HI k). }
  assert (Hall : ∀ w',
    itemsInContainer w' = active_only (itemsInContainer w) →
    (∀ n, stale_node w n → n ∉ children w') →
    (∀ n, active_node w n → n ∈ children w') →
    (∀ n, n ∈ children w' → n ∈ children w) →
    NoDup (children w') → head (children w') = Some d →
    length (heap w') = length (heap w) →
    Inv items d w').
  { intros w' Ht Hst Hac Hsub Hnod Hhd Hhp.
    assert (Hold : ∀ k e, itemsInContainer w' !! k = Some e →
                          itemsInContainer w !! k = Some e ∧ e_status e = Active).
    { intros k e. rewrite Ht, active_only_lookup.
      destruct (itemsInContainer w !! k) as [e'|]; [|done].
      case_decide; [|done]. by intros [= <-]. }
    destruct HI as [Hh Hs Hnod0 Hal Hin0 Hrow Hpb Hij].
    split; rewrite ?app_nil_r, ?Hhp; try done.
    - intros n Hn. apply Hal. rewrite app_nil_r. by apply Hsub.
    - intros k e He. destruct (Hold _ _ He) as [He0 Ha].
      apply Hac. by exists k, e.
    - intros k e He. destruct (Hold _ _ He) as [He0 _]. by apply (Hrow k).
    - intros k e He. destruct (Hold _ _ He) as [He0 _]. by apply (Hpb k).
    - intros k1 k2 e1 e2 H1 H2.
      destruct (Hold _ _ H1) as [H1' _], (Hold _ _ H2) as [H2' _].
      by apply (Hij _ _ _ _ H1' H2'). }
  destruct v; by_handler.
  - eapply runs_conseq; [by apply (vlist_sweep_runs _ now items d w)|].
    intros ? w' (Ht & Hch & Hnod & Hhd & Hlen & Hhp & Hctl & Hp & Hq).
    assert (Hst : ∀ n, stale_node w n → n ∉ children w').
    { intros n Hn Hin'. by apply Hch in Hin' as [_ ?]. }
    assert (Hac : ∀ n, active_node w n → n ∈ children w').
    { intros n Hn. apply Hch. split; [by apply Hin|].
      intros Hs. by apply (stale_not_active items d w n). }
    assert (Hsub : ∀ n, n ∈ children w' → n ∈ children w).
    { intros n Hn. by apply Hch in Hn as [? _]. }
    split_and!; try done. by apply Hall.
  - eapply runs_conseq; [by apply (throttled_sweep_runs _ now items d w)|].
    intros ? w' (Ht & Hch & Hnod & Hhd & Hlen & Hhp & Hctl & Hp & Hq).
    assert (Hst : ∀ n, stale_node w n → n ∉ children w').
    { intros n Hn Hin'. apply Hch in Hin' as [->|Ha].
      - destruct Hn as (k & e & He & _ & Heq). by apply (wf_row _ _ _ _ HI k e).
      - by apply (stale_not_active items d w n). }
    assert (Hac : ∀ n, active_node w n → n ∈ children w').
    { intros n Hn. apply Hch. by right. }
    assert (Hsub : ∀ n, n ∈ children w' → n ∈ children w).
    { intros n [->|Ha]%Hch; [|by apply Hin].
      apply head_Some_elem_of. by apply (wf_scroller _ _ _ _ HI). }
    split_and!; try done. by apply Hall.
Qed.

(** A sweep while scrolling is going on changes nothing. *)
Lemma sweep_idle v cfg c now w :
  now - lastScrolled w ≤ 100 → sweep v cfg c now w = w.
Proof.
  intros Hnow.
  destruct v; unfold sweep, handle, VList.rmNodeInterval, Throttled.rmNode, bind, get;
    destruct (Z.ltb_spec 100 (now - lastScrolled w)); try lia; done.
Qed.

Lemma active_only_is_active w w' i :
  itemsInContainer w' = active_only (itemsInContainer w) →
  is_active w' i ↔ is_active w i.
Proof.
  intros Ht. unfold is_active. rewrite Ht, active_only_lookup.
  destruct (itemsInContainer w !! i) as [e|]; [|done].
  case_decide as Ha; simpl; [done|]. split; [done|]. intros [= ?]. done.
Qed.

(** The timer signal, for either variant. *)
Lemma tick_step v cfg c now items d w :
  Inv items d w →
  let w' := step v cfg c (Tick now) w in
  Inv items d w'
  ∧ (∀ i, is_active w' i ↔ is_active w i)
  ∧ (length (children w') ≤ length (children w))%nat
  ∧ lastRepaintY w' = lastRepaintY w ∧ lastScrolled w' = lastScrolled w
  ∧ planned w' = planned w ∧ produced w' = produced w.
Proof.
  intros HI w'. subst w'.
  assert (Hsweep : ∀ w1,
    Inv items d w1 →
    Inv items d (sweep v cfg c now w1)
    ∧ (∀ i, is_active (sweep v cfg c now w1) i ↔ is_active w1 i)
    ∧ (length (children (sweep v cfg c now w1)) ≤ length (children w1))%nat
    ∧ control (sweep v cfg c now w1) = control w1
    ∧ planned (sweep v cfg c now w1) = planned w1
    ∧ produced (sweep v cfg c now w1) = produced w1).
  { intros w1 HI1. destruct (Z.le_gt_cases (now - lastScrolled w1) 100) as [Hle|Hgt].
    - by rewrite sweep_idle.
    - destruct (sweep_acts v cfg c now items d w1 HI1) as
        (Ht & _ & _ & _ & Hlen & HI' & Hctl & Hp & Hq); [lia|].
      split_and!; try done. intros i. by apply active_only_is_active. }
  destruct v.
  - change (step Polling cfg c (Tick now) w) with (sweep Polling cfg c now w).
    destruct (Hsweep w HI) as (? & ? & ? & Hctl & ? & ?).
    split_and!; try done; framed.
  - assert (Hstep : step Throttling cfg c (Tick now) w
                    = if rmPending w then sweep Throttling cfg c now (with_rmPending false w)
                      else w).
    { unfold step, Throttled.step, Throttled.timer, handle, bind, get, modify, sweep, handle.
      by destruct (rmPending w). }
    rewrite Hstep. destruct (rmPending w); [|done].
    destruct (Hsweep (with_rmPending false w)) as (? & ? & ? & Hctl & ? & ?).
    { eapply well_formed_same; [..|exact HI]; done. }
    split_and!; try done; framed.
Qed.

(** * Reachable worlds *)

Lemma throttled_new_runs cfg dom0 (Q : world → Prop) :
  (∀ w1, length (heap w1) = (length dom0 + 2)%nat →
         children w1 = [length dom0] →
         itemsInContainer w1 = ∅ →
         control w1 = (None, 0, false) → planned w1 = [] → produced w1 = [] →
         runs (Throttled._renderChunk (Throttled.instance cfg (S (length dom0))) 0) w1
              (λ _ w2, Q w2)) →
  runs (Throttled.VirtualList cfg) (fresh_world dom0) (λ this w',
    this = Throttled.instance cfg (S (length dom0))
    ∧ ∃ w2, Q w2 ∧ w' = with_lastScrolled 0 (with_lastRepaintY None w2)).
Proof.
  intros HQ. unfold Throttled.VirtualList.
  apply runs_bind, runs_modify, runs_bind.
  match goal with |- runs (createScroller ?h) ?w _ =>
    destruct (createScroller_eq h w) as [e1 He1] end.
  eapply runs_eq; [exact He1|]. apply runs_bind.
  match goal with |- runs (createContainer ?h) ?w _ =>
    destruct (createContainer_eq h w) as [e2 He2] end.
  eapply runs_eq; [exact He2|].
  unfold container_appendChild. step_runs. simpl.
  rewrite length_app. simpl. rewrite Nat.add_1_r.
  eapply runs_conseq.
  { apply HQ; simpl; rewrite ?length_app; simpl; try done. lia. }
  intros ? w2 HQ2. step_runs. split; [done|]. by exists w2.
Qed.

Lemma Inv_new items d w :
  length (heap w) = (d + 2)%nat → children w = [d] → itemsInContainer w = ∅ →
  Inv items d w.
Proof.
  intros Hh Hc Ht. split; rewrite ?Hh, ?Hc, ?Ht, ?app_nil_r; try done.
  - apply NoDup_singleton.
  - intros n ->%list_elem_of_singleton. lia.
Qed.

(** What the constructor does, for either variant: the scroller becomes
    the container's only child, then the window from 0 is rendered. *)
Lemma new_runs v cfg dom0 :
  items_plain (items_of cfg) →
  ∃ w1 w2,
    constructed v cfg dom0 (with_lastScrolled 0 (with_lastRepaintY None w2))
    ∧ (∀ w0, constructed v cfg dom0 w0 →
             w0 = with_lastScrolled 0 (with_lastRepaintY None w2))
    ∧ length (heap w1) = (length dom0 + 2)%nat
    ∧ children w1 = [length dom0]
    ∧ itemsInContainer w1 = ∅
    ∧ planned w1 = [] ∧ produced w1 = []
    ∧ rendered (items_of cfg) 0 (finalItem (rowCount cfg) (bufferSize cfg) 0) w1 w2
    ∧ (prebuilt_ok (length dom0) (items_of cfg) →
       Inv (items_of cfg) (length dom0) w2).
Proof.
  intros Hp.
  pose (Q := λ w2 : world, ∃ w1,
    length (heap w1) = (length dom0 + 2)%nat
    ∧ children w1 = [length dom0]
    ∧ itemsInContainer w1 = ∅
    ∧ planned w1 = [] ∧ produced w1 = []
    ∧ rendered (items_of cfg) 0 (finalItem (rowCount cfg) (bufferSize cfg) 0) w1 w2
    ∧ (prebuilt_ok (length dom0) (items_of cfg) →
       Inv (items_of cfg) (length dom0) w2)).
  assert (HQ : ∀ w1, length (heap w1) = (length dom0 + 2)%nat →
         children w1 = [length dom0] →
         itemsInContainer w1 = ∅ →
         control w1 = (None, 0, false) → planned w1 = [] → produced w1 = [] →
         runs (match v with
               | Polling => VList._renderChunk (VList.instance cfg (S (length dom0))) 0
               | Throttling =>
                   Throttled._renderChunk (Throttled.instance cfg (S (length dom0))) 0
               end) w1 (λ _ w2, Q w2)).
  { intros w1 Hh Hc Ht Hctl Hpl Hpr.
    eapply runs_conseq; [by apply renderChunk_spec|].
    intros ? w2 (Hr & _ & HI). exists w1. split_and!; try done.
    intros Hpre. apply HI; [done|]. by apply Inv_new. }
  destruct v.
  - destruct (vlist_new_runs cfg dom0 Q HQ)
      as (this & w0 & Heq & -> & w2 & (w1 & Hw1) & ->).
    exists w1, w2. split_and!; try apply Hw1.
    + by eexists.
    + intros w0 [this Heq']. rewrite Heq in Heq'. by injection Heq' as _ <-.
  - destruct (throttled_new_runs cfg dom0 Q HQ)
      as (this & w0 & Heq & -> & w2 & (w1 & Hw1) & ->).
    exists w1, w2. split_and!; try apply Hw1.
    + by eexists.
    + intros w0 [this Heq']. rewrite Heq in Heq'. by injection Heq' as _ <-.
Qed.

(** The instance a constructor returns. *)
Lemma constructor_returns cfg dom0 :
  items_plain (items_of cfg) →
  (∀ this w0, VList.VirtualList cfg (fresh_world dom0) = (Ok this, w0) →
              this = VList.instance cfg (S (length dom0)))
  ∧ (∀ this w0, Throttled.VirtualList cfg (fresh_world dom0) = (Ok this, w0) →
                this = Throttled.instance cfg (S (length dom0))).
Proof.
  intros Hp. split; intros this w0 Heq.
  - refine (proj1 (runs_result _ _ _ _ _
                     (vlist_new_runs cfg dom0 (λ _, True) _) Heq)).
    intros w1 _ _ _ _ _ _.
    eapply runs_conseq; [by apply (renderChunk_spec Polling)|]. done.
  - refine (proj1 (runs_result _ _ _ _ _
                     (throttled_new_runs cfg dom0 (λ _, True) _) Heq)).
    intros w1 _ _ _ _ _ _.
    eapply runs_conseq; [by apply (renderChunk_spec Throttling)|]. done.
Qed.

(** The invariant holds in every reachable world. *)
Lemma reachable_Inv v cfg dom0 w :
  items_plain (items_of cfg) → prebuilt_ok (length dom0) (items_of cfg) →
  reachable v cfg dom0 w → Inv (items_of cfg) (length dom0) w.
Proof.
  intros Hp Hpre Hr. induction Hr as [w0 Hc|w e Hr IH].
  - destruct (new_runs v cfg dom0 Hp) as (w1 & w2 & _ & Huniq & _ & _ & _ & _ & _ & _ & HI).
    rewrite (Huniq _ Hc). eapply well_formed_same; [..|exact (HI Hpre)]; done.
  - destruct e as [s now|now].
    + destruct (repaint_due (spec_maxBuffer cfg) (lastRepaintY w) s) eqn:Hdue.
      * destruct (scroll_due v cfg (S (length dom0)) s now w Hp Hdue) as (_ & _ & _ & HI).
        by apply HI.
      * rewrite scroll_idle by done. eapply well_formed_same; [..|exact IH]; done.
    + by apply tick_step.
Qed.

Lemma chunk_start_nonneg ih v s : 0 ≤ chunk_start ih v s.
Proof. unfold chunk_start. destruct (Z.ltb_spec (parseInt_quotient s ih - v) 0); lia. Qed.

(** In every reachable world the Active indices are the window rendered
    last. *)
Lemma reachable_window v cfg dom0 w :
  items_plain (items_of cfg) → prebuilt_ok (length dom0) (items_of cfg) →
  reachable v cfg dom0 w → ∃ from, window_is cfg w from.
Proof.
  intros Hp Hpre Hr. induction Hr as [w0 Hc|w e Hr IH].
  - destruct (new_runs v cfg dom0 Hp) as (w1 & w2 & _ & Huniq & _ & _ & _ & _ & _ & Hrd & _).
    rewrite (Huniq _ Hc). rewrite finalItem_spec in Hrd.
    exists 0. split_and!; [|done|].
    + simpl. by rewrite (rd_planned _ _ _ _ _ Hrd).
    + intros i. by apply (rendered_active _ _ _ _ _ _ Hrd).
  - pose proof (reachable_Inv v cfg dom0 w Hp Hpre Hr) as HI.
    destruct IH as (from & Hpl & Hfrom & Hact).
    destruct e as [s now|now].
    + destruct (repaint_due (spec_maxBuffer cfg) (lastRepaintY w) s) eqn:Hdue.
      * destruct (scroll_due v cfg (S (length dom0)) s now w Hp Hdue) as (Hrd & _).
        rewrite finalItem_spec in Hrd.
        exists (chunk_start (cfg_itemHeight cfg) (visibleCount cfg) s). split_and!.
        -- by rewrite (rd_planned _ _ _ _ _ Hrd).
        -- apply chunk_start_nonneg.
        -- intros i. by apply (rendered_active _ _ _ _ _ _ Hrd).
      * rewrite scroll_idle by done. by exists from.
    + destruct (tick_step v cfg (S (length dom0)) now _ _ w HI)
        as (_ & Ha & _ & _ & _ & Hp' & _).
      exists from. split_and!; [by rewrite Hp'|done|].
      intros i. by rewrite Ha.
Qed.

Lemma active_count_interval w from fin :
  (∀ i, is_active w i ↔ from ≤ i < fin) →
  Z.of_nat (active_count w) = Z.max 0 (fin - from).
Proof.
  intros Hact. unfold active_count.
  rewrite <-(size_dom (D := gset Z)).
  assert (Hdom : dom (filter (λ kv : Z * entry, e_status kv.2 = Active) (itemsInContainer w))
                 = (list_to_set (seqZ from (fin - from)) : gset Z)).
  { apply set_eq. intros i.
    rewrite elem_of_list_to_set, elem_of_seqZ, elem_of_dom.
    replace (from + (fin - from)) with fin by lia.
    fold (active_only (itemsInContainer w)). rewrite active_only_lookup.
    specialize (Hact i). unfold is_active in Hact.
    destruct (itemsInContainer w !! i) as [e|]; simpl in *.
    - case_decide as Ha.
      + split; [intros _|by eexists]. apply Hact. by rewrite Ha.
      + split; [by intros [? ?]|]. intros Hi. destruct Ha.
        assert (Some (e_status e) = Some Active) as [= ?] by (apply Hact; lia). done.
    - split; [by intros [? ?]|]. intros Hi.
      assert (@None status = Some Active) by (apply Hact; lia). done. }
  rewrite Hdom, size_list_to_set by apply NoDup_seqZ.
  rewrite length_seqZ. lia.
Qed.

(** * Checking the conditions on concrete items *)

Lemma forallb_elem {A} (f : A → bool) (l : list A) x :
  forallb f l = true → x ∈ l → f x = true.
Proof. rewrite forallb_forall. intros H Hx. apply H. by apply list_elem_of_In. Qed.

Lemma items_plain_check items : forallb plain items = true → items_plain items.
Proof.
  intros Hall i. unfold items_get. destruct (i <? 0); [done|].
  destruct (items !! Z.to_nat i) as [v|] eqn:Hv; [|done]. simpl.
  apply (forallb_elem _ _ v) in Hall; [by destruct v|].
  by eapply list_elem_of_lookup_2.
Qed.

Lemma items_get_node items i n :
  items_get items i = VNode n → 0 ≤ i ∧ items !! Z.to_nat i = Some (VNode n).
Proof.
  unfold items_get. destruct (Z.ltb_spec i 0); [done|].
  destruct (items !! Z.to_nat i) as [v|]; simpl; [|done]. by intros ->.
Qed.

Lemma nodes_distinct items a b n :
  NoDup (omap node_of items) →
  items !! a = Some (VNode n) → items !! b = Some (VNode n) → a = b.
Proof.
  revert a b. induction items as [|v items IH]; intros a b Hnd Ha Hb; [done|].
  assert (Htail : NoDup (omap node_of items)).
  { simpl in Hnd. destruct (node_of v); [by apply NoDup_cons in Hnd as [_ ?]|done]. }
  assert (Hhead : ∀ c, v = VNode n → items !! c = Some (VNode n) → False).
  { intros c -> Hc. simpl in Hnd. apply NoDup_cons in Hnd as [Hn _]. apply Hn.
    apply list_elem_of_omap. exists (VNode n). split; [|done].
    by eapply list_elem_of_lookup_2. }
  destruct a as [|a], b as [|b]; simpl in *.
  - done.
  - injection Ha as ->. by destruct (Hhead b).
  - injection Hb as ->. by destruct (Hhead a).
  - f_equal. by apply IH.
Qed.

Lemma prebuilt_ok_check d items : prebuilt_check d items = true → prebuilt_ok d items.
Proof.
  unfold prebuilt_check. intros [Hlt Hnd]%andb_prop.
  apply bool_decide_eq_true in Hnd. split.
  - intros i n [_ Hi]%items_get_node.
    apply (forallb_elem _ _ n) in Hlt; [by apply Nat.ltb_lt|].
    apply list_elem_of_omap. exists (VNode n). split; [|done].
    by eapply list_elem_of_lookup_2.
  - intros i j n [Hi0 Hi]%items_get_node [Hj0 Hj]%items_get_node.
    pose proof (nodes_distinct _ _ _ _ Hnd Hi Hj). lia.
Qed.

Lemma demo_constructed : constructed Polling demo_cfg demo_dom demo_world.
Proof. exists (VList.instance demo_cfg 2%nat). by vm_compute. Qed.

Lemma small_constructed : constructed Throttling small_cfg [] small_world.
Proof. exists (Throttled.instance small_cfg 1%nat). by vm_compute. Qed.

(** * The properties of the specification *)

Lemma config_ok_check dom0 cfg : config_check dom0 cfg = true → config_ok dom0 cfg.
Proof.
  unfold config_check. intros [[Hih Hp]%andb_prop Hpre]%andb_prop. split_and!.
  - by apply Z.ltb_lt.
  - by apply items_plain_check.
  - by apply prebuilt_ok_check.
Qed.

Lemma demo_config_ok : config_ok demo_dom demo_cfg.
Proof. by apply config_ok_check. Qed.

Lemma small_config_ok : config_ok [] small_cfg.
Proof. by apply config_ok_check. Qed.

Lemma demo_items_plain : items_plain (items_of demo_cfg).
Proof. apply demo_config_ok. Qed.

Lemma demo_prebuilt_ok : prebuilt_ok (length demo_dom) (items_of demo_cfg).
Proof. apply demo_config_ok. Qed.


(** Where JavaScript writes the quotient [s / rowHeight] in positional
    notation, a scroll signal at offset [s] that re-plans leaves exactly
    the indices of [[first, last)] Active, with
    [first = max(0, floor(s / rowHeight) - visibleCount)] and
    [last = min(totalRows, first + bufferSize)], in either variant. *)
Lemma window_when_positional v cfg c s now w :
  items_plain (items_of cfg) →
  0 < cfg_itemHeight cfg → 0 ≤ s → positional s (cfg_itemHeight cfg) →
  repaint_due (spec_maxBuffer cfg) (lastRepaintY w) s = true →
  let first := spec_first cfg s in
  let last := spec_last cfg first in
  (∀ i, is_active (step v cfg c (Scroll s now) w) i ↔ first ≤ i < last)
  ∧ 0 ≤ first ∧ last ≤ rowCount cfg.
Proof.
  intros Hp Hih Hs Hpos Hdue first last.
  destruct (scroll_due v cfg c s now w Hp Hdue) as (Hr & _).
  rewrite chunk_start_spec, finalItem_spec in Hr by done.
  split; [|unfold last, first, spec_last, spec_first; lia].
  intros i. by apply (rendered_active _ _ _ _ _ _ Hr).
Qed.

Lemma tall_items_plain : items_plain (items_of tall_cfg).
Proof. by apply items_plain_check. Qed.

(** C1 fails on the code.  With rows of 2000000 pixels the first scroll
    signal, at offset 1, re-plans; the window of the claim is
    [[max(0, floor(1/2000000) - 1), min(10, 0 + 3)) = [0, 3)], but
    [parseInt] reads the quotient from its string [5e-7] as 5, and the
    handler renders from [5 - 1 = 4]: the rows 4, 5 and 6 are Active,
    and the rows 0, 1 and 2 of the view are Stale, in both variants. *)
Theorem window_misplaced_for_tall_rows :
  ∀ v : variant,
    let w' := step v tall_cfg 1%nat (Scroll 1 10) (tall_world v) in
    repaint_due (spec_maxBuffer tall_cfg) (lastRepaintY (tall_world v)) 1 = true
    ∧ spec_first tall_cfg 1 = 0
    ∧ spec_last tall_cfg (spec_first tall_cfg 1) = 3
    ∧ chunk_start (cfg_itemHeight tall_cfg) (visibleCount tall_cfg) 1 = 4
    ∧ (∀ i, is_active w' i ↔ 4 ≤ i < 7)
    ∧ (∀ i, 0 ≤ i < 3 → e_status <$> itemsInContainer w' !! i = Some Stale).
Proof.
  intros v. cbv zeta.
  assert (Hdue : repaint_due (spec_maxBuffer tall_cfg) (lastRepaintY (tall_world v)) 1
                 = true) by (destruct v; vm_compute; reflexivity).
  destruct (scroll_due v tall_cfg 1%nat 1 10 (tall_world v) tall_items_plain Hdue)
    as (Hr & _).
  assert (E1 : chunk_start (cfg_itemHeight tall_cfg) (visibleCount tall_cfg) 1 = 4)
    by (vm_compute; reflexivity).
  rewrite E1 in Hr.
  assert (E2 : finalItem (rowCount tall_cfg) (bufferSize tall_cfg) 4 = 7)
    by (vm_compute; reflexivity).
  rewrite E2 in Hr.
  split_and!; [exact Hdue|vm_compute; reflexivity|vm_compute; reflexivity|exact E1| |].
  - intros i. by apply (rendered_active _ _ _ _ _ _ Hr).
  - intros i Hi.
    assert (i = 0 ∨ i = 1 ∨ i = 2) as [->|[->| ->]] by lia;
      destruct v; vm_compute; reflexivity.
Qed.

(** C2, as stated, fails: scrolled to the end of the 1000 rows, only the 20
    rows of [[980, 1000)] are Active, not min(30, 1000) = 30. *)
Lemma active_count_short_at_end :
  ¬ (∀ w, reachable Polling demo_cfg demo_dom w →
          Z.of_nat (active_count w) = Z.min (bufferSize demo_cfg) (rowCount demo_cfg)).
Proof.
  intros H.
  specialize (H _ (reach_step _ _ _ _ (Scroll 19800 30)
                     (reach_new _ _ _ _ demo_constructed))).
  vm_compute in H. discriminate.
Qed.

(** C2, amended.  In every reachable world of either variant the Active
    indices are the interval [[first, last)] of the last rendering, with
    [last = min(totalRows, first + bufferSize)]; their number is
    [max(0, last - first)], which never exceeds [min(bufferSize, totalRows)]
    and equals it when [first + bufferSize <= totalRows]. *)
Theorem active_window_invariant (v : variant) (cfg : config) (dom0 : list element)
    (w : world) :
  config_ok dom0 cfg →
  0 ≤ bufferSize cfg → 0 ≤ rowCount cfg →
  reachable v cfg dom0 w →
  ∃ first,
    head (planned w) = Some (first, spec_last cfg first)
    ∧ 0 ≤ first
    ∧ (∀ i, is_active w i ↔ first ≤ i < spec_last cfg first)
    ∧ Z.of_nat (active_count w) = Z.max 0 (spec_last cfg first - first)
    ∧ Z.of_nat (active_count w) ≤ Z.min (bufferSize cfg) (rowCount cfg)
    ∧ (first + bufferSize cfg ≤ rowCount cfg →
       Z.of_nat (active_count w) = Z.min (bufferSize cfg) (rowCount cfg)).
Proof.
  intros (Hih & Hp & Hpre) HB HT Hr.
  destruct (reachable_window v cfg dom0 w Hp Hpre Hr) as (first & Hpl & Hf & Hact).
  exists first. pose proof (active_count_interval w _ _ Hact) as Hcount.
  split_and!; try done; rewrite Hcount; unfold spec_last; lia.
Qed.

Lemma active_window_invariant_witness :
  ∃ first,
    head (planned demo_world) = Some (first, spec_last demo_cfg first)
    ∧ 0 ≤ first
    ∧ (∀ i, is_active demo_world i ↔ first ≤ i < spec_last demo_cfg first)
    ∧ Z.of_nat (active_count demo_world) = Z.max 0 (spec_last demo_cfg first - first)
    ∧ Z.of_nat (active_count demo_world) ≤ Z.min (bufferSize demo_cfg) (rowCount demo_cfg)
    ∧ (first + bufferSize demo_cfg ≤ rowCount demo_cfg →
       Z.of_nat (active_count demo_world)
       = Z.min (bufferSize demo_cfg) (rowCount demo_cfg)).
Proof.
  apply (active_window_invariant Polling demo_cfg demo_dom demo_world).
  - apply demo_config_ok.
  - discriminate.
  - discriminate.
  - apply reach_new, demo_constructed.
Defined.

(** What a re-plan does in a reachable world. *)
Lemma replan_effect v cfg dom0 w s now :
  items_plain (items_of cfg) → prebuilt_ok (length dom0) (items_of cfg) →
  reachable v cfg dom0 w →
  repaint_due (spec_maxBuffer cfg) (lastRepaintY w) s = true →
  let first := chunk_start (cfg_itemHeight cfg) (visibleCount cfg) s in
  let last := spec_last cfg first in
  let w' := step v cfg (S (length dom0)) (Scroll s now) w in
  rendered (items_of cfg) first last w w'
  ∧ calls_between w w' = rev (seqZ first (last - first))
  ∧ (∀ i, first ≤ i < last →
       ∃ nd, itemsInContainer w' !! i = Some (Entry Active nd)
             ∧ nd ∈ children w'
             ∧ (items_get (items_of cfg) i = VNode nd
                ∨ ((nd ∉ children w)
                   ∧ ∀ k e, itemsInContainer w !! k = Some e → e_node e ≠ nd))).
Proof.
  intros Hp Hpre Hr Hdue first last w'.
  pose proof (reachable_Inv v cfg dom0 w Hp Hpre Hr) as HI.
  destruct (scroll_due v cfg (S (length dom0)) s now w Hp Hdue) as (Hrd & _ & _ & HI').
  specialize (HI' _ Hpre HI). rewrite finalItem_spec in Hrd.
  fold first last w' in Hrd, HI'. split_and!; [done|..].
  - unfold calls_between. rewrite (rd_produced _ _ _ _ _ Hrd), length_app.
    replace (length (rev (seqZ first (last - first))) + length (produced w)
             - length (produced w))%nat
      with (length (rev (seqZ first (last - first)))) by lia.
    by rewrite take_app_length.
  - intros i Hi. destruct (rd_in _ _ _ _ _ Hrd i Hi) as (nd & Hnd & Hor).
    exists nd. split_and!; [done|..].
    + pose proof (wf_in _ _ _ _ HI' _ _ Hnd) as H. by rewrite app_nil_r in H.
    + destruct Hor as [[Hge _]|?]; [right|by left]. split.
      * intros Hin. pose proof (wf_alloc _ _ _ _ HI nd) as H.
        rewrite app_nil_r in H. apply H in Hin. lia.
      * intros k e He <-. pose proof (wf_alloc _ _ _ _ HI (e_node e)) as H.
        pose proof (wf_in _ _ _ _ HI _ _ He) as H'. apply H in H'. lia.
Qed.

Lemma demo_reachable : reachable Polling demo_cfg demo_dom demo_world.
Proof. apply reach_new, demo_constructed. Qed.

Lemma demo_window : ∀ i, is_active demo_world i ↔ 0 ≤ i < 30.
Proof.
  destruct (reachable_window Polling demo_cfg demo_dom demo_world
              demo_items_plain demo_prebuilt_ok demo_reachable)
    as (from & Hpl & _ & Hact).
  assert (H : head (planned demo_world) = Some (0, 30)) by (vm_compute; reflexivity).
  rewrite H in Hpl. injection Hpl as <- _. exact Hact.
Qed.

(** C3, as stated, fails: the signal at offset 205 renders the window
    [[0, 30)] that is Active already, yet row 0 gets another node and the
    container gets 29 more children. *)
Lemma replan_same_range_churns :
  let w := demo_world in
  let w' := step Polling demo_cfg 2%nat (Scroll 205 10) w in
  (∀ i, is_active w i ↔ 0 ≤ i < 30)
  ∧ head (planned w) = Some (0, 30) ∧ head (planned w') = Some (0, 30)
  ∧ itemsInContainer w !! 0 = Some (Entry Active 3%nat)
  ∧ itemsInContainer w' !! 0 = Some (Entry Active 32%nat)
  ∧ length (children w) = 31%nat ∧ length (children w') = 60%nat
  ∧ itemsInContainer w' ≠ itemsInContainer w
  ∧ children w' ≠ children w.
Proof.
  cbv zeta. split_and!.
  - apply demo_window.
  - vm_compute. reflexivity.
  - vm_compute. reflexivity.
  - vm_compute. reflexivity.
  - vm_compute. reflexivity.
  - vm_compute. reflexivity.
  - vm_compute. reflexivity.
  - intros Heq. apply (f_equal (λ t : gmap Z entry, t !! 0)) in Heq.
    vm_compute in Heq. discriminate.
  - intros Heq. apply (f_equal length) in Heq.
    vm_compute in Heq. discriminate.
Qed.

(** C4, as stated, fails: row 0 is Active when the signal at offset 205
    arrives, and the row factory is called for it, as for all of
    [[0, 30)]; and row 0, Stale after the signal at offset 3000, gets
    another node than its own when the signal at offset 0 renders it
    again. *)
Lemma factory_called_for_active_rows :
  let w := demo_world in
  let w1 := step Polling demo_cfg 2%nat (Scroll 205 10) w in
  let w2 := step Polling demo_cfg 2%nat (Scroll 3000 20) w1 in
  let w3 := step Polling demo_cfg 2%nat (Scroll 0 30) w2 in
  is_active w 0
  ∧ calls_between w w1 = rev (seqZ 0 30)
  ∧ itemsInContainer w2 !! 0 = Some (Entry Stale 32%nat)
  ∧ itemsInContainer w3 !! 0 = Some (Entry Active 91%nat).
Proof.
  cbv zeta. split_and!.
  - vm_compute. reflexivity.
  - vm_compute. reflexivity.
  - vm_compute. reflexivity.
  - vm_compute. reflexivity.
Qed.

Lemma window_size_bound cfg first :
  0 ≤ first → 0 ≤ bufferSize cfg → 0 ≤ rowCount cfg →
  Z.of_nat (Z.to_nat (spec_last cfg first - first))
  ≤ Z.min (bufferSize cfg) (rowCount cfg).
Proof. unfold spec_last. lia. Qed.

Lemma children_bound v cfg dom0 w :
  items_plain (items_of cfg) → prebuilt_ok (length dom0) (items_of cfg) →
  0 ≤ bufferSize cfg → 0 ≤ rowCount cfg →
  reachable v cfg dom0 w →
  Z.of_nat (length (children w))
  ≤ 1 + Z.of_nat (length (planned w)) * Z.min (bufferSize cfg) (rowCount cfg).
Proof.
  intros Hp Hpre HB HT Hr. induction Hr as [w0 Hc|w e Hr IH].
  - destruct (new_runs v cfg dom0 Hp)
      as (w1 & w2 & _ & Huniq & _ & Hch & _ & Hpl & _ & Hrd & _).
    rewrite (Huniq _ Hc). rewrite finalItem_spec in Hrd. simpl.
    pose proof (rd_children _ _ _ _ _ Hrd) as Hlen.
    rewrite (rd_planned _ _ _ _ _ Hrd), Hpl. rewrite Hch in Hlen. simpl in *.
    pose proof (window_size_bound cfg 0). lia.
  - pose proof (reachable_Inv v cfg dom0 w Hp Hpre Hr) as HI.
    destruct e as [s now|now].
    + destruct (repaint_due (spec_maxBuffer cfg) (lastRepaintY w) s) eqn:Hdue.
      * destruct (scroll_due v cfg (S (length dom0)) s now w Hp Hdue) as (Hrd & _).
        rewrite finalItem_spec in Hrd.
        pose proof (rd_children _ _ _ _ _ Hrd) as Hlen.
        rewrite (rd_planned _ _ _ _ _ Hrd).
        pose proof (window_size_bound cfg _
                      (chunk_start_nonneg (cfg_itemHeight cfg) (visibleCount cfg) s)).
        simpl length. lia.
      * rewrite scroll_idle by done. done.
    + destruct (tick_step v cfg (S (length dom0)) now _ _ w HI)
        as (_ & _ & Hlen & _ & _ & Hpl & _).
      rewrite Hpl. lia.
Qed.

(** Between two sweeps the row nodes exceed two windows by design, the
    removal being left to the sweep: after the signals at offsets 3000 and
    6000, with no sweep in between, the container holds the 90 row nodes
    of three windows of 30. *)
Lemma row_nodes_exceed_two_windows :
  ¬ (∀ w, reachable Polling demo_cfg demo_dom w →
          Z.of_nat (row_nodes w)
          ≤ 2 * Z.min (bufferSize demo_cfg) (rowCount demo_cfg)).
Proof.
  intros H.
  specialize (H _ (reach_step _ _ _ _ (Scroll 6000 20)
                     (reach_step _ _ _ _ (Scroll 3000 10) demo_reachable))).
  vm_compute in H. by apply H.
Qed.

(** A rendering adds one window of row nodes at most, and nothing else adds
    any. *)
Lemma row_nodes_per_rendering (v : variant) (cfg : config) (dom0 : list element)
    (w : world) :
  config_ok dom0 cfg →
  0 ≤ bufferSize cfg → 0 ≤ rowCount cfg →
  reachable v cfg dom0 w →
  Z.of_nat (row_nodes w)
  ≤ Z.of_nat (length (planned w)) * Z.min (bufferSize cfg) (rowCount cfg).
Proof.
  intros (Hih & Hp & Hpre) HB HT Hr.
  pose proof (children_bound v cfg dom0 w Hp Hpre HB HT Hr). unfold row_nodes. lia.
Qed.

Lemma demo_throttled_reachable :
  reachable Throttling demo_cfg demo_dom demo_world_throttled.
Proof.
  apply reach_new. unfold constructed, demo_world_throttled.
  destruct (Throttled.VirtualList demo_cfg (fresh_world demo_dom)) as [[this|e] w] eqn:Heq.
  - by exists this.
  - exfalso. apply (f_equal fst) in Heq. vm_compute in Heq. discriminate.
Qed.

(** C5 fails on the code.  In [src/vlist.js] a re-plan overwrites the
    entries of the rows it renders again, and the nodes they had stay in
    the container without an entry, out of reach of every sweep.  After a
    signal at offset 205, a sweep, a signal at offset 420 and another
    sweep, every entry is Active, there are 30 of them, the window, and
    the container holds 78 row nodes, more than the 2 * 30 of the claim,
    and they stay.  The unnamed variant, given the same signals, holds the
    30 rows of the window. *)
Theorem vlist_keeps_overwritten_rows :
  let w := settled_twice Polling demo_world in
  let u := settled_twice Throttling demo_world_throttled in
  reachable Polling demo_cfg demo_dom w
  ∧ size (itemsInContainer w) = 30%nat
  ∧ active_count w = 30%nat
  ∧ row_nodes w = 78%nat
  ∧ 2 * Z.min (bufferSize demo_cfg) (rowCount demo_cfg) = 60
  ∧ reachable Throttling demo_cfg demo_dom u
  ∧ active_count u = 30%nat
  ∧ row_nodes u = 30%nat.
Proof.
  cbv zeta. split_and!.
  - exact (reach_step _ _ _ _ (Tick 900)
             (reach_step _ _ _ _ (Scroll 420 500)
                (reach_step _ _ _ _ (Tick 400)
                   (reach_step _ _ _ _ (Scroll 205 10) demo_reachable)))).
  - vm_compute. reflexivity.
  - vm_compute. reflexivity.
  - vm_compute. reflexivity.
  - vm_compute. reflexivity.
  - exact (reach_step _ _ _ _ (Tick 900)
             (reach_step _ _ _ _ (Scroll 420 500)
                (reach_step _ _ _ _ (Tick 400)
                   (reach_step _ _ _ _ (Scroll 205 10) demo_throttled_reachable)))).
  - vm_compute. reflexivity.
  - vm_compute. reflexivity.
Qed.

(** C6 fails on the code.  Once a re-plan has happened at offset 0 the
    anchor is 0, which [!lastRepaintY] takes for unset: the next signal, 5
    pixels on and within [maxBuffer], re-plans again and moves the anchor,
    in both variants. *)
Theorem replans_at_anchor_zero :
  (let w1 := step Polling demo_cfg 2%nat (Scroll 0 10) demo_world in
   let w2 := step Polling demo_cfg 2%nat (Scroll 5 20) w1 in
   lastRepaintY w1 = Some 0
   ∧ Z.abs (5 - 0) ≤ spec_maxBuffer demo_cfg
   ∧ repaint_due (spec_maxBuffer demo_cfg) (lastRepaintY w1) 5 = true
   ∧ length (planned w2) = S (length (planned w1))
   ∧ lastRepaintY w2 = Some 5)
  ∧ (let w1 := step Throttling small_cfg 1%nat (Scroll 0 10) small_world in
     let w2 := step Throttling small_cfg 1%nat (Scroll 5 20) w1 in
     lastRepaintY w1 = Some 0
     ∧ Z.abs (5 - 0) ≤ spec_maxBuffer small_cfg
     ∧ repaint_due (spec_maxBuffer small_cfg) (lastRepaintY w1) 5 = true
     ∧ length (planned w2) = S (length (planned w1))
     ∧ lastRepaintY w2 = Some 5).
Proof.
  cbv zeta. split_and!; vm_compute; solve [reflexivity | discriminate].
Qed.

(** When a scroll signal re-plans, and what it leaves of the anchor and
    the time of the last signal. *)
Lemma scroll_replans_iff v cfg c s now w :
  items_plain (items_of cfg) →
  let w' := step v cfg c (Scroll s now) w in
  (planned w' ≠ planned w ↔
     lastRepaintY w = None ∨ lastRepaintY w = Some 0
     ∨ ∃ y, lastRepaintY w = Some y ∧ spec_maxBuffer cfg < Z.abs (s - y))
  ∧ lastScrolled w' = now
  ∧ lastRepaintY w'
    = if repaint_due (spec_maxBuffer cfg) (lastRepaintY w) s
      then Some s else lastRepaintY w.
Proof.
  intros Hp w'. subst w'.
  destruct (repaint_due (spec_maxBuffer cfg) (lastRepaintY w) s) eqn:Hdue.
  - destruct (scroll_due v cfg c s now w Hp Hdue) as (Hrd & Hy & Hls & _).
    split_and!; [|done..]. split.
    + intros _. unfold repaint_due in Hdue.
      destruct (lastRepaintY w) as [y|]; [|by left].
      apply orb_prop in Hdue as [Hz|Hgt].
      * right. left. f_equal. lia.
      * right. right. exists y. split; [done|]. lia.
    + intros _. rewrite (rd_planned _ _ _ _ _ Hrd). intros Heq.
      apply (f_equal length) in Heq. simpl in Heq. lia.
  - rewrite scroll_idle by done. split_and!; [|done..]. split; [done|].
    unfold repaint_due in Hdue. destruct (lastRepaintY w) as [y|]; [|done].
    apply orb_false_elim in Hdue as [Hz Hgt].
    intros [?|[[= ->]|(y' & [= <-] & Hlt)]]; [done|done|]. lia.
Qed.

(** The two things a timer signal can do. *)
Lemma tick_cases v cfg c now items d w :
  Inv items d w →
  let w' := step v cfg c (Tick now) w in
  (itemsInContainer w' = itemsInContainer w ∧ children w' = children w
   ∧ (tick_fires v w → now - lastScrolled w ≤ 100))
  ∨ (100 < now - lastScrolled w ∧ tick_fires v w
     ∧ itemsInContainer w' = active_only (itemsInContainer w)
     ∧ (∀ n, stale_node w n → n ∉ children w')
     ∧ (∀ n, active_node w n → n ∈ children w')).
Proof.
  intros HI w'. subst w'.
  assert (Hsweep : ∀ w1,
    itemsInContainer w1 = itemsInContainer w → children w1 = children w →
    heap w1 = heap w → lastScrolled w1 = lastScrolled w →
    (itemsInContainer (sweep v cfg c now w1) = itemsInContainer w
     ∧ children (sweep v cfg c now w1) = children w
     ∧ now - lastScrolled w ≤ 100)
    ∨ (100 < now - lastScrolled w
       ∧ itemsInContainer (sweep v cfg c now w1) = active_only (itemsInContainer w)
       ∧ (∀ n, stale_node w n → n ∉ children (sweep v cfg c now w1))
       ∧ (∀ n, active_node w n → n ∈ children (sweep v cfg c now w1)))).
  { intros w1 Ht Hc Hh Hls.
    destruct (Z.le_gt_cases (now - lastScrolled w) 100) as [Hle|Hgt].
    - left. rewrite sweep_idle by lia. done.
    - right. assert (HI1 : Inv items d w1).
      { eapply well_formed_same; [..|exact HI]; by rewrite ?Hh. }
      destruct (sweep_acts v cfg c now items d w1 HI1) as (Ht' & Hst & Hac & _); [lia|].
      split_and!; [lia|by rewrite Ht', Ht|..].
      + intros n (k & e & He & Hs). apply Hst. exists k, e. by rewrite Ht.
      + intros n (k & e & He & Hs). apply Hac. exists k, e. by rewrite Ht. }
  destruct v.
  - change (step Polling cfg c (Tick now) w) with (sweep Polling cfg c now w).
    destruct (Hsweep w) as [(? & ? & ?)|(? & ? & ? & ?)]; try done.
    + by left.
    + by right.
  - assert (Hstep : step Throttling cfg c (Tick now) w
                    = if rmPending w then sweep Throttling cfg c now (with_rmPending false w)
                      else w).
    { unfold step, Throttled.step, Throttled.timer, handle, bind, get, modify, sweep, handle.
      by destruct (rmPending w). }
    rewrite Hstep. simpl. destruct (rmPending w); [|by left].
    destruct (Hsweep (with_rmPending false w)) as [(? & ? & ?)|(? & ? & ? & ?)]; try done.
    + by left.
    + by right.
Qed.

(** C7.  When the timer signal runs the reclamation callback more than 100
    time units after the last scroll signal, every Stale entry is gone from
    the table and its node from the container, and every Active entry is
    in the table as before with its node in the container; within 100 time
    units of the last scroll signal the table and the container's children
    are unchanged. *)
Theorem sweep_reclaims (v : variant) (cfg : config) (dom0 : list element)
    (w : world) (now : Z) :
  config_ok dom0 cfg →
  reachable v cfg dom0 w → tick_fires v w →
  let w' := step v cfg (S (length dom0)) (Tick now) w in
  (100 < now - lastScrolled w →
     (∀ k e, itemsInContainer w !! k = Some e → e_status e = Stale →
             itemsInContainer w' !! k = None ∧ e_node e ∉ children w')
     ∧ (∀ k e, itemsInContainer w !! k = Some e → e_status e = Active →
               itemsInContainer w' !! k = Some e ∧ e_node e ∈ children w'))
  ∧ (now - lastScrolled w ≤ 100 →
     itemsInContainer w' = itemsInContainer w ∧ children w' = children w).
Proof.
  intros (Hih & Hp & Hpre) Hr Hfire. cbv zeta.
  pose proof (reachable_Inv v cfg dom0 w Hp Hpre Hr) as HI.
  destruct (tick_cases v cfg (S (length dom0)) now _ _ w HI)
    as [(Ht & Hc & Hidle)|(Hgt & _ & Ht & Hst & Hac)].
  - split; [|done]. intros Hgt. specialize (Hidle Hfire). lia.
  - split; [|lia]. intros _. split.
    + intros k e He Hs. split.
      * rewrite Ht, active_only_lookup, He. rewrite decide_False; [done|congruence].
      * apply Hst. by exists k, e.
    + intros k e He Ha. split.
      * rewrite Ht, active_only_lookup, He. by rewrite decide_True.
      * apply Hac. by exists k, e.
Qed.

(** C8.  Whatever signals came before, an entry that is Active when the
    timer signal arrives is in the table afterwards, unchanged, and its
    node is a child of the container. *)
Theorem active_survives_tick (v : variant) (cfg : config) (dom0 : list element)
    (w : world) (now : Z) (k : Z) (e : entry) :
  config_ok dom0 cfg →
  reachable v cfg dom0 w →
  itemsInContainer w !! k = Some e → e_status e = Active →
  let w' := step v cfg (S (length dom0)) (Tick now) w in
  itemsInContainer w' !! k = Some e ∧ e_node e ∈ children w'.
Proof.
  intros (Hih & Hp & Hpre) Hr He Ha. cbv zeta.
  pose proof (reachable_Inv v cfg dom0 w Hp Hpre Hr) as HI.
  destruct (tick_cases v cfg (S (length dom0)) now _ _ w HI)
    as [(Ht & Hc & _)|(_ & _ & Ht & _ & Hac)].
  - rewrite Ht, Hc. split; [done|].
    pose proof (wf_in _ _ _ _ HI _ _ He) as H. by rewrite app_nil_r in H.
  - split.
    + rewrite Ht, active_only_lookup, He. by rewrite decide_True.
    + apply Hac. by exists k, e.
Qed.

Lemma demo_scrolled_reachable : reachable Polling demo_cfg demo_dom demo_scrolled.
Proof. apply (reach_step Polling demo_cfg demo_dom demo_world), demo_reachable. Qed.

Lemma small_scrolled_reachable : reachable Throttling small_cfg [] small_scrolled.
Proof.
  apply (reach_step Throttling small_cfg [] small_world), reach_new, small_constructed.
Qed.

Lemma sweep_reclaims_witness :
  let w := demo_scrolled in
  let w' := step Polling demo_cfg (S (length demo_dom)) (Tick 400) w in
  (100 < 400 - lastScrolled w →
     (∀ k e, itemsInContainer w !! k = Some e → e_status e = Stale →
             itemsInContainer w' !! k = None ∧ e_node e ∉ children w')
     ∧ (∀ k e, itemsInContainer w !! k = Some e → e_status e = Active →
               itemsInContainer w' !! k = Some e ∧ e_node e ∈ children w'))
  ∧ (400 - lastScrolled w ≤ 100 →
     itemsInContainer w' = itemsInContainer w ∧ children w' = children w).
Proof.
  apply (sweep_reclaims Polling demo_cfg demo_dom demo_scrolled 400).
  - apply demo_config_ok.
  - apply demo_scrolled_reachable.
  - exact I.
Defined.

Lemma active_survives_tick_witness :
  let w' := step Throttling small_cfg 1%nat (Tick 400) small_scrolled in
  itemsInContainer w' !! 2 = Some (Entry Active 5%nat)
  ∧ e_node (Entry Active 5%nat) ∈ children w'.
Proof.
  apply (active_survives_tick Throttling small_cfg [] small_scrolled 400 2
                              (Entry Active 5%nat)).
  - apply small_config_ok.
  - apply small_scrolled_reachable.
  - vm_compute. reflexivity.
  - reflexivity.
Defined.

(** C9.  The default row factory of both variants: for a string item the
    result is a newly created [div] whose text content is the item; a
    pre-built node is returned as it is, and nothing in the world changes;
    where the array has no item, the result is a new empty [div]. *)
Theorem default_factory_content (items : list jsval) (ih i : Z) (w : world) :
  (∀ s, items_get items i = VStr s →
     (∃ n w', VList.prototype_generatorFn items ih i w = (Ok (VNode n), w')
              ∧ heap w !! n = None
              ∧ el_tag <$> heap w' !! n = Some "div"
              ∧ textContent w' n = Some s)
     ∧ (∃ n w', Throttled.prototype_generatorFn items i ih w = (Ok (VNode n), w')
              ∧ heap w !! n = None
              ∧ el_tag <$> heap w' !! n = Some "div"
              ∧ textContent w' n = Some s))
  ∧ (∀ n, items_get items i = VNode n →
       VList.prototype_generatorFn items ih i w = (Ok (VNode n), w)
       ∧ Throttled.prototype_generatorFn items i ih w = (Ok (VNode n), w))
  ∧ (items_get items i = VUndefined →
       VList.prototype_generatorFn items ih i w
       = (Ok (VNode (length (heap w))), with_heap (λ h, h ++ [row_div ih []]) w)
       ∧ Throttled.prototype_generatorFn items i ih w
       = (Ok (VNode (length (heap w))), with_heap (λ h, h ++ [row_div ih []]) w)).
Proof.
  assert (Hnew : ∀ e, el_tag e = "div" →
            heap w !! length (heap w) = None
            ∧ el_tag <$> heap (with_heap (λ h, h ++ [e]) w) !! length (heap w) = Some "div").
  { intros e He. split; [by apply lookup_ge_None_2|].
    simpl. rewrite lookup_app_r by lia. rewrite Nat.sub_diag. simpl. by rewrite He. }
  split; [|split].
  - intros s Hs. split.
    + destruct (decide (s = "")) as [->|Hne].
      * eexists _, _. split; [apply vlist_factory_falsy; by rewrite Hs|].
        destruct (Hnew (row_div ih [])) as [? ?]; [done|].
        by rewrite textContent_new.
      * eexists _, _. split; [by apply vlist_factory_string|].
        destruct (Hnew (row_div ih [s])) as [? ?]; [done|].
        rewrite textContent_new. simpl. split_and!; try done.
        by rewrite append_empty_r.
    + eexists _, _. split; [by apply throttled_factory_string|].
      destruct (Hnew (row_div ih [s])) as [? ?]; [done|].
      rewrite textContent_new. simpl. split_and!; try done.
      by rewrite append_empty_r.
  - intros n Hn. split; [by apply vlist_factory_node|].
    rewrite throttled_factory_other; rewrite Hn; done.
  - intros Hu. split.
    + apply vlist_factory_falsy. by rewrite Hu.
    + by apply throttled_factory_undefined.
Qed.

Lemma default_factory_content_witness :
  (∃ n w', VList.prototype_generatorFn [VStr "a"; VNode 0%nat] 20 0 (fresh_world [blank "p"])
           = (Ok (VNode n), w') ∧ textContent w' n = Some "a")
  ∧ Throttled.prototype_generatorFn [VStr "a"; VNode 0%nat] 1 20 (fresh_world [blank "p"])
    = (Ok (VNode 0%nat), fresh_world [blank "p"])
  ∧ VList.prototype_generatorFn [VStr "a"; VNode 0%nat] 20 2 (fresh_world [blank "p"])
    = (Ok (VNode 1%nat), with_heap (λ h, h ++ [row_div 20 []]) (fresh_world [blank "p"])).
Proof.
  split; [|split].
  - destruct (proj1 (default_factory_content [VStr "a"; VNode 0%nat] 20 0
                       (fresh_world [blank "p"])) "a" eq_refl)
      as [(n & w' & H & _ & _ & Ht) _].
    exists n, w'. by split.
  - exact (proj2 (proj1 (proj2 (default_factory_content [VStr "a"; VNode 0%nat] 20 1
                                  (fresh_world [blank "p"]))) 0%nat eq_refl)).
  - exact (proj1 (proj2 (proj2 (default_factory_content [VStr "a"; VNode 0%nat] 20 2
                                  (fresh_world [blank "p"]))) eq_refl)).
Defined.

(** C10.  In [src/vlist.js] the default factory tests the item by
    truthiness: for a falsy item (the empty string, 0, null, false, or none)
    it builds a new empty [div] of the row height.  The unnamed variant
    tests [typeof items[i] !== "undefined"]: on a falsy item that is not
    [undefined] the two factories differ, and for the empty string the
    variant builds a [div] with a text child. *)
Theorem default_factories_differ_on_falsy (items : list jsval) (ih i : Z) (w : world) :
  truthy (items_get items i) = false →
  VList.prototype_generatorFn items ih i w
  = (Ok (VNode (length (heap w))), with_heap (λ h, h ++ [row_div ih []]) w)
  ∧ (items_get items i ≠ VUndefined →
     Throttled.prototype_generatorFn items i ih w
     ≠ VList.prototype_generatorFn items ih i w)
  ∧ (items_get items i = VStr "" →
     Throttled.prototype_generatorFn items i ih w
     = (Ok (VNode (length (heap w))), with_heap (λ h, h ++ [row_div ih [""]]) w)).
Proof.
  intros Hf. split; [by apply vlist_factory_falsy|]. split.
  - intros Hu. rewrite (vlist_factory_falsy _ _ _ _ Hf).
    destruct (items_get items i) as [| |b|z|s|n] eqn:Hi; try done.
    + rewrite throttled_factory_other; rewrite Hi; done.
    + rewrite throttled_factory_other; rewrite Hi; done.
    + rewrite throttled_factory_other; rewrite Hi; done.
    + rewrite (throttled_factory_string _ _ _ s) by done.
      intros [=Heq]. apply app_inv_head in Heq. done.
  - intros Hs. by apply throttled_factory_string.
Qed.

Lemma default_factories_differ_on_falsy_witness :
  VList.prototype_generatorFn [VStr ""] 20 0 (fresh_world [])
  = (Ok (VNode 0%nat), with_heap (λ h, h ++ [row_div 20 []]) (fresh_world []))
  ∧ Throttled.prototype_generatorFn [VStr ""] 0 20 (fresh_world [])
    ≠ VList.prototype_generatorFn [VStr ""] 20 0 (fresh_world [])
  ∧ Throttled.prototype_generatorFn [VStr ""] 0 20 (fresh_world [])
    = (Ok (VNode 0%nat), with_heap (λ h, h ++ [row_div 20 [""]]) (fresh_world [])).
Proof.
  destruct (default_factories_differ_on_falsy [VStr ""] 20 0 (fresh_world []) eq_refl)
    as (H1 & H2 & H3).
  split; [exact H1|]. split; [apply H2; discriminate | apply H3; reflexivity].
Defined.

(** * More of the code: the constructor, the handlers, the sweeps *)

Lemma elem_of_rev {A} (x : A) (l : list A) : x ∈ rev l ↔ x ∈ l.
Proof. rewrite !list_elem_of_In. symmetry. apply in_rev. Qed.

Lemma spec_last_le cfg first : spec_last cfg first ≤ rowCount cfg.
Proof. unfold spec_last. lia. Qed.

(** X1.  In either variant the row factory is only ever called for
    indices of the list: every index handed to it, by the constructor or
    by a scroll signal, lies in [[0, totalRows)]. *)
Theorem factory_indices_in_bounds (v : variant) (cfg : config) (dom0 : list element)
    (w : world) :
  config_ok dom0 cfg → reachable v cfg dom0 w →
  ∀ i, i ∈ produced w → 0 ≤ i < rowCount cfg.
Proof.
  intros (Hih & Hp & Hpre) Hr. induction Hr as [w0 Hc|w e Hr IH].
  - destruct (new_runs v cfg dom0 Hp)
      as (w1 & w2 & _ & Huniq & _ & _ & _ & _ & Hq & Hrd & _).
    rewrite (Huniq _ Hc). rewrite finalItem_spec in Hrd. simpl.
    rewrite (rd_produced _ _ _ _ _ Hrd), Hq, app_nil_r.
    intros i Hi%elem_of_rev%elem_of_seqZ. pose proof (spec_last_le cfg 0). lia.
  - pose proof (reachable_Inv v cfg dom0 w Hp Hpre Hr) as HI.
    destruct e as [s now|now].
    + destruct (repaint_due (spec_maxBuffer cfg) (lastRepaintY w) s) eqn:Hdue.
      * destruct (scroll_due v cfg (S (length dom0)) s now w Hp Hdue) as (Hrd & _).
        rewrite finalItem_spec in Hrd. rewrite (rd_produced _ _ _ _ _ Hrd).
        intros i [Hi%elem_of_rev%elem_of_seqZ|Hi]%elem_of_app; [|by apply IH].
        pose proof (chunk_start_nonneg (cfg_itemHeight cfg) (visibleCount cfg) s).
        pose proof (spec_last_le cfg
                      (chunk_start (cfg_itemHeight cfg) (visibleCount cfg) s)). lia.
      * rewrite scroll_idle by done. exact IH.
    + destruct (tick_step v cfg (S (length dom0)) now _ _ w HI)
        as (_ & _ & _ & _ & _ & _ & Hq).
      by rewrite Hq.
Qed.

Lemma factory_indices_in_bounds_witness :
  config_ok demo_dom demo_cfg
  ∧ ∀ i, i ∈ produced demo_scrolled → 0 ≤ i < rowCount demo_cfg.
Proof.
  split; [apply demo_config_ok|].
  apply (factory_indices_in_bounds Polling demo_cfg demo_dom demo_scrolled).
  - apply demo_config_ok.
  - apply demo_scrolled_reachable.
Defined.

(** Under the invariant the container holds the scroller and, apart from
    it, a node for each table entry. *)
Lemma entries_have_nodes items d w :
  Inv items d w → (1 + size (itemsInContainer w) ≤ length (children w))%nat.
Proof.
  intros [Hh Hs Hnod Hal Hin Hrow Hpb Hij].
  rewrite app_nil_r in Hnod. setoid_rewrite app_nil_r in Hin.
  set (l := (λ kv : Z * entry, e_node kv.2) <$> map_to_list (itemsInContainer w)).
  assert (Hl : length l = size (itemsInContainer w)).
  { unfold l. by rewrite length_fmap, length_map_to_list. }
  assert (Hmem : ∀ n, n ∈ l → ∃ k e, itemsInContainer w !! k = Some e ∧ e_node e = n).
  { intros n ([k e] & -> & Hke%elem_of_map_to_list)%list_elem_of_fmap. by exists k, e. }
  assert (Hndl : NoDup (d :: l)).
  { apply NoDup_cons. split.
    - intros (k & e & He & Heq)%Hmem. by apply (Hrow k e).
    - unfold l. apply NoDup_fmap_2_strong; [|apply NoDup_map_to_list].
      intros [k1 e1] [k2 e2] H1%elem_of_map_to_list H2%elem_of_map_to_list Heq.
      simpl in Heq. pose proof (Hij _ _ _ _ H1 H2 Heq) as ->.
      rewrite H1 in H2. by injection H2 as ->. }
  rewrite <-Hl. change (length (d :: l) ≤ length (children w))%nat.
  apply submseteq_length, NoDup_submseteq; [done|].
  intros n [->|(k & e & He & <-)%Hmem]%elem_of_cons.
  - by apply head_Some_elem_of.
  - by apply (Hin k).
Qed.

(** X2.  Construction succeeds for either variant, and leaves the anchor
    unset, the time of the last scroll signal 0, the scroller as the
    container's first child, and the first window rendered: the table
    holds exactly the indices of [[0, min(totalRows, bufferSize))], all
    Active, and the container one row node for each of them. *)
Theorem constructor_renders_first_window (v : variant) (cfg : config)
    (dom0 : list element) :
  config_ok dom0 cfg →
  ∃ w0, constructed v cfg dom0 w0
    ∧ lastRepaintY w0 = None ∧ lastScrolled w0 = 0
    ∧ (∀ i, 0 ≤ i < spec_last cfg 0 →
            ∃ nd, itemsInContainer w0 !! i = Some (Entry Active nd))
    ∧ (∀ i, ¬ (0 ≤ i < spec_last cfg 0) → itemsInContainer w0 !! i = None)
    ∧ head (children w0) = Some (length dom0)
    ∧ Z.of_nat (row_nodes w0) = Z.max 0 (spec_last cfg 0).
Proof.
  intros (Hih & Hp & Hpre).
  destruct (new_runs v cfg dom0 Hp)
    as (w1 & w2 & Hc & _ & _ & Hch & Ht & _ & _ & Hrd & HI).
  specialize (HI Hpre). rewrite finalItem_spec in Hrd.
  eexists. split; [exact Hc|]. simpl. split_and!; try done.
  - intros i Hi. destruct (rd_in _ _ _ _ _ Hrd i Hi) as (nd & Hnd & _). by exists nd.
  - intros i Hi. by rewrite (rd_out _ _ _ _ _ Hrd), Ht, lookup_empty.
  - apply (wf_scroller _ _ _ _ HI).
  - pose proof (rd_children _ _ _ _ _ Hrd) as Hle. rewrite Hch in Hle. simpl in Hle.
    pose proof (entries_have_nodes _ _ _ HI) as Hge.
    assert (Hact : ∀ i, is_active w2 i ↔ 0 ≤ i < spec_last cfg 0)
      by (intros i; by apply (rendered_active _ _ _ _ _ _ Hrd)).
    pose proof (active_count_interval _ _ _ Hact) as Hcount.
    pose proof (map_size_filter (λ kv : Z * entry, e_status kv.2 = Active)
                  (itemsInContainer w2)) as Hsz.
    unfold active_count in Hcount. unfold row_nodes. simpl. lia.
Qed.

Lemma constructor_renders_first_window_witness :
  ∃ w0, constructed Throttling small_cfg [] w0
    ∧ lastRepaintY w0 = None ∧ lastScrolled w0 = 0
    ∧ (∀ i, 0 ≤ i < spec_last small_cfg 0 →
            ∃ nd, itemsInContainer w0 !! i = Some (Entry Active nd))
    ∧ (∀ i, ¬ (0 ≤ i < spec_last small_cfg 0) → itemsInContainer w0 !! i = None)
    ∧ head (children w0) = Some (length (@nil element))
    ∧ Z.of_nat (row_nodes w0) = Z.max 0 (spec_last small_cfg 0).
Proof.
  apply (constructor_renders_first_window Throttling small_cfg []).
  apply small_config_ok.
Defined.

(** X3.  A list without rows (no row count and no items, or a window of
    no rows) never gets a row: in every reachable world of either variant
    the table is empty, the scroller is the container's only child, and
    the row factory has not been called. *)
Theorem empty_list_stays_empty (v : variant) (cfg : config) (dom0 : list element)
    (w : world) :
  config_ok dom0 cfg → rowCount cfg ≤ 0 ∨ bufferSize cfg ≤ 0 →
  reachable v cfg dom0 w →
  itemsInContainer w = ∅ ∧ children w = [length dom0] ∧ produced w = [].
Proof.
  intros (Hih & Hp & Hpre) Hempty Hr.
  assert (Hwin : ∀ first, 0 ≤ first → spec_last cfg first ≤ first)
    by (intros first Hf; unfold spec_last; lia).
  assert (Hrender : ∀ first w w', 0 ≤ first →
    rendered (items_of cfg) first (spec_last cfg first) w w' →
    Inv (items_of cfg) (length dom0) w' →
    itemsInContainer w = ∅ → children w = [length dom0] → produced w = [] →
    itemsInContainer w' = ∅ ∧ children w' = [length dom0] ∧ produced w' = []).
  { intros first w1 w2 Hf Hrd HI Ht Hch Hq. specialize (Hwin first Hf). split_and!.
    - apply map_eq. intros i.
      rewrite (rd_out _ _ _ _ _ Hrd) by lia. by rewrite Ht, !lookup_empty.
    - pose proof (rd_children _ _ _ _ _ Hrd) as Hle. rewrite Hch in Hle. simpl in Hle.
      pose proof (wf_scroller _ _ _ _ HI) as Hhd.
      destruct (children w2) as [|a [|b l]]; simpl in *; [done| |lia].
      by injection Hhd as ->.
    - rewrite (rd_produced _ _ _ _ _ Hrd), Hq, seqZ_nil by lia. done. }
  induction Hr as [w0 Hc|w e Hr IH].
  - destruct (new_runs v cfg dom0 Hp)
      as (w1 & w2 & _ & Huniq & _ & Hch & Ht & _ & Hq & Hrd & HI).
    rewrite (Huniq _ Hc), finalItem_spec in *. simpl.
    apply (Hrender 0 w1 w2); auto. done.
  - pose proof (reachable_Inv v cfg dom0 w Hp Hpre Hr) as HI.
    destruct IH as (Ht & Hch & Hq). destruct e as [s now|now].
    + destruct (repaint_due (spec_maxBuffer cfg) (lastRepaintY w) s) eqn:Hdue.
      * destruct (scroll_due v cfg (S (length dom0)) s now w Hp Hdue)
          as (Hrd & _ & _ & HI').
        rewrite finalItem_spec in Hrd.
        apply (Hrender _ w _ (chunk_start_nonneg _ _ _) Hrd); auto.
      * rewrite scroll_idle by done. done.
    + destruct (tick_step v cfg (S (length dom0)) now _ _ w HI)
        as (HI' & _ & Hlen & _ & _ & _ & Hq').
      split_and!; [|..|congruence].
      * destruct (tick_cases v cfg (S (length dom0)) now _ _ w HI)
          as [(Ht' & _)|(_ & _ & Ht' & _)]; rewrite Ht', Ht; [done|].
        apply map_eq. intros i. by rewrite active_only_lookup, lookup_empty.
      * pose proof (wf_scroller _ _ _ _ HI') as Hhd. rewrite Hch in Hlen.
        destruct (children (step v cfg (S (length dom0)) (Tick now) w))
          as [|a [|b l]]; simpl in *; [done| |lia].
        by injection Hhd as ->.
Qed.

Lemma empty_constructed :
  constructed Polling empty_cfg []
    (snd (VList.VirtualList empty_cfg (fresh_world []))).
Proof. exists (VList.instance empty_cfg 1%nat). by vm_compute. Qed.

Lemma empty_list_stays_empty_witness :
  let w := step Polling empty_cfg 1%nat (Scroll 40 10)
             (snd (VList.VirtualList empty_cfg (fresh_world []))) in
  itemsInContainer w = ∅ ∧ children w = [length (@nil element)] ∧ produced w = [].
Proof.
  apply (empty_list_stays_empty Polling empty_cfg []).
  - by apply config_ok_check.
  - left. discriminate.
  - apply (reach_step Polling empty_cfg []), reach_new, empty_constructed.
Defined.

Lemma throttled_tick_eq cfg c now w :
  step Throttling cfg c (Tick now) w
  = if rmPending w then sweep Throttling cfg c now (with_rmPending false w) else w.
Proof.
  unfold step, Throttled.step, Throttled.timer, handle, bind, get, modify, sweep, handle.
  by destruct (rmPending w).
Qed.

Lemma with_rmPending_same w : rmPending w = false → with_rmPending false w = w.
Proof. destruct w. simpl. by intros ->. Qed.

(** A timer signal within 100 time units of a scroll signal. *)
Lemma tick_after_scroll v cfg c w s t1 t2 :
  items_plain (items_of cfg) → t2 - t1 ≤ 100 →
  let w1 := step v cfg c (Scroll s t1) w in
  let w2 := step v cfg c (Tick t2) w1 in
  itemsInContainer w2 = itemsInContainer w1
  ∧ children w2 = children w1
  ∧ heap w2 = heap w1
  ∧ lastRepaintY w2 = lastRepaintY w1 ∧ lastScrolled w2 = t1.
Proof.
  intros Hp Ht. cbv zeta.
  destruct (scroll_replans_iff v cfg c s t1 w Hp) as (_ & Hls & _).
  set (w1 := step v cfg c (Scroll s t1) w) in *.
  destruct v.
  - change (step Polling cfg c (Tick t2) w1) with (sweep Polling cfg c t2 w1).
    rewrite sweep_idle by lia. done.
  - rewrite throttled_tick_eq. destruct (rmPending w1); [|done].
    rewrite sweep_idle by (simpl; lia). done.
Qed.

(** X4.  A timer signal that arrives within 100 time units of a scroll
    signal reclaims nothing: in either variant the table, the container's
    children and every element are as the scroll handler left them. *)
Theorem tick_during_scrolling (v : variant) (cfg : config) (c : node_id)
    (w : world) (s t1 t2 : Z) :
  items_plain (items_of cfg) → t2 - t1 ≤ 100 →
  let w1 := step v cfg c (Scroll s t1) w in
  let w2 := step v cfg c (Tick t2) w1 in
  itemsInContainer w2 = itemsInContainer w1
  ∧ children w2 = children w1
  ∧ heap w2 = heap w1
  ∧ lastRepaintY w2 = lastRepaintY w1 ∧ lastScrolled w2 = t1.
Proof. apply tick_after_scroll. Qed.

Lemma tick_during_scrolling_witness :
  let w1 := step Polling demo_cfg 2%nat (Scroll 3000 20) demo_world in
  let w2 := step Polling demo_cfg 2%nat (Tick 100) w1 in
  itemsInContainer w2 = itemsInContainer w1
  ∧ children w2 = children w1
  ∧ heap w2 = heap w1
  ∧ lastRepaintY w2 = lastRepaintY w1 ∧ lastScrolled w2 = 20.
Proof.
  apply (tick_during_scrolling Polling demo_cfg 2%nat demo_world 3000 20 100).
  - apply demo_items_plain.
  - discriminate.
Defined.

(** X5.  In the unnamed variant the sweep that a re-plan schedules is
    lost when its timer fires within 100 time units of a scroll signal:
    that timer signal reclaims nothing and disarms the timer, and no later
    timer signal changes the world, so what the re-plan marked Stale stays
    in the table and in the container until another scroll signal
    re-plans. *)
Theorem throttled_sweep_lost (cfg : config) (c : node_id) (w : world)
    (s t1 t2 : Z) (ts : list Z) :
  items_plain (items_of cfg) → t2 - t1 ≤ 100 →
  let w1 := step Throttling cfg c (Scroll s t1) w in
  let w2 := step Throttling cfg c (Tick t2) w1 in
  rmPending w2 = false
  ∧ itemsInContainer w2 = itemsInContainer w1 ∧ children w2 = children w1
  ∧ ticks Throttling cfg c ts w2 = w2.
Proof.
  intros Hp Ht. cbv zeta.
  destruct (tick_after_scroll Throttling cfg c w s t1 t2 Hp Ht) as (Htab & Hch & _).
  destruct (scroll_replans_iff Throttling cfg c s t1 w Hp) as (_ & Hls & _).
  set (w1 := step Throttling cfg c (Scroll s t1) w) in *.
  assert (Hpend : rmPending (step Throttling cfg c (Tick t2) w1) = false).
  { rewrite throttled_tick_eq. destruct (rmPending w1) eqn:Hpd; [|done].
    rewrite sweep_idle by (simpl; lia). done. }
  split_and!; try done.
  induction ts as [|t ts IH]; [done|].
  change (ticks Throttling cfg c ts
            (step Throttling cfg c (Tick t) (step Throttling cfg c (Tick t2) w1))
          = step Throttling cfg c (Tick t2) w1).
  rewrite (throttled_tick_eq cfg c t), Hpend. exact IH.
Qed.

Lemma throttled_sweep_lost_witness :
  let w1 := step Throttling small_cfg 1%nat (Scroll 40 10) small_world in
  let w2 := step Throttling small_cfg 1%nat (Tick 100) w1 in
  rmPending w2 = false
  ∧ itemsInContainer w2 = itemsInContainer w1 ∧ children w2 = children w1
  ∧ ticks Throttling small_cfg 1%nat [400; 700; 1000] w2 = w2.
Proof.
  apply (throttled_sweep_lost small_cfg 1%nat small_world 40 10 100 [400; 700; 1000]).
  - apply small_config_ok.
  - discriminate.
Defined.

Lemma detach_absent n (l : list node_id) : n ∉ l → detach n l = l.
Proof.
  intros Hn. unfold detach. induction l as [|x l IH]; [done|].
  rewrite filter_cons_True.
  - f_equal. apply IH. intros ?. apply Hn. by right.
  - intros ->. apply Hn. by left.
Qed.

Lemma NoDup_omap_inj {A B} (f : A → option B) (l : list A) :
  NoDup l →
  (∀ x y b, x ∈ l → y ∈ l → f x = Some b → f y = Some b → x = y) →
  NoDup (omap f l).
Proof.
  induction l as [|x l IH]; intros Hnd Hinj; simpl; [constructor|].
  apply NoDup_cons in Hnd as [Hx Hnd].
  assert (Hrest : NoDup (omap f l)).
  { apply IH; [done|]. intros y z b Hy Hz. apply Hinj; by right. }
  destruct (f x) as [b|] eqn:Hfx; [|done].
  apply NoDup_cons. split; [|done].
  intros (y & Hy & Hfy)%list_elem_of_omap.
  assert (x = y) as -> by (apply (Hinj x y b); [by left|by right|done..]). done.
Qed.

(** The last loop of the variant's sweep appends the nodes of the keys in
    turn, when none of them is a child yet. *)
Lemma append_nodes_spec (t1 : gmap Z entry) ks w :
  itemsInContainer w = t1 →
  (∀ k, k ∈ ks → is_Some (t1 !! k)) →
  NoDup (omap (λ k, e_node <$> t1 !! k) ks) →
  (∀ n, n ∈ omap (λ k, e_node <$> t1 !! k) ks → n ∉ children w) →
  forEach ks (λ index,
    w <- get ;;
    match itemsInContainer w !! index with
    | Some item => container_appendChild (e_node item)
    | None => throw TypeError
    end) w
  = (Ok tt, with_children (λ c, c ++ omap (λ k, e_node <$> t1 !! k) ks) w).
Proof.
  revert w. induction ks as [|x ks IH]; intros w Ht Hks Hnd Hout.
  - simpl. unfold ret. f_equal. destruct w. unfold with_children. simpl.
    by rewrite app_nil_r.
  - destruct (Hks x (list_elem_of_here _ _)) as [e He].
    simpl in *. rewrite He in *. simpl in *.
    apply NoDup_cons in Hnd as [Hx Hnd].
    unfold bind at 1. unfold bind at 1. unfold get at 1. rewrite Ht, He.
    unfold container_appendChild, modify.
    rewrite IH; try done.
    + f_equal. destruct w as [hp ch tb y ls pd pl pr]. unfold with_children. simpl.
      rewrite detach_absent by (apply Hout; by left). by rewrite <-app_assoc.
    + intros k Hk. apply Hks. by right.
    + intros n Hn. simpl. rewrite detach_absent by (apply Hout; by left).
      intros [Hc|Heq%list_elem_of_singleton]%elem_of_app.
      * by apply (Hout n); [right|].
      * subst n. by apply Hx.
Qed.

Lemma Object_keys_length (t : gmap Z entry) : length (Object_keys t) = size t.
Proof.
  unfold Object_keys. rewrite merge_sort_Permutation.
  rewrite <-(size_dom (D := gset Z) t). done.
Qed.

Lemma active_nodes_length (t : gmap Z entry) :
  length (active_nodes t) = size (active_only t).
Proof.
  unfold active_nodes. rewrite <-Object_keys_length.
  assert (H : ∀ ks, (∀ k, k ∈ ks → is_Some (active_only t !! k)) →
            length (omap (λ k, e_node <$> active_only t !! k) ks) = length ks).
  { induction ks as [|x ks IH]; intros Hks; [done|]. simpl.
    destruct (Hks x (list_elem_of_here _ _)) as [e ->]. simpl. f_equal.
    apply IH. intros k Hk. apply Hks. by right. }
  apply H. intros k Hk. by apply Object_keys_spec.
Qed.

Lemma active_only_idemp (t : gmap Z entry) : active_only (active_only t) = active_only t.
Proof.
  apply map_eq. intros k. rewrite !active_only_lookup.
  destruct (t !! k) as [e|]; [|done]. by repeat case_decide.
Qed.

(** The world the variant's sweep leaves, exactly. *)
Lemma throttled_sweep_exact this now items d w :
  Inv items d w → 100 < now - lastScrolled w →
  Throttled.rmNode this now w
  = (Ok tt, with_children (λ _, d :: active_nodes (itemsInContainer w))
              (with_table active_only w)).
Proof.
  unfold Inv. intros [Hh Hs Hnod Hal Hin Hrow Hpb Hij] Hnow.
  unfold Throttled.rmNode.
  unfold bind at 1. unfold get at 1.
  destruct (Z.ltb_spec 100 (now - lastScrolled w)) as [_|?]; [|lia].
  unfold bind at 1. unfold modify at 1.
  unfold bind at 1. unfold get at 1.
  unfold bind at 1. rewrite remove_all_but_first_spec by (simpl; lia).
  unfold bind at 1. unfold get at 1. simpl. rewrite keep_active_spec.
  apply head_Some in Hs as [rest Hc].
  set (t1 := active_only (itemsInContainer w)).
  assert (Hsub : ∀ k e, t1 !! k = Some e → itemsInContainer w !! k = Some e).
  { intros k e. unfold t1. rewrite active_only_lookup.
    destruct (itemsInContainer w !! k) as [e'|]; [|done]. case_decide; [|done].
    by intros [= <-]. }
  assert (Hnd : NoDup (omap (λ k, e_node <$> t1 !! k) (Object_keys t1))).
  { apply NoDup_omap_inj; [apply Object_keys_NoDup|].
    intros k1 k2 n _ _ H1 H2.
    destruct (t1 !! k1) as [e1|] eqn:He1; [|done].
    destruct (t1 !! k2) as [e2|] eqn:He2; [|done].
    simpl in *. apply (Hij k1 k2 e1 e2); [by apply Hsub..|congruence]. }
  rewrite (append_nodes_spec t1); try done.
  - f_equal. destruct w as [hp ch tb y ls pd pl pr]. simpl in *. subst ch.
    unfold with_children, with_table. simpl. by rewrite keep_active_spec.
  - simpl. apply keep_active_spec.
  - intros k Hk. by apply Object_keys_spec.
  - intros n (k & _ & Hk)%list_elem_of_omap. simpl. rewrite Hc. simpl.
    destruct (t1 !! k) as [e|] eqn:He; [|done]. simpl in Hk. injection Hk as <-.
    intros Heq%list_elem_of_singleton. by apply (Hrow k e); [apply Hsub|].
Qed.

Lemma vlist_sweep_nothing this now w :
  (∀ k e, itemsInContainer w !! k = Some e → e_status e = Active) →
  VList.rmNodeInterval this now w = (Ok tt, w).
Proof.
  intros Hall. unfold VList.rmNodeInterval, bind, get.
  destruct (100 <? now - lastScrolled w); [|done].
  destruct (filter _ _) as [|x l] eqn:Hf; [done|].
  assert (Hx : x ∈ filter (λ index, e_status <$> itemsInContainer w !! index = Some Stale)
                      (Object_keys (itemsInContainer w))) by (rewrite Hf; by left).
  apply list_elem_of_filter in Hx as [Hst _].
  destruct (itemsInContainer w !! x) as [e|] eqn:He; [|done].
  simpl in Hst. rewrite (Hall _ _ He) in Hst. done.
Qed.

Lemma active_nodes_spec (t : gmap Z entry) n :
  n ∈ active_nodes t ↔ ∃ k e, t !! k = Some e ∧ e_status e = Active ∧ e_node e = n.
Proof.
  unfold active_nodes. rewrite list_elem_of_omap. split.
  - intros (k & _ & Hk). rewrite active_only_lookup in Hk.
    destruct (t !! k) as [e|] eqn:He; [|done]. case_decide; [|done].
    simpl in Hk. injection Hk as <-. by exists k, e.
  - intros (k & e & He & Ha & <-). exists k.
    assert (Hk : active_only t !! k = Some e)
      by (rewrite active_only_lookup, He; by rewrite decide_True).
    split; [|by rewrite Hk]. apply Object_keys_spec. by rewrite Hk.
Qed.

(** X6.  When the unnamed variant's sweep runs after scrolling has
    settled, it rebuilds the container from the table: the children are
    the scroller followed by the nodes of the Active entries in index
    order, so the container holds exactly one row node for each Active
    entry, at most [min(bufferSize, totalRows)], and no node that the table
    does not refer to. *)
Theorem throttled_sweep_rebuilds (cfg : config) (dom0 : list element)
    (w : world) (now : Z) :
  config_ok dom0 cfg → 0 ≤ bufferSize cfg → 0 ≤ rowCount cfg →
  reachable Throttling cfg dom0 w → 100 < now - lastScrolled w →
  let w' := sweep Throttling cfg (S (length dom0)) now w in
  itemsInContainer w' = active_only (itemsInContainer w)
  ∧ children w' = length dom0 :: active_nodes (itemsInContainer w)
  ∧ row_nodes w' = active_count w
  ∧ Z.of_nat (row_nodes w') ≤ Z.min (bufferSize cfg) (rowCount cfg)
  ∧ (∀ n, orphan (length dom0) w n → n ∉ children w').
Proof.
  intros (Hih & Hp & Hpre) HB HT Hr Hnow. cbv zeta.
  pose proof (reachable_Inv _ cfg dom0 w Hp Hpre Hr) as HI.
  unfold sweep, handle.
  rewrite (throttled_sweep_exact _ now _ _ w HI Hnow). simpl.
  assert (Hrows : row_nodes
            (with_children (λ _, length dom0 :: active_nodes (itemsInContainer w))
               (with_table active_only w)) = active_count w).
  { unfold row_nodes. simpl. rewrite active_nodes_length. unfold active_count, active_only.
    lia. }
  split_and!; try done.
  - rewrite Hrows.
    destruct (reachable_window _ cfg dom0 w Hp Hpre Hr) as (first & _ & Hf & Hact).
    rewrite (active_count_interval w _ _ Hact). unfold spec_last. lia.
  - intros n (Hn & Hnd & Hno) [?|(k & e & He & _ & Heq)%active_nodes_spec]%elem_of_cons;
      [done|]. by apply (Hno k e).
Qed.

Lemma throttled_sweep_rebuilds_witness :
  let w' := sweep Throttling small_cfg (S (length (@nil element))) 400 small_scrolled in
  itemsInContainer w' = active_only (itemsInContainer small_scrolled)
  ∧ children w' = length (@nil element) :: active_nodes (itemsInContainer small_scrolled)
  ∧ row_nodes w' = active_count small_scrolled
  ∧ Z.of_nat (row_nodes w') ≤ Z.min (bufferSize small_cfg) (rowCount small_cfg)
  ∧ (∀ n, orphan (length (@nil element)) small_scrolled n → n ∉ children w').
Proof.
  apply (throttled_sweep_rebuilds small_cfg [] small_scrolled 400).
  - apply small_config_ok.
  - discriminate.
  - discriminate.
  - apply small_scrolled_reachable.
  - vm_compute. reflexivity.
Defined.

(** X7.  Sweeping is idempotent: after a sweep that ran with scrolling
    settled, another sweep, at any time, changes nothing at all, in
    either variant. *)
Theorem sweep_twice (v : variant) (cfg : config) (dom0 : list element)
    (w : world) (now now' : Z) :
  config_ok dom0 cfg → reachable v cfg dom0 w → 100 < now - lastScrolled w →
  sweep v cfg (S (length dom0)) now' (sweep v cfg (S (length dom0)) now w)
  = sweep v cfg (S (length dom0)) now w.
Proof.
  intros (Hih & Hp & Hpre) Hr Hnow.
  pose proof (reachable_Inv v cfg dom0 w Hp Hpre Hr) as HI.
  destruct (sweep_acts v cfg (S (length dom0)) now _ _ w HI Hnow)
    as (Ht & _ & _ & _ & _ & HI' & Hctl & _).
  set (w' := sweep v cfg (S (length dom0)) now w) in *.
  destruct v.
  - unfold sweep at 1. unfold handle. rewrite vlist_sweep_nothing; [done|].
    intros k e. rewrite Ht, active_only_lookup.
    destruct (itemsInContainer w !! k) as [e'|]; [|done].
    case_decide; [|done]. by intros [= <-].
  - destruct (Z.le_gt_cases (now' - lastScrolled w') 100) as [Hle|Hgt].
    { by apply sweep_idle. }
    unfold sweep at 1. unfold handle.
    rewrite (throttled_sweep_exact _ now' _ _ w' HI') by lia. simpl.
    assert (Hw' : w' = with_children
                         (λ _, length dom0 :: active_nodes (itemsInContainer w))
                         (with_table active_only w)).
    { unfold w', sweep, handle.
      by rewrite (throttled_sweep_exact _ now _ _ w HI Hnow). }
    rewrite Ht. unfold active_nodes. rewrite !active_only_idemp.
    fold (active_nodes (itemsInContainer w)).
    rewrite Hw'. destruct w. unfold with_children, with_table. simpl.
    by rewrite active_only_idemp.
Qed.

Lemma sweep_twice_witness :
  sweep Polling demo_cfg (S (length demo_dom)) 900
    (sweep Polling demo_cfg (S (length demo_dom)) 400 demo_scrolled)
  = sweep Polling demo_cfg (S (length demo_dom)) 400 demo_scrolled.
Proof.
  apply (sweep_twice Polling demo_cfg demo_dom demo_scrolled 400 900).
  - apply demo_config_ok.
  - apply demo_scrolled_reachable.
  - vm_compute. reflexivity.
Defined.

Lemma orphan_step cfg dom0 w n e :
  config_ok dom0 cfg → reachable Polling cfg dom0 w →
  (length dom0 ≤ n)%nat → orphan (length dom0) w n →
  orphan (length dom0) (step Polling cfg (S (length dom0)) e w) n.
Proof.
  intros (Hih & Hp & Hpre) Hr Hge (Hn & Hnd & Hno).
  pose proof (reachable_Inv _ cfg dom0 w Hp Hpre Hr) as HI.
  assert (Hlt : (n < length (heap w))%nat).
  { apply (wf_alloc _ _ _ _ HI). by rewrite app_nil_r. }
  destruct e as [s now|now].
  - destruct (repaint_due (spec_maxBuffer cfg) (lastRepaintY w) s) eqn:Hdue.
    + destruct (scroll_due Polling cfg (S (length dom0)) s now w Hp Hdue) as (Hrd & _).
      split_and!; [by apply (rd_keeps _ _ _ _ _ Hrd)|done|].
      intros k en Hk Heq.
      destruct (decide (chunk_start (cfg_itemHeight cfg) (visibleCount cfg) s ≤ k
                        < finalItem (rowCount cfg) (bufferSize cfg)
                            (chunk_start (cfg_itemHeight cfg) (visibleCount cfg) s)))
        as [Hin|Hout].
      * destruct (rd_in _ _ _ _ _ Hrd k Hin) as (nd & Hnd' & Hor).
        rewrite Hnd' in Hk. injection Hk as <-. simpl in Heq. subst nd.
        destruct Hor as [?|Hitem]; [lia|].
        apply (proj1 Hpre) in Hitem. lia.
      * rewrite (rd_out _ _ _ _ _ Hrd) in Hk by done.
        apply fmap_Some in Hk as (e0 & He0 & ->). by apply (Hno k e0).
    + rewrite scroll_idle by done. done.
  - change (step Polling cfg (S (length dom0)) (Tick now) w)
      with (sweep Polling cfg (S (length dom0)) now w).
    destruct (Z.le_gt_cases (now - lastScrolled w) 100) as [Hle|Hgt].
    { by rewrite sweep_idle. }
    unfold sweep. by_handler.
    eapply runs_conseq; [apply (vlist_sweep_runs _ now _ _ w HI); lia|].
    intros ? w' (Ht & Hch & _). split_and!; [|done|].
    + apply Hch. split; [done|]. intros (k & en & Hk & _ & Heq). by apply (Hno k en).
    + intros k en. rewrite Ht, active_only_lookup.
      destruct (itemsInContainer w !! k) as [e0|] eqn:He0; [|done].
      case_decide; [|done]. intros [= <-]. by apply (Hno k e0).
Qed.

(** X8.  [src/vlist.js] never removes a row node that the table has lost
    track of: a node that the list created, that is a child of the
    container and that no table entry refers to (the node of a row that was
    rendered again) is still such a child after any sequence of scroll and
    timer signals. *)
Theorem vlist_orphans_stay (cfg : config) (dom0 : list element) (w : world)
    (n : node_id) (es : list event) :
  config_ok dom0 cfg → reachable Polling cfg dom0 w →
  (length dom0 ≤ n)%nat → orphan (length dom0) w n →
  orphan (length dom0) (run Polling cfg (S (length dom0)) es w) n.
Proof.
  intros Hok Hr Hge Ho. revert w Hr Ho.
  induction es as [|e es IH]; intros w Hr Ho; [done|].
  change (orphan (length dom0)
            (run Polling cfg (S (length dom0)) es
               (step Polling cfg (S (length dom0)) e w)) n).
  apply IH; [by apply reach_step|by apply orphan_step].
Qed.

Lemma demo_rerendered_reachable : reachable Polling demo_cfg demo_dom demo_rerendered.
Proof. apply (reach_step Polling demo_cfg demo_dom demo_world), demo_reachable. Qed.

Lemma vlist_orphans_stay_witness :
  orphan (length demo_dom)
    (run Polling demo_cfg (S (length demo_dom))
       [Tick 400; Scroll 3000 500; Tick 900] demo_rerendered) 3%nat.
Proof.
  apply (vlist_orphans_stay demo_cfg demo_dom demo_rerendered 3%nat).
  - apply demo_config_ok.
  - apply demo_rerendered_reachable.
  - vm_compute. lia.
  - split_and!.
    + apply (bool_decide_unpack (3%nat ∈ children demo_rerendered)).
      vm_compute. exact I.
    + discriminate.
    + assert (H : map_Forall (λ (_ : Z) (e : entry), e_node e ≠ 3%nat)
                    (itemsInContainer demo_rerendered)).
      { apply (bool_decide_unpack
                 (map_Forall (λ (_ : Z) (e : entry), e_node e ≠ 3%nat)
                    (itemsInContainer demo_rerendered))).
        vm_compute. exact I. }
      intros k e He. exact (H k e He).
Defined.

(** ** Exceptions *)

Lemma throws_bind_l {A B} (m : M A) (k : A → M B) w e (Q : world → Prop) :
  throws m w e Q → throws (bind m k) w e Q.
Proof. intros (w' & Hm & HQ). exists w'. unfold bind. by rewrite Hm. Qed.

Lemma throws_bind_r {A B} (m : M A) (k : A → M B) w a w1 e (Q : world → Prop) :
  m w = (Ok a, w1) → throws (k a) w1 e Q → throws (bind m k) w e Q.
Proof. intros Hm (w' & Hk & HQ). exists w'. unfold bind. by rewrite Hm. Qed.

Lemma throws_conseq {A} (m : M A) w e (Q Q' : world → Prop) :
  throws m w e Q → (∀ w', Q w' → Q' w') → throws m w e Q'.
Proof. intros (w' & Hm & HQ) H. exists w'. auto. Qed.

(** The loop of [rmNodeInterval] over Stale indices of which one has a node
    that is not a child, or two have the same node. *)
Lemma remove_loop_blocked (xs : list Z) w :
  NoDup xs →
  (∀ x, x ∈ xs → ∃ e, itemsInContainer w !! x = Some e ∧ e_status e = Stale) →
  (∃ k e, k ∈ xs ∧ itemsInContainer w !! k = Some e
     ∧ ((e_node e ∉ children w)
        ∨ ∃ k2 e2, k2 ∈ xs ∧ k2 ≠ k ∧ itemsInContainer w !! k2 = Some e2
                   ∧ e_node e2 = e_node e)) →
  throws (forEach xs (λ index,
            w <- get ;;
            match itemsInContainer w !! index with
            | Some badItem =>
                removedNode <- container_removeChild (e_node badItem) ;;
                set_display removedNode "" ;;;
                modify (with_table (delete index))
            | None => throw TypeError
            end)) w NotFoundError
    (λ w', (∃ k e, itemsInContainer w' !! k = Some e ∧ e_status e = Stale
                   ∧ e_node e ∉ children w')
           ∧ control w' = control w
           ∧ (∀ k e, itemsInContainer w !! k = Some e → e_status e = Active →
                     itemsInContainer w' !! k = Some e)
           ∧ (∀ n, n ∈ children w' → n ∈ children w)).
Proof.
  intros Hnd. revert w.
  induction xs as [|x xs IH]; intros w Hst Hbad.
  { destruct Hbad as (k & ? & Hk & _). by apply elem_of_nil in Hk. }
  apply NoDup_cons in Hnd as [Hx Hnd].
  destruct (Hst x (list_elem_of_here _ _)) as (ex & Hex & Hsx).
  simpl. destruct (decide (e_node ex ∈ children w)) as [Hin|Hout].
  - set (w2 := with_table (delete x)
                 (with_heap (alter (restyle (λ s, Style (st_height s) ""
                                               (st_position s) (st_top s)))
                                   (e_node ex))
                    (with_children (detach (e_node ex)) w))).
    eapply (throws_bind_r _ _ _ tt w2).
    { cbv beta iota delta [bind get container_removeChild]. rewrite Hex.
      cbv beta iota. rewrite decide_True by done. reflexivity. }
    eapply throws_conseq.
    + apply IH; [done| |].
      * intros y Hy. destruct (Hst y) as (ey & Hey & Hsy); [by right|].
        exists ey. split; [|done]. simpl. rewrite lookup_delete_ne; [done|].
        intros ->. done.
      * destruct Hbad as (k & e & Hk & He & Hcase).
        apply elem_of_cons in Hk as [->|Hk].
        -- rewrite Hex in He. injection He as <-.
           destruct Hcase as [?|(k2 & e2 & Hk2 & Hne & He2 & Heq)]; [done|].
           apply elem_of_cons in Hk2 as [?|Hk2]; [done|].
           exists k2, e2. split_and!; [done| |].
           ++ simpl. by rewrite lookup_delete_ne.
           ++ left. simpl. rewrite elem_of_detach. intros [? _]. done.
        -- assert (k ≠ x) as Hkx by (intros ->; done).
           exists k, e. split_and!; [done| |].
           ++ simpl. by rewrite lookup_delete_ne.
           ++ destruct Hcase as [Hout|(k2 & e2 & Hk2 & Hne & He2 & Heq)].
              ** left. simpl. rewrite elem_of_detach. tauto.
              ** apply elem_of_cons in Hk2 as [->|Hk2].
                 --- left. simpl. rewrite elem_of_detach. intros [Hn _].
                     rewrite Hex in He2. injection He2 as <-. done.
                 --- right. exists k2, e2. split_and!; try done.
                     simpl. rewrite lookup_delete_ne; [done|]. intros ->. done.
    + simpl. intros w' (Hb & Hc & Ha & Hch). split_and!; try done.
      * intros k e He Hact. apply Ha; [|done]. simpl.
        rewrite lookup_delete_ne; [done|]. intros ->.
        rewrite Hex in He. injection He as <-. congruence.
      * intros n Hn. apply Hch in Hn. simpl in Hn.
        apply elem_of_detach in Hn. tauto.
  - apply throws_bind_l. exists w. split.
    + cbv beta iota delta [bind get container_removeChild]. rewrite Hex.
      cbv beta iota. rewrite decide_False by done. reflexivity.
    + split_and!; try done. by exists x, ex.
Qed.

(** X9. The sweep of [src/vlist.js] in a world where a Stale entry's node is
    not a child of the container, or where two Stale entries have the same
    node (one element given at two indices of the list): when it acts,
    [removeChild] throws NotFoundError; the callback ends there with a Stale
    entry left whose node is not a child, so that every later sweep that
    acts fails in the same way; the closure variables are unchanged, every
    Active entry is kept and no node is added to the container. *)
Theorem vlist_sweep_blocked (this : VList.t) (now : Z) (w : world) :
  sweep_blocked w → 100 < now - lastScrolled w →
  throws (VList.rmNodeInterval this now) w NotFoundError
    (λ w', sweep_blocked w'
           ∧ control w' = control w
           ∧ (∀ k e, itemsInContainer w !! k = Some e → e_status e = Active →
                     itemsInContainer w' !! k = Some e)
           ∧ (∀ n, n ∈ children w' → n ∈ children w)).
Proof.
  intros (k & e & He & Hst & Hcase) Hnow.
  unfold VList.rmNodeInterval.
  eapply (throws_bind_r _ _ _ w w); [done|].
  destruct (Z.ltb_spec 100 (now - lastScrolled w)) as [_|?]; [|lia].
  assert (Hmem : ∀ x, x ∈ filter (λ index, e_status <$> itemsInContainer w !! index
                                            = Some Stale)
                                 (Object_keys (itemsInContainer w))
                     ↔ ∃ ex, itemsInContainer w !! x = Some ex ∧ e_status ex = Stale).
  { intros x. rewrite list_elem_of_filter, Object_keys_spec. split.
    - intros [Hs _]. destruct (itemsInContainer w !! x) as [ex|]; [|done].
      exists ex. split; [done|]. simpl in Hs. congruence.
    - intros (ex & -> & Hs). simpl. rewrite Hs. split; [done|by eexists]. }
  eapply throws_conseq.
  - apply remove_loop_blocked.
    + apply NoDup_filter, Object_keys_NoDup.
    + intros x Hx. by apply Hmem.
    + exists k, e. split_and!; [apply Hmem; by exists e|done|].
      destruct Hcase as [?|(k2 & e2 & Hne & He2 & Hs2 & Heq)]; [by left|].
      right. exists k2, e2. split_and!; try done. apply Hmem. by exists e2.
  - simpl. intros w' ((k' & e' & He' & Hs' & Hout) & Hrest).
    split; [|done]. exists k', e'. split_and!; [done|done|by left].
Qed.

Lemma vlist_sweep_blocked_witness :
  throws (VList.rmNodeInterval (VList.instance twin_cfg 2%nat) 400) twin_scrolled
    NotFoundError
    (λ w', sweep_blocked w'
           ∧ control w' = control twin_scrolled
           ∧ (∀ k e, itemsInContainer twin_scrolled !! k = Some e →
                     e_status e = Active → itemsInContainer w' !! k = Some e)
           ∧ (∀ n, n ∈ children w' → n ∈ children twin_scrolled)).
Proof.
  apply (vlist_sweep_blocked (VList.instance twin_cfg 2%nat) 400 twin_scrolled).
  - exists 0, (Entry Stale 0%nat). split_and!; [vm_compute; reflexivity|done|].
    right. exists 1, (Entry Stale 0%nat).
    split_and!; [done|vm_compute; reflexivity|done|done].
  - vm_compute. reflexivity.
Defined.

(** X10. The sweep of the unnamed variant never throws, whatever the world
    it starts in (also one in which two entries have the same node, or an
    entry's node is not in the container): when it acts it returns with
    the Active entries as the table and, as children of the container,
    what was its first child and the nodes of the Active entries, and
    nothing else; the element store and the closure variables are
    unchanged.  When it does not act the world is unchanged. *)
Theorem throttled_sweep_never_throws (this : Throttled.t) (now : Z) (w : world) :
  runs (Throttled.rmNode this now) w (λ _ w',
    if decide (100 < now - lastScrolled w) then
      itemsInContainer w' = active_only (itemsInContainer w)
      ∧ (∀ n, n ∈ children w' ↔ n ∈ take 1 (children w) ∨ active_node w n)
      ∧ heap w' = heap w
      ∧ control w' = control w
    else w' = w).
Proof.
  destruct (decide (100 < now - lastScrolled w)) as [Hnow|Hnow].
  2:{ unfold Throttled.rmNode. apply runs_bind, runs_get.
      destruct (Z.ltb_spec 100 (now - lastScrolled w)) as [?|_]; [lia|].
      by apply runs_ret. }
  unfold Throttled.rmNode. apply runs_bind, runs_get.
  destruct (Z.ltb_spec 100 (now - lastScrolled w)) as [_|?]; [|lia].
  apply runs_bind, runs_modify, runs_bind, runs_get, runs_bind.
  eapply runs_eq; [apply remove_all_but_first_spec; simpl; lia|].
  apply runs_bind, runs_get. simpl. rewrite keep_active_spec.
  set (t0 := itemsInContainer w) in *. set (t1 := active_only t0).
  eapply runs_conseq.
  - apply (runs_forEach (λ rest w1,
      NoDup rest
      ∧ (∀ k, k ∈ rest → is_Some (t1 !! k))
      ∧ itemsInContainer w1 = t1
      ∧ (∀ n, n ∈ children w1 ↔
              n ∈ take 1 (children w)
              ∨ ∃ k e, (k ∉ rest) ∧ t1 !! k = Some e ∧ e_node e = n)
      ∧ heap w1 = heap w
      ∧ control w1 = control w)).
    + simpl. split_and!; try done.
      * apply Object_keys_NoDup.
      * intros k Hk. by apply Object_keys_spec.
      * apply keep_active_spec.
      * intros n. split; [by left|].
        intros [?|(k & e & Hk & He & _)]; [done|].
        destruct Hk. apply Object_keys_spec. by rewrite He.
    + intros x rest' w1 (Hnk & Hks & Ht & Hch & Hhp & Hctl).
      apply NoDup_cons in Hnk as [Hx Hnk].
      apply runs_bind, runs_get. rewrite Ht.
      destruct (Hks x (list_elem_of_here _ _)) as [e He]. rewrite He.
      unfold container_appendChild. apply runs_modify. simpl.
      split_and!; try done.
      * intros k Hk. apply Hks. by right.
      * intros n. rewrite elem_of_app, elem_of_detach, list_elem_of_singleton, Hch.
        split.
        -- intros [[Hne [?|(k & e' & Hk & He' & Heq)]]| ->]; [by left|..].
           ++ right. exists k, e'. split_and!; try done.
              intros ?. apply Hk. by right.
           ++ right. by exists x, e.
        -- intros [?|(k & e' & Hk & He' & Heq)].
           ++ destruct (decide (n = e_node e)) as [|Hne]; [by right|].
              left. split; [done|]. by left.
           ++ destruct (decide (n = e_node e)) as [|Hne]; [by right|].
              left. split; [done|]. right. exists k, e'. split_and!; try done.
              intros [->|?]%elem_of_cons; [|done].
              rewrite He in He'. injection He' as <-. done.
  - intros ? w' (_ & _ & Ht & Hch & Hhp & Hctl).
    split_and!; try done.
    intros n. rewrite Hch. split.
    + intros [?|(k & e & _ & He & Heq)]; [by left|]. right.
      unfold t1 in He. rewrite active_only_lookup in He.
      destruct (t0 !! k) as [e0|] eqn:He0; [|done].
      case_decide; [|done]. injection He as <-. by exists k, e0.
    + intros [?|(k & e & He & Ha & Heq)]; [by left|]. right.
      exists k, e. split_and!; [apply not_elem_of_nil| |done].
      unfold t1. rewrite active_only_lookup. fold t0 in He. rewrite He.
      by rewrite decide_True.
Qed.

Lemma throws_bind_runs {A B} (m : M A) (k : A → M B) w e (Q : world → Prop) :
  runs m w (λ a w1, throws (k a) w1 e Q) → throws (bind m k) w e Q.
Proof. intros (a & w1 & Hm & Hk). by eapply throws_bind_r. Qed.

(** One turn of the rendering loop: it throws a TypeError before it
    touches the table or the container when the item is one the factory
    hands back although it is no element, and otherwise sets the entry
    and takes the row into the fragment. *)
Lemma row_body_outcome v cfg c i fr w :
  ∃ r w', row_body v cfg c i fr w = (r, w')
    ∧ control w' = control w ∧ planned w' = planned w
    ∧ ((rejects v (items_get (items_of cfg) i) = true
        ∧ r = Throw TypeError
        ∧ itemsInContainer w' = itemsInContainer w ∧ children w' = children w)
       ∨ (rejects v (items_get (items_of cfg) i) = false
          ∧ ∃ n fr', r = Ok fr'
            ∧ itemsInContainer w' = <[i := Entry Active n]> (itemsInContainer w)
            ∧ children w' = detach n (children w))).
Proof.
  unfold items_of.
  destruct v; unfold row_body, vlist_body, throttled_body,
    VList.createRow, Throttled.createRow; simpl;
    unfold VList.prototype_generatorFn, Throttled.prototype_generatorFn;
    destruct (items_get (default [] (cfg_items cfg)) i) as [| |b|z|s|n]; simpl.
  all: try destruct b; try destruct (z =? 0); try destruct (String.eqb s "").
  all: simpl; eexists _, _; (split; [reflexivity|]);
    (split; [reflexivity|]); (split; [reflexivity|]).
  all: first [ left; split_and!; reflexivity
             | right; split; [reflexivity|]; eexists _, _; split_and!; reflexivity ].
Qed.

(** The rendering loop over a range that holds such an item. *)
Lemma for_rows_throws (I : world → Prop) body e n i j fr w :
  (∀ k fr w, I w → runs (body k fr) w (λ _ w', I w') ∨ throws (body k fr) w e I) →
  (∀ fr w, I w → throws (body j fr) w e I) →
  i ≤ j < i + Z.of_nat n → I w →
  throws (for_rows n i body fr) w e I.
Proof.
  intros Hany Hj. revert i fr w.
  induction n as [|n IH]; intros i fr w Hr HI; [lia|]. simpl.
  destruct (decide (i = j)) as [->|Hne].
  { by apply throws_bind_l, Hj. }
  destruct (Hany i fr w HI) as [Hrun|Hth].
  - apply throws_bind_runs. eapply runs_conseq; [exact Hrun|].
    intros fr' w' HI'. simpl. apply IH; [lia|done].
  - by apply throws_bind_l.
Qed.

(** [_renderChunk] over a window that holds such an item. *)
Lemma render_throws v cfg c from j w :
  from ≤ j < finalItem (rowCount cfg) (bufferSize cfg) from →
  rejects v (items_get (items_of cfg) j) = true →
  throws (render_with (rowCount cfg) (bufferSize cfg) (row_body v cfg c) from) w TypeError
    (λ w', control w' = control w
           ∧ planned w' = (from, finalItem (rowCount cfg) (bufferSize cfg) from) :: planned w
           ∧ (∀ n, n ∈ children w' → n ∈ children w)
           ∧ (∀ k e, itemsInContainer w' !! k = Some e → e_status e = Active →
                     e_node e ∉ children w')
           ∧ (∀ k, is_Some (itemsInContainer w !! k) →
                   is_Some (itemsInContainer w' !! k))).
Proof.
  intros Hj Hrej. unfold render_with.
  apply throws_bind_runs, runs_modify, throws_bind_runs, runs_get, throws_bind_runs.
  eapply runs_conseq; [apply mark_all_spec|].
  intros _ w1 (Ht & Hc & _ & Hctl & Hp & _). simpl in *.
  apply throws_bind_l.
  set (I := λ w' : world,
    control w' = control w
    ∧ planned w' = (from, finalItem (rowCount cfg) (bufferSize cfg) from) :: planned w
    ∧ (∀ n, n ∈ children w' → n ∈ children w)
    ∧ (∀ k e, itemsInContainer w' !! k = Some e → e_status e = Active →
              e_node e ∉ children w')
    ∧ (∀ k, is_Some (itemsInContainer w !! k) → is_Some (itemsInContainer w' !! k))).
  assert (Hstep : ∀ k fr w2, I w2 →
            (rejects v (items_get (items_of cfg) k) = false
             ∧ runs (row_body v cfg c k fr) w2 (λ _ w', I w'))
            ∨ (rejects v (items_get (items_of cfg) k) = true
               ∧ throws (row_body v cfg c k fr) w2 TypeError I)).
  { intros k fr w2 (Hc2 & Hp2 & Hch2 & Ha2 & Hk2).
    destruct (row_body_outcome v cfg c k fr w2)
      as (r & w' & Heq & Hc' & Hp' & [(Hr & -> & Ht' & Hch')|(Hr & n & fr' & -> & Ht' & Hch')]).
    - right. split; [done|]. exists w'. split; [done|].
      unfold I. rewrite Hc', Hp', Ht', Hch'. done.
    - left. split; [done|]. exists fr', w'. split; [done|].
      unfold I. rewrite Hc', Hp', Ht', Hch'. split_and!; try done.
      + intros m [_ Hm]%elem_of_detach. by apply Hch2.
      + intros k' e. destruct (decide (k' = k)) as [->|Hne].
        * rewrite lookup_insert_eq. intros [= <-] _. simpl.
          rewrite elem_of_detach. intros [? _]. done.
        * rewrite lookup_insert_ne by done. intros He Hact.
          rewrite elem_of_detach. intros [_ ?]. by apply (Ha2 k' e).
      + intros k' Hk'. destruct (decide (k' = k)) as [->|Hne].
        * rewrite lookup_insert_eq. by eexists.
        * rewrite lookup_insert_ne by done. by apply Hk2. }
  apply (for_rows_throws I _ _ _ _ j).
  - intros k fr w2 HI. destruct (Hstep k fr w2 HI) as [[_ ?]|[_ ?]]; [by left|by right].
  - intros fr w2 HI. destruct (Hstep j fr w2 HI) as [[? _]|[_ ?]]; [congruence|done].
  - lia.
  - unfold I. rewrite Hctl, Hp, Hc, Ht. split_and!; try done.
    + intros k e. rewrite lookup_fmap.
      destruct (itemsInContainer w !! k) as [e0|]; [|done].
      simpl. intros [= <-]. done.
    + intros k [e0 He0]. rewrite lookup_fmap, He0. by eexists.
Qed.

Lemma renderChunk_row_body v cfg c from :
  match v with
  | Polling => VList._renderChunk (VList.instance cfg c) from
  | Throttling => Throttled._renderChunk (Throttled.instance cfg c) from
  end = render_with (rowCount cfg) (bufferSize cfg) (row_body v cfg c) from.
Proof. rewrite <-bufferSize_code. by destruct v. Qed.

(** X11. A scroll signal that re-plans a window holding an item that the
    default factory hands back although it is no element (a number or
    boolean; only the truthy ones in [src/vlist.js], also [null], [0] and
    [false] in the unnamed variant): the handler ends in a TypeError in
    the middle of the rendering.  The anchor and the time of the last
    scroll are not updated (nor is the sweep armed in the variant), the
    window has been planned, every entry that was in the table is still
    there, no node has been added to the container, and no Active entry's
    node is a child of the container: the rows made before the failure
    stay in the fragment that is lost. *)
Theorem scroll_rejects_item (v : variant) (cfg : config) (c : node_id)
    (s now : Z) (w : world) (j : Z) :
  repaint_due (spec_maxBuffer cfg) (lastRepaintY w) s = true →
  chunk_start (cfg_itemHeight cfg) (visibleCount cfg) s ≤ j
    < spec_last cfg (chunk_start (cfg_itemHeight cfg) (visibleCount cfg) s) →
  rejects v (items_get (items_of cfg) j) = true →
  throws (onScroll v cfg c s now) w TypeError (λ w',
    control w' = control w
    ∧ head (planned w')
      = Some (chunk_start (cfg_itemHeight cfg) (visibleCount cfg) s,
              spec_last cfg (chunk_start (cfg_itemHeight cfg) (visibleCount cfg) s))
    ∧ (∀ n, n ∈ children w' → n ∈ children w)
    ∧ (∀ k e, itemsInContainer w' !! k = Some e → e_status e = Active →
              e_node e ∉ children w')
    ∧ (∀ k, is_Some (itemsInContainer w !! k) → is_Some (itemsInContainer w' !! k))).
Proof.
  intros Hdue Hj Hrej. rewrite <-finalItem_spec in Hj.
  pose proof (render_throws v cfg c _ j w Hj Hrej) as Hth.
  rewrite <-renderChunk_row_body in Hth. rewrite <-finalItem_spec.
  destruct v; unfold onScroll.
  - unfold VList.onScroll. apply throws_bind_runs, runs_get.
    change (VList.maxBuffer (VList.instance cfg c)) with (spec_maxBuffer cfg).
    rewrite Hdue. apply throws_bind_l, throws_bind_l.
    eapply throws_conseq; [exact Hth|]. intros w' (Hc & Hp & Hrest).
    split; [done|]. split; [by rewrite Hp|done].
  - unfold Throttled.onScroll. apply throws_bind_runs, runs_get.
    change (Throttled.maxBuffer (Throttled.instance cfg c)) with (spec_maxBuffer cfg).
    rewrite Hdue. apply throws_bind_l, throws_bind_l.
    eapply throws_conseq; [exact Hth|]. intros w' (Hc & Hp & Hrest).
    split; [done|]. split; [by rewrite Hp|done].
Qed.

Lemma scroll_rejects_item_witness :
  throws (onScroll Polling late_cfg 1%nat 60 10) late_world TypeError (λ w',
    control w' = control late_world
    ∧ head (planned w')
      = Some (chunk_start (cfg_itemHeight late_cfg) (visibleCount late_cfg) 60,
              spec_last late_cfg
                (chunk_start (cfg_itemHeight late_cfg) (visibleCount late_cfg) 60))
    ∧ (∀ n, n ∈ children w' → n ∈ children late_world)
    ∧ (∀ k e, itemsInContainer w' !! k = Some e → e_status e = Active →
              e_node e ∉ children w')
    ∧ (∀ k, is_Some (itemsInContainer late_world !! k) →
            is_Some (itemsInContainer w' !! k))).
Proof.
  apply (scroll_rejects_item Polling late_cfg 1%nat 60 10 late_world 5).
  - vm_compute. reflexivity.
  - vm_compute. split; [discriminate|reflexivity].
  - vm_compute. reflexivity.
Defined.

(** X12. [new VirtualList(config)] ends in a TypeError, and returns no
    instance, when the first window [0, min(totalRows, bufferSize)) holds
    an item that the default factory hands back although it is no
    element: a truthy number or boolean in [src/vlist.js]; any number or
    boolean, or [null], in the unnamed variant. *)
Theorem constructor_rejects_item (v : variant) (cfg : config) (dom0 : list element)
    (j : Z) :
  0 ≤ j < spec_last cfg 0 →
  rejects v (items_get (items_of cfg) j) = true →
  construction v cfg dom0 = Some TypeError
  ∧ ∀ w0, ¬ constructed v cfg dom0 w0.
Proof.
  intros Hj Hrej. rewrite <-finalItem_spec in Hj.
  pose proof (λ c w, render_throws v cfg c 0 j w Hj Hrej) as Hr.
  setoid_rewrite <-renderChunk_row_body in Hr.
  destruct v.
  - assert (Hth : throws (VList.VirtualList cfg) (fresh_world dom0) TypeError (λ _, True)).
    { unfold VList.VirtualList.
      apply throws_bind_runs, runs_modify, throws_bind_runs.
      match goal with |- runs (createScroller ?h) ?w _ =>
        destruct (createScroller_eq h w) as [e1 He1] end.
      eapply runs_eq; [exact He1|]. apply throws_bind_runs.
      match goal with |- runs (createContainer ?h) ?w _ =>
        destruct (createContainer_eq h w) as [e2 He2] end.
      eapply runs_eq; [exact He2|].
      unfold container_appendChild. apply throws_bind_runs, runs_modify.
      apply throws_bind_l. eapply throws_conseq; [apply Hr|done]. }
    destruct Hth as (w' & Heq & _). unfold construction, constructed.
    rewrite Heq. split; [done|]. intros w0 [this H]. discriminate H.
  - assert (Hth : throws (Throttled.VirtualList cfg) (fresh_world dom0) TypeError
                         (λ _, True)).
    { unfold Throttled.VirtualList.
      apply throws_bind_runs, runs_modify, throws_bind_runs.
      match goal with |- runs (createScroller ?h) ?w _ =>
        destruct (createScroller_eq h w) as [e1 He1] end.
      eapply runs_eq; [exact He1|]. apply throws_bind_runs.
      match goal with |- runs (createContainer ?h) ?w _ =>
        destruct (createContainer_eq h w) as [e2 He2] end.
      eapply runs_eq; [exact He2|].
      unfold container_appendChild. apply throws_bind_runs, runs_modify.
      apply throws_bind_l. eapply throws_conseq; [apply Hr|done]. }
    destruct Hth as (w' & Heq & _). unfold construction, constructed.
    rewrite Heq. split; [done|]. intros w0 [this H]. discriminate H.
Qed.

Lemma constructor_rejects_item_witness :
  construction Throttling null_cfg [] = Some TypeError
  ∧ ∀ w0, ¬ constructed Throttling null_cfg [] w0.
Proof.
  apply (constructor_rejects_item Throttling null_cfg [] 1).
  - vm_compute. split; [discriminate|reflexivity].
  - vm_compute. reflexivity.
Defined.

(** ** The element store *)

Lemma runs_and {A} (m : M A) w (Q1 Q2 : A → world → Prop) :
  runs m w Q1 → runs m w Q2 → runs m w (λ a w', Q1 a w' ∧ Q2 a w').
Proof.
  intros (a & w' & Hm & H1) (a2 & w2 & Hm2 & H2).
  rewrite Hm in Hm2. injection Hm2 as <- <-. by exists a, w'.
Qed.

Lemma dress_lookup (f1 f2 f3 f4 : element → element) n (H : list element) m :
  alter f4 n (alter f3 n (alter f2 n (alter f1 n H))) !! m
  = if decide (m = n) then (λ e, f4 (f3 (f2 (f1 e)))) <$> H !! m else H !! m.
Proof.
  destruct (decide (m = n)) as [->|Hne].
  - rewrite !list_lookup_alter_eq. by destruct (H !! n).
  - by rewrite !list_lookup_alter_ne.
Qed.

(** The default factory of either variant on a documented item. *)
Lemma default_factory_eq v cfg i w0 :
  items_plain (items_of cfg) →
  let gen := match v with
             | Polling => VList.prototype_generatorFn (items_of cfg) (cfg_itemHeight cfg) i
             | Throttling => Throttled.prototype_generatorFn (items_of cfg) i (cfg_itemHeight cfg)
             end in
  (∃ txt, match items_get (items_of cfg) i with
          | VStr s => foldr String.append "" txt = s
          | VNode _ => False
          | _ => txt = []
          end
          ∧ gen w0 = (Ok (VNode (length (heap w0))),
                      with_heap (λ h, h ++ [row_div (cfg_itemHeight cfg) txt]) w0))
  ∨ (∃ n, items_get (items_of cfg) i = VNode n ∧ gen w0 = (Ok (VNode n), w0)).
Proof.
  intros Hplain gen. subst gen. specialize (Hplain i).
  destruct (items_get (items_of cfg) i) as [| |b|z|s|n] eqn:Hi; try done.
  - left. exists []. split; [done|]. destruct v.
    + apply vlist_factory_falsy. by rewrite Hi.
    + by apply throttled_factory_undefined.
  - left. destruct v.
    + destruct (decide (s = "")) as [->|Hs].
      * exists []. split; [done|]. apply vlist_factory_falsy. by rewrite Hi.
      * exists [s]. split; [simpl; apply append_empty_r|].
        by apply vlist_factory_string.
    + exists [s]. split; [simpl; apply append_empty_r|].
      by apply throttled_factory_string.
  - right. exists n. split; [done|]. destruct v.
    + by apply vlist_factory_node.
    + rewrite <-Hi. apply throttled_factory_other; rewrite Hi; done.
Qed.

Lemma lookup_snoc_ne {A} (l : list A) (x : A) (m : nat) :
  m ≠ length l → (l ++ [x]) !! m = l !! m.
Proof.
  intros Hm. destruct (decide (m < length l)%nat) as [Hlt|Hge].
  - by rewrite lookup_app_l.
  - rewrite !lookup_ge_None_2; [done|lia|]. rewrite length_app. simpl. lia.
Qed.

(** What [createRow] makes of the element the factory returned. *)
Lemma dressed_row_of cfg i n (el0 : element) :
  match items_get (items_of cfg) i with
  | VNode m => n = m
  | VStr s => el_tag el0 = "div"
              ∧ foldr String.append "" (el_text el0) = s
              ∧ st_height (el_style el0) = Some (Px (cfg_itemHeight cfg))
  | _ => el_tag el0 = "div" ∧ el_text el0 = []
         ∧ st_height (el_style el0) = Some (Px (cfg_itemHeight cfg))
  end →
  row_of cfg i Active n
    (restyle (λ s, Style (st_height s) (st_display s) (st_position s)
                         (Some (i * cfg_itemHeight cfg)))
       (restyle (λ s, Style (st_height s) (st_display s) "absolute" (st_top s))
          (restyle (λ s, Style (st_height s) "" (st_position s) (st_top s))
             (Element (el_tag el0) (el_text el0)
                (if decide ("vrow" ∈ el_class el0) then el_class el0
                 else el_class el0 ++ ["vrow"])
                (el_style el0))))).
Proof.
  intros Hc. unfold row_of. simpl. split_and!; try done.
  case_decide; [done|]. apply elem_of_app. right. by left.
Qed.

(** One turn of the rendering loop, with what it does to the elements. *)
Lemma row_body_step v cfg c i fr w :
  items_plain (items_of cfg) → 0 ≤ cfg_itemHeight cfg →
  runs (row_body v cfg c i fr) w (λ fr' w', ∃ n,
    row_step (items_of cfg) i n fr w fr' w'
    ∧ (∀ m, m ≠ n → heap w' !! m = heap w !! m)
    ∧ ((n < length (heap w))%nat ∨ items_get (items_of cfg) i ≠ VNode n →
       ∃ el, heap w' !! n = Some el ∧ row_of cfg i Active n el)).
Proof.
  intros Hplain Hih.
  assert (Hrd : ∀ txt, el_style (row_div (cfg_itemHeight cfg) txt)
                       = Style (Some (Px (cfg_itemHeight cfg))) "" "" None).
  { intros txt. unfold row_div, assign_height. simpl.
    by destruct (Z.leb_spec 0 (cfg_itemHeight cfg)); [|lia]. }
  destruct (default_factory_eq v cfg i (with_produced (cons i) w) Hplain)
    as [(txt & Htxt & He)|(n & Hi & He)]; cbv zeta in He.
  - assert (Hnn : ∀ n, items_get (items_of cfg) i ≠ VNode n).
    { intros n Hi. by rewrite Hi in Htxt. }
    destruct v;
      unfold runs, row_body, vlist_body, throttled_body, VList.createRow,
        Throttled.createRow, fragment_appendChild, bind, modify;
      [change (VList.generatorFn (VList.instance cfg c) i)
         with (VList.prototype_generatorFn (items_of cfg) (cfg_itemHeight cfg) i)
      |change (Throttled.generatorFn (Throttled.instance cfg c)
                 (Throttled.items (Throttled.instance cfg c)) i
                 (Throttled.itemHeight (Throttled.instance cfg c)))
         with (Throttled.prototype_generatorFn (items_of cfg) i (cfg_itemHeight cfg))];
      rewrite He; cbn [as_element ret];
      unfold classList_add, set_display, set_position, set_top, update, modify, ret; cbn;
      (eexists _, _; split; [reflexivity|]); eexists; split_and!.
    all: try (split; simpl; try done; left; split; [done|];
              rewrite !length_alter, length_app; simpl; lia).
    all: try (intros m Hm; simpl; rewrite dress_lookup, decide_False by done;
              by apply lookup_snoc_ne).
    all: intros _; simpl; rewrite dress_lookup, decide_True by done;
      rewrite list_lookup_middle by done; simpl; eexists; (split; [reflexivity|]);
      apply (dressed_row_of cfg i _ (row_div (cfg_itemHeight cfg) txt));
      destruct (items_get (items_of cfg) i); rewrite ?Hrd; simpl; done.
  - destruct v;
      unfold runs, row_body, vlist_body, throttled_body, VList.createRow,
        Throttled.createRow, fragment_appendChild, bind, modify;
      [change (VList.generatorFn (VList.instance cfg c) i)
         with (VList.prototype_generatorFn (items_of cfg) (cfg_itemHeight cfg) i)
      |change (Throttled.generatorFn (Throttled.instance cfg c)
                 (Throttled.items (Throttled.instance cfg c)) i
                 (Throttled.itemHeight (Throttled.instance cfg c)))
         with (Throttled.prototype_generatorFn (items_of cfg) i (cfg_itemHeight cfg))];
      rewrite He; cbn [as_element ret];
      unfold classList_add, set_display, set_position, set_top, update, modify, ret; cbn;
      (eexists _, _; split; [reflexivity|]); exists n; split_and!.
    all: try (split; simpl; try done; right; split; [done|]; by rewrite !length_alter).
    all: try (intros m Hm; simpl; by rewrite dress_lookup, decide_False).
    all: intros [Hn|Hn]; [|done]; simpl; rewrite dress_lookup, decide_True by done;
      apply lookup_lt_is_Some in Hn as [el0 Hel0]; rewrite Hel0; simpl;
      eexists; (split; [reflexivity|]);
      apply (dressed_row_of cfg i n el0); by rewrite Hi.
Qed.

Lemma row_of_hidden cfg k st n (el : element) :
  row_of cfg k st n el →
  row_of cfg k Stale n
    (restyle (λ s, Style (st_height s) "none" (st_position s) (st_top s)) el).
Proof.
  unfold row_of. simpl. intros (? & ? & ? & _ & ?). done.
Qed.

(** The first loop of [_renderChunk], as far as the elements go: the node
    of every entry is hidden, and nothing else is written. *)
Lemma mark_all_heap w :
  runs (forEach (Object_keys (itemsInContainer w)) (λ key,
          w <- get ;;
          match itemsInContainer w !! key with
          | Some itemInContainer =>
              modify (with_table <[key := Entry Stale (e_node itemInContainer)]>) ;;;
              set_display (e_node itemInContainer) "none"
          | None => throw TypeError
          end)) w
       (λ _ w',
          (∀ k e, itemsInContainer w !! k = Some e →
                  heap w' !! e_node e
                  = restyle (λ s, Style (st_height s) "none" (st_position s) (st_top s))
                      <$> heap w !! e_node e)
          ∧ (∀ m, (∀ k e, itemsInContainer w !! k = Some e → e_node e ≠ m) →
                  heap w' !! m = heap w !! m)).
Proof.
  set (t0 := itemsInContainer w).
  set (hide := restyle (λ s, Style (st_height s) "none" (st_position s) (st_top s))).
  assert (Hidem : ∀ o : option element, hide <$> (hide <$> o) = hide <$> o).
  { by intros [[? ? ? []]|]. }
  assert (Hh2 : ∀ a b : option element, a = b ∨ a = hide <$> b → hide <$> a = hide <$> b).
  { intros a b [->| ->]; [done|apply Hidem]. }
  eapply runs_conseq.
  - apply (runs_forEach (λ rest w1,
      (∀ k, k ∈ rest → is_Some (t0 !! k))
      ∧ (∀ k, e_node <$> itemsInContainer w1 !! k = e_node <$> t0 !! k)
      ∧ (∀ m, heap w1 !! m = heap w !! m ∨ heap w1 !! m = hide <$> heap w !! m)
      ∧ (∀ k e, k ∉ rest → t0 !! k = Some e →
                heap w1 !! e_node e = hide <$> heap w !! e_node e)
      ∧ (∀ m, (∀ k e, t0 !! k = Some e → e_node e ≠ m) →
              heap w1 !! m = heap w !! m))).
    + split_and!; try done.
      * intros k Hk. by apply Object_keys_spec.
      * by left.
      * intros k e Hk He. destruct Hk. apply Object_keys_spec. by rewrite He.
    + intros x rest w1 (Hin & Hnode & Hany & Hdone & Hfr).
      destruct (Hin x (list_elem_of_here _ _)) as [e0 He0].
      pose proof (Hnode x) as Hx. rewrite He0 in Hx.
      destruct (itemsInContainer w1 !! x) as [e1|] eqn:He1; [|done].
      simpl in Hx. injection Hx as Hx.
      apply runs_bind, runs_get. rewrite He1. step_runs.
      unfold set_display, update. step_runs. simpl. fold hide.
      assert (Hnew : ∀ m, alter hide (e_node e1) (heap w1) !! m
                          = if decide (m = e_node e1) then hide <$> heap w1 !! m
                            else heap w1 !! m).
      { intros m. case_decide as Hm.
        - subst m. apply list_lookup_alter_eq.
        - by apply list_lookup_alter_ne. }
      split_and!.
      * intros k Hk. apply Hin. by right.
      * intros k. destruct (decide (k = x)) as [->|Hne].
        -- rewrite lookup_insert_eq, He0. simpl. by rewrite Hx.
        -- by rewrite lookup_insert_ne.
      * intros m. rewrite Hnew. case_decide; [|done]. right. apply Hh2, Hany.
      * intros k e Hk He. rewrite Hnew.
        destruct (decide (k = x)) as [->|Hne].
        -- rewrite He0 in He. injection He as <-. rewrite Hx, decide_True by done.
           rewrite <-Hx. apply Hh2, Hany.
        -- assert (k ∉ x :: rest) as Hk' by (intros [?|?]%elem_of_cons; done).
           case_decide as Hm; [|by apply (Hdone k)].
           rewrite (Hdone k e Hk' He). apply Hidem.
      * intros m Hm. rewrite Hnew, decide_False; [by apply Hfr|].
        intros ->. apply (Hm x e0 He0). done.
  - intros _ w' (_ & _ & _ & Hdone & Hfr). split; [|done].
    intros k e He. apply (Hdone k e); [apply not_elem_of_nil|done].
Qed.

Lemma Shown_same cfg dom0 w w' :
  heap w' = heap w → itemsInContainer w' = itemsInContainer w →
  Shown cfg dom0 w → Shown cfg dom0 w'.
Proof. intros Hh Ht [? ? ? ? ?]. split; rewrite ?Hh, ?Ht; done. Qed.

(** A rendering keeps the elements as they should be. *)
Lemma render_Shown v cfg c dom0 from w :
  items_plain (items_of cfg) → 0 ≤ cfg_itemHeight cfg →
  prebuilt_ok (length dom0) (items_of cfg) →
  Inv (items_of cfg) (length dom0) w → Shown cfg dom0 w →
  runs (render_with (rowCount cfg) (bufferSize cfg) (row_body v cfg c) from) w
       (λ _ w', Shown cfg dom0 w').
Proof.
  intros Hplain Hih Hpre HI HS. unfold render_with.
  apply runs_bind, runs_modify, runs_bind, runs_get, runs_bind.
  eapply runs_conseq; [apply (runs_and _ _ _ _ (mark_all_spec _) (mark_all_heap _))|].
  intros ? w1 ((Ht1 & Hc1 & Hh1 & _) & Hhid & Hfr). simpl in *.
  assert (HI1 : well_formed (items_of cfg) (length dom0) [] w1).
  { destruct HI as [Hh Hs Hnod Hal Hin Hrow Hpb Hij].
    split; rewrite ?Hc1, ?Hh1, ?Ht1; try done.
    - intros k e. rewrite lookup_fmap. intros He.
      apply fmap_Some in He as (e0 & He0 & ->). simpl. by apply (Hin k).
    - intros k e. rewrite lookup_fmap. intros He.
      apply fmap_Some in He as (e0 & He0 & ->). simpl. by apply (Hrow k).
    - intros k e. rewrite lookup_fmap. intros He.
      apply fmap_Some in He as (e0 & He0 & ->). simpl. by apply (Hpb k).
    - intros k1 k2 e1 e2. rewrite !lookup_fmap. intros H1 H2.
      apply fmap_Some in H1 as (e1' & H1 & ->).
      apply fmap_Some in H2 as (e2' & H2 & ->). simpl. by apply (Hij _ _ _ _ H1 H2). }
  assert (HS1 : Shown cfg dom0 w1).
  { destruct HI as [Hh Hs Hnod Hal Hin Hrow Hpb Hij].
    destruct HS as [Srows Snc Ssc Sco Sdoc]. split.
    - intros k e. rewrite Ht1, lookup_fmap. intros He.
      apply fmap_Some in He as (e0 & He0 & ->). simpl.
      destruct (Srows k e0 He0) as (el & Hel & Hrow_of).
      rewrite (Hhid k e0 He0), Hel. simpl. eexists. split; [done|].
      by eapply row_of_hidden.
    - intros k e. rewrite Ht1, lookup_fmap. intros He.
      apply fmap_Some in He as (e0 & He0 & ->). simpl. by apply (Snc k).
    - rewrite Hfr; [done|]. intros k e He. by apply (Hrow k).
    - rewrite Hfr; [done|]. intros k e He. by apply (Snc k).
    - intros m Hm Hitem. rewrite Hfr; [by apply Sdoc|].
      intros k e He Heq. apply (Hitem k). rewrite <-Heq. apply (Hpb k e He). lia. }
  apply runs_bind.
  eapply runs_conseq.
  { apply (runs_for_rows (λ _ _ fr w',
      well_formed (items_of cfg) (length dom0) fr w' ∧ Shown cfg dom0 w'));
      [by split|].
    intros cnt j fr w2 [Hwf HS2]. eapply runs_conseq; [by apply row_body_step|].
    intros fr' w3 (nd & Hstep & Hoth & Hnew). simpl.
    split; [by eapply row_step_well_formed|].
    destruct Hpre as [Hlt Hinj].
    destruct Hwf as [Hh Hs Hnod Hal Hin Hrow Hpb Hij].
    destruct HS2 as [Srows Snc Ssc Sco Sdoc].
    destruct Hstep as [_ Ht _ _ _ _ Hnd].
    assert (Hcase : (nd = length (heap w2) ∧ items_get (items_of cfg) j ≠ VNode nd)
                    ∨ (items_get (items_of cfg) j = VNode nd ∧ (nd < length dom0)%nat)).
    { destruct Hnd as [[-> _]|[Hi _]].
      - left. split; [done|]. intros Hi. apply Hlt in Hi. lia.
      - right. split; [done|]. by apply Hlt in Hi. }
    assert (Hfar : nd ≠ length dom0 ∧ nd ≠ S (length dom0)
                   ∧ ∀ m, (m < length dom0)%nat →
                          (∀ i, items_get (items_of cfg) i ≠ VNode m) → m ≠ nd).
    { destruct Hcase as [[-> _]|[Hi Hn]].
      - split_and!; intros; lia.
      - split_and!; try lia. intros m Hm Hitem ->. by apply (Hitem j). }
    destruct Hfar as (Hd & Hsd & Hdoc).
    assert (Hold : ∀ k e, itemsInContainer w2 !! k = Some e → k ≠ j → e_node e ≠ nd).
    { intros k e Hk Hkj Heq. destruct Hcase as [[-> _]|[Hi Hn]].
      - apply Hin, Hal in Hk. lia.
      - apply Hkj, (Hinj _ _ nd); [|done]. rewrite <-Heq. apply (Hpb _ _ Hk).
        by rewrite Heq. }
    split.
    - intros k e. rewrite Ht. destruct (decide (k = j)) as [->|Hne].
      + rewrite lookup_insert_eq. intros [= <-]. simpl. apply Hnew.
        destruct Hcase as [[_ Hc]|[_ Hn]]; [by right|left; lia].
      + rewrite lookup_insert_ne by done. intros He.
        rewrite Hoth by (by apply (Hold k)). by apply Srows.
    - intros k e. rewrite Ht. destruct (decide (k = j)) as [->|Hne].
      + rewrite lookup_insert_eq. by intros [= <-].
      + rewrite lookup_insert_ne by done. by apply Snc.
    - by rewrite Hoth.
    - by rewrite Hoth.
    - intros m Hm Hitem. rewrite Hoth; [by apply Sdoc|]. by apply Hdoc. }
  intros fr w2 (_ & _ & HS2).
  unfold container_appendFragment. apply runs_modify.
  eapply Shown_same; [..|exact HS2]; done.
Qed.

Lemma createScroller_exact h w :
  createScroller h w
  = (Ok (length (heap w)),
     with_heap (λ hp, hp ++ [Element "div" [] ["vScroller"]
                                     (Style (assign_height (Px h) None)
                                            "" "absolute" (Some 0))]) w).
Proof.
  destruct w. unfold createScroller, set_position, set_top, set_height, set_css_height, classList_add,
    update, createElement, bind, modify, ret, with_heap. simpl.
  by rewrite !alter_new.
Qed.

Lemma createContainer_exact h w :
  createContainer h w
  = (Ok (length (heap w)),
     with_heap (λ hp, hp ++ [Element "div" [] ["vContainer"]
                                     (Style (assign_height h None)
                                            "" "relative" None)]) w).
Proof.
  destruct w; unfold createContainer, set_position, set_css_height, classList_add,
    update, createElement, bind, modify, ret, with_heap; simpl;
    by rewrite !alter_new.
Qed.

(** The world in which the constructor of either variant calls
    [_renderChunk]. *)
Lemma new_Shown v cfg dom0 w0 :
  items_plain (items_of cfg) → 0 ≤ cfg_itemHeight cfg →
  prebuilt_ok (length dom0) (items_of cfg) →
  constructed v cfg dom0 w0 → Shown cfg dom0 w0.
Proof.
  intros Hplain Hih Hpre Hc.
  assert (Hrender : ∀ w1,
    heap w1 = (dom0 ++ [scroller_element cfg]) ++ [container_element cfg] →
    children w1 = [length dom0] → itemsInContainer w1 = ∅ →
    runs (match v with
          | Polling => VList._renderChunk (VList.instance cfg (S (length dom0))) 0
          | Throttling =>
              Throttled._renderChunk (Throttled.instance cfg (S (length dom0))) 0
          end) w1 (λ _ w2, Shown cfg dom0 w2)).
  { intros w1 Hh Hch Ht. rewrite renderChunk_row_body.
    apply render_Shown; try done.
    - apply Inv_new; try done. rewrite Hh, !length_app. simpl. lia.
    - split; rewrite ?Hh, ?Ht; try done.
      + rewrite lookup_app_l by (rewrite length_app; simpl; lia).
        rewrite (lookup_app_r dom0) by lia. by rewrite Nat.sub_diag.
      + rewrite lookup_app_r by (rewrite length_app; simpl; lia).
        rewrite length_app. simpl.
        by replace (S (length dom0) - (length dom0 + 1))%nat with 0%nat by lia.
      + intros m Hm _. rewrite <-app_assoc. by rewrite lookup_app_l. }
  destruct v; destruct Hc as [this Hc].
  - refine (runs_result _ _ _ _ (λ _ w', Shown cfg dom0 w') _ Hc).
    unfold VList.VirtualList.
    apply runs_bind, runs_modify, runs_bind.
    eapply runs_eq; [apply createScroller_exact|]. apply runs_bind.
    eapply runs_eq; [apply createContainer_exact|].
    unfold container_appendChild. step_runs.
    eapply runs_conseq.
    { apply Hrender; simpl; rewrite ?length_app, ?Nat.add_1_r; done. }
    intros ? w2 HS2. step_runs. eapply Shown_same; [..|exact HS2]; done.
  - refine (runs_result _ _ _ _ (λ _ w', Shown cfg dom0 w') _ Hc).
    unfold Throttled.VirtualList.
    apply runs_bind, runs_modify, runs_bind.
    eapply runs_eq; [apply createScroller_exact|]. apply runs_bind.
    eapply runs_eq; [apply createContainer_exact|].
    unfold container_appendChild. step_runs.
    eapply runs_conseq.
    { apply Hrender; simpl; rewrite ?length_app, ?Nat.add_1_r; done. }
    intros ? w2 HS2. step_runs. eapply Shown_same; [..|exact HS2]; done.
Qed.

(** The loop of [rmNodeInterval] writes to the nodes of the entries it
    goes through only, however it ends. *)
Lemma remove_loop_heap (xs : list Z) w r w' m :
  forEach xs (λ index,
    w <- get ;;
    match itemsInContainer w !! index with
    | Some badItem =>
        removedNode <- container_removeChild (e_node badItem) ;;
        set_display removedNode "" ;;;
        modify (with_table (delete index))
    | None => throw TypeError
    end) w = (r, w') →
  (∀ x e, x ∈ xs → itemsInContainer w !! x = Some e → e_node e ≠ m) →
  heap w' !! m = heap w !! m.
Proof.
  revert w. induction xs as [|x xs IH]; intros w Heq Hm.
  { by injection Heq as _ <-. }
  simpl in Heq.
  cbv beta iota delta [bind get container_removeChild modify ret set_display
                       update throw] in Heq.
  destruct (itemsInContainer w !! x) as [e|] eqn:He.
  2:{ by injection Heq as _ <-. }
  destruct (decide (e_node e ∈ children w)) as [Hin|Hout].
  2:{ by injection Heq as _ <-. }
  rewrite (IH _ Heq).
  - simpl. apply list_lookup_alter_ne. apply (Hm x e); [by left|done].
  - simpl. intros y ey Hy Hey. apply lookup_delete_Some in Hey as [_ Hey].
    apply (Hm y ey); [by right|done].
Qed.

(** The sweep of either variant, when it acts, leaves every element alone
    that is not the node of a Stale entry. *)
Lemma sweep_heap v cfg c now items d w m :
  Inv items d w → 100 < now - lastScrolled w →
  ¬ stale_node w m → heap (sweep v cfg c now w) !! m = heap w !! m.
Proof.
  intros HI Hnow Hm. destruct v; unfold sweep, handle.
  - unfold VList.rmNodeInterval, bind at 1, get at 1.
    destruct (Z.ltb_spec 100 (now - lastScrolled w)) as [_|?]; [|lia].
    match goal with |- heap (snd (?f w)) !! _ = _ =>
      destruct (f w) as [r w'] eqn:Heq end.
    simpl. apply (remove_loop_heap _ _ _ _ _ Heq).
    intros x e [Hs _]%list_elem_of_filter He Heq'. subst m. apply Hm.
    exists x, e. split_and!; [done| |done].
    rewrite He in Hs. simpl in Hs. congruence.
  - by rewrite (throttled_sweep_exact _ _ _ _ _ HI Hnow).
Qed.

Lemma Shown_sweep v cfg c now dom0 w :
  Inv (items_of cfg) (length dom0) w → Shown cfg dom0 w →
  Shown cfg dom0 (sweep v cfg c now w).
Proof.
  intros HI HS.
  destruct (Z.le_gt_cases (now - lastScrolled w) 100) as [Hle|Hgt].
  { by rewrite sweep_idle. }
  destruct (sweep_acts v cfg c now _ _ w HI) as (Ht & _); [lia|].
  pose proof (λ m, sweep_heap v cfg c now _ _ w m HI ltac:(lia)) as Hfr.
  cbv zeta in Ht.
  unfold Inv in HI. destruct HI as [Hh Hs Hnod Hal Hin Hrow Hpb Hij].
  destruct HS as [Srows Snc Ssc Sco Sdoc].
  assert (Hact : ∀ k e, active_only (itemsInContainer w) !! k = Some e →
                        itemsInContainer w !! k = Some e ∧ e_status e = Active).
  { intros k e. rewrite active_only_lookup.
    destruct (itemsInContainer w !! k) as [e'|]; [|done].
    case_decide; [|done]. by intros [= <-]. }
  split.
  - intros k e. rewrite Ht. intros [He Ha]%Hact.
    rewrite Hfr; [by apply Srows|].
    intros (k' & e' & He' & Hs' & Heq).
    assert (k' = k) as -> by (by apply (Hij _ _ _ _ He' He)).
    rewrite He in He'. injection He' as <-. congruence.
  - intros k e. rewrite Ht. intros [He Ha]%Hact. by apply (Snc k).
  - rewrite Hfr; [done|]. intros (k & e & He & _ & Heq). by apply (Hrow k e).
  - rewrite Hfr; [done|]. intros (k & e & He & _ & Heq). by apply (Snc k e).
  - intros m Hm Hitem. rewrite Hfr; [by apply Sdoc|].
    intros (k & e & He & _ & Heq). apply (Hitem k). rewrite <-Heq.
    apply (Hpb k e He). lia.
Qed.

(** The elements are as they should be in every reachable world. *)
Lemma reachable_Shown v cfg dom0 w :
  items_plain (items_of cfg) → 0 ≤ cfg_itemHeight cfg →
  prebuilt_ok (length dom0) (items_of cfg) →
  reachable v cfg dom0 w → Shown cfg dom0 w.
Proof.
  intros Hp Hih Hpre Hr. induction Hr as [w0 Hc|w e Hr IH].
  - by apply (new_Shown v).
  - pose proof (reachable_Inv v cfg dom0 w Hp Hpre Hr) as HI.
    destruct e as [s now|now].
    + destruct (repaint_due (spec_maxBuffer cfg) (lastRepaintY w) s) eqn:Hdue.
      * pose proof (render_Shown v cfg (S (length dom0)) dom0
                      (chunk_start (cfg_itemHeight cfg) (visibleCount cfg) s)
                      w Hp Hih Hpre HI IH) as (a & w1 & Heq & HS1).
        rewrite <-renderChunk_row_body in Heq.
        destruct v; unfold step, VList.step, Throttled.step.
        -- by_handler. unfold VList.onScroll. apply runs_bind, runs_get.
           change (VList.maxBuffer (VList.instance cfg (S (length dom0))))
             with (spec_maxBuffer cfg).
           rewrite Hdue. apply runs_bind, runs_bind.
           eapply runs_eq; [exact Heq|]. step_runs.
           eapply Shown_same; [..|exact HS1]; done.
        -- by_handler. unfold Throttled.onScroll, Throttled.throttledRmNode.
           apply runs_bind, runs_get.
           change (Throttled.maxBuffer (Throttled.instance cfg (S (length dom0))))
             with (spec_maxBuffer cfg).
           rewrite Hdue. apply runs_bind, runs_bind.
           eapply runs_eq; [exact Heq|]. step_runs.
           eapply Shown_same; [..|exact HS1]; done.
      * rewrite scroll_idle by done. eapply Shown_same; [..|exact IH]; done.
    + destruct v.
      * change (step Polling cfg (S (length dom0)) (Tick now) w)
          with (sweep Polling cfg (S (length dom0)) now w).
        by apply Shown_sweep.
      * rewrite throttled_tick_eq. destruct (rmPending w); [|done].
        apply Shown_sweep.
        -- eapply well_formed_same; [..|exact HI]; done.
        -- eapply Shown_same; [..|exact IH]; done.
Qed.

(** X13. In every reachable world of either variant, the node of every
    table entry is the row of the entry's index: an element of the store
    that has the class [vrow], is positioned absolutely at
    [index * itemHeight], is shown ([display] empty) when the entry is
    Active and hidden ([display: none]) when it is Stale, and holds the
    item of that index: the pre-built element itself, or a [div] of the
    row height whose text content is the string (no text when the list
    has no item there). *)
Theorem rows_are_placed (v : variant) (cfg : config) (dom0 : list element)
    (w : world) (k : Z) (e : entry) :
  config_ok dom0 cfg → reachable v cfg dom0 w →
  itemsInContainer w !! k = Some e →
  ∃ el, heap w !! e_node e = Some el ∧ row_of cfg k (e_status e) (e_node e) el.
Proof.
  intros (Hih & Hp & Hpre) Hr He.
  by apply (sh_rows _ _ _ (reachable_Shown v cfg dom0 w Hp ltac:(lia) Hpre Hr) k e).
Qed.

Lemma rows_are_placed_witness :
  ∃ el, heap demo_scrolled !! 4%nat = Some el
        ∧ row_of demo_cfg 2 Stale 4%nat el.
Proof.
  apply (rows_are_placed Polling demo_cfg demo_dom demo_scrolled 2 (Entry Stale 4%nat)).
  - apply demo_config_ok.
  - apply demo_scrolled_reachable.
  - vm_compute. reflexivity.
Defined.

(** X14. Neither variant ever writes to an element that is not a row: in
    every reachable world the scroller is as [createScroller] made it (a
    [div] of class [vScroller], positioned absolutely at 0, of height
    [itemHeight * totalRows] pixels), the container is as
    [createContainer] made it (a [div] of class [vContainer], positioned
    relatively, of height [h] pixels, or of height 100% when [h] is 0),
    and every element of the document that is not an item of the list is
    what it was before the list was made.  A negative length is no value
    of [height]: with a negative [totalRows] or [h] the scroller or the
    container has no height set. *)
Theorem other_elements_untouched (v : variant) (cfg : config) (dom0 : list element)
    (w : world) :
  config_ok dom0 cfg → reachable v cfg dom0 w →
  heap w !! length dom0 = Some (scroller_element cfg)
  ∧ heap w !! S (length dom0) = Some (container_element cfg)
  ∧ ∀ m, (m < length dom0)%nat →
         (∀ i, items_get (items_of cfg) i ≠ VNode m) → heap w !! m = dom0 !! m.
Proof.
  intros (Hih & Hp & Hpre) Hr.
  destruct (reachable_Shown v cfg dom0 w Hp ltac:(lia) Hpre Hr) as [_ _ Hs Hc Hd]. done.
Qed.

Lemma other_elements_untouched_witness :
  heap demo_scrolled !! length demo_dom = Some (scroller_element demo_cfg)
  ∧ heap demo_scrolled !! S (length demo_dom) = Some (container_element demo_cfg)
  ∧ ∀ m, (m < length demo_dom)%nat →
         (∀ i, items_get (items_of demo_cfg) i ≠ VNode m) →
         heap demo_scrolled !! m = demo_dom !! m.
Proof.
  apply (other_elements_untouched Polling demo_cfg demo_dom demo_scrolled).
  - apply demo_config_ok.
  - apply demo_scrolled_reachable.
Defined.




(** * Re-planning, with the nodes the entries get *)

(** The node a re-plan gives an entry is the item itself when that is a
    pre-built element, and otherwise one that was neither in the container
    nor in the table. *)
Lemma replan_by_reference v cfg dom0 w s now i nd :
  config_ok dom0 cfg → reachable v cfg dom0 w →
  itemsInContainer (step v cfg (S (length dom0)) (Scroll s now) w) !! i
  = Some (Entry Active nd) →
  (items_get (items_of cfg) i = VNode nd
   ∨ ((nd ∉ children w)
      ∧ ∀ k e, itemsInContainer w !! k = Some e → e_node e ≠ nd)) →
  match items_get (items_of cfg) i with
  | VNode n => nd = n
  | _ => (nd ∉ children w)
         ∧ ∀ k e, itemsInContainer w !! k = Some e → e_node e ≠ nd
  end.
Proof.
  intros (Hih & Hp & Hpre) Hr Hnd Hor.
  pose proof (reachable_Shown v cfg dom0 _ Hp ltac:(lia) Hpre
                (reach_step v cfg dom0 w (Scroll s now) Hr)) as HS.
  destruct (sh_rows _ _ _ HS i _ Hnd) as (el & _ & _ & _ & _ & _ & Hitem).
  simpl in Hitem.
  destruct (items_get (items_of cfg) i) as [| | | | |n] eqn:Hi;
    destruct Hor as [?|?]; (congruence || done).
Qed.

(** C3, amended.  Re-planning with an anchor offset that yields the range
    that is Active already leaves every table entry's status as it was,
    and the entries outside the range as they were; it is not a no-op:
    the row factory is called for every index of the range, and each entry
    of the range gets the node the factory returns, which is a child of
    the container afterwards and, unless the item is a pre-built node,
    a node that was neither in the container nor in the table before; the
    container keeps all the children it had. *)
Theorem replan_same_range (v : variant) (cfg : config) (dom0 : list element)
    (w : world) (s now : Z) :
  config_ok dom0 cfg →
  reachable v cfg dom0 w →
  repaint_due (spec_maxBuffer cfg) (lastRepaintY w) s = true →
  let first := chunk_start (cfg_itemHeight cfg) (visibleCount cfg) s in
  let last := spec_last cfg first in
  (∀ i, is_active w i ↔ first ≤ i < last) →
  let w' := step v cfg (S (length dom0)) (Scroll s now) w in
  (∀ i, e_status <$> itemsInContainer w' !! i = e_status <$> itemsInContainer w !! i)
  ∧ (∀ i, ¬ (first ≤ i < last) → itemsInContainer w' !! i = itemsInContainer w !! i)
  ∧ calls_between w w' = rev (seqZ first (last - first))
  ∧ (∀ i, first ≤ i < last →
       ∃ nd, itemsInContainer w' !! i = Some (Entry Active nd)
             ∧ nd ∈ children w'
             ∧ match items_get (items_of cfg) i with
               | VNode n => nd = n
               | _ => (nd ∉ children w)
                      ∧ ∀ k e, itemsInContainer w !! k = Some e → e_node e ≠ nd
               end)
  ∧ (∀ n, n ∈ children w → n ∈ children w').
Proof.
  intros Hok Hr Hdue first last Hsame w'. pose proof Hok as (Hih & Hp & Hpre).
  destruct (replan_effect v cfg dom0 w s now Hp Hpre Hr Hdue) as (Hrd & Hcalls & Hnew).
  fold first last w' in Hrd, Hcalls, Hnew.
  assert (Hout : ∀ i, ¬ (first ≤ i < last) →
                      itemsInContainer w' !! i = itemsInContainer w !! i).
  { intros i Hi. rewrite (rd_out _ _ _ _ _ Hrd) by done.
    specialize (Hsame i). unfold is_active in Hsame.
    destruct (itemsInContainer w !! i) as [[st nd]|]; [|done]. simpl in *.
    destruct st; [done|]. destruct Hi. by apply Hsame. }
  split_and!; try done.
  - intros i. destruct (decide (first ≤ i < last)) as [Hi|Hi].
    + destruct (rd_in _ _ _ _ _ Hrd i Hi) as (nd & -> & _).
      symmetry. by apply Hsame.
    + by rewrite Hout.
  - intros i Hi. destruct (Hnew i Hi) as (nd & Hnd & Hch & Hor).
    exists nd. split_and!; [done|done|].
    by apply (replan_by_reference v cfg dom0 w s now i nd Hok Hr Hnd Hor).
  - apply (rd_keeps _ _ _ _ _ Hrd).
Qed.

Lemma replan_same_range_witness :
  let first := chunk_start (cfg_itemHeight demo_cfg) (visibleCount demo_cfg) 205 in
  let last := spec_last demo_cfg first in
  let w := demo_world in
  let w' := step Polling demo_cfg (S (length demo_dom)) (Scroll 205 10) w in
  (∀ i, e_status <$> itemsInContainer w' !! i = e_status <$> itemsInContainer w !! i)
  ∧ (∀ i, ¬ (first ≤ i < last) → itemsInContainer w' !! i = itemsInContainer w !! i)
  ∧ calls_between w w' = rev (seqZ first (last - first))
  ∧ (∀ i, first ≤ i < last →
       ∃ nd, itemsInContainer w' !! i = Some (Entry Active nd)
             ∧ nd ∈ children w'
             ∧ match items_get (items_of demo_cfg) i with
               | VNode n => nd = n
               | _ => (nd ∉ children w)
                      ∧ ∀ k e, itemsInContainer w !! k = Some e → e_node e ≠ nd
               end)
  ∧ (∀ n, n ∈ children w → n ∈ children w').
Proof.
  apply (replan_same_range Polling demo_cfg demo_dom demo_world 205 10).
  - apply demo_config_ok.
  - apply demo_reachable.
  - vm_compute. reflexivity.
  - apply demo_window.
Defined.

(** C4, amended.  During a re-plan the row factory is called once for
    every index of the new range, in increasing order, whether or not the
    index is in the table; every index of the range ends Active with the
    node the factory returned, which is the item itself when that is a
    pre-built node, and otherwise a node no table entry had before. *)
Theorem factory_called_for_range (v : variant) (cfg : config) (dom0 : list element)
    (w : world) (s now : Z) :
  config_ok dom0 cfg →
  reachable v cfg dom0 w →
  repaint_due (spec_maxBuffer cfg) (lastRepaintY w) s = true →
  let first := chunk_start (cfg_itemHeight cfg) (visibleCount cfg) s in
  let last := spec_last cfg first in
  let w' := step v cfg (S (length dom0)) (Scroll s now) w in
  calls_between w w' = rev (seqZ first (last - first))
  ∧ (∀ i, first ≤ i < last →
       ∃ nd, itemsInContainer w' !! i = Some (Entry Active nd)
             ∧ match items_get (items_of cfg) i with
               | VNode n => nd = n
               | _ => ∀ k e, itemsInContainer w !! k = Some e → e_node e ≠ nd
               end).
Proof.
  intros (Hih & Hp & Hpre) Hr Hdue first last w'.
  destruct (replan_effect v cfg dom0 w s now Hp Hpre Hr Hdue) as (_ & Hcalls & Hnew).
  split; [done|]. intros i Hi.
  destruct (Hnew i Hi) as (nd & Hnd & _ & Hor). exists nd. split; [done|].
  pose proof (replan_by_reference v cfg dom0 w s now i nd
                (conj Hih (conj Hp Hpre)) Hr Hnd Hor) as Href.
  destruct (items_get (items_of cfg) i); try done; apply Href.
Qed.

Lemma factory_called_for_range_witness :
  let first := chunk_start (cfg_itemHeight demo_cfg) (visibleCount demo_cfg) 205 in
  let last := spec_last demo_cfg first in
  let w' := step Polling demo_cfg (S (length demo_dom)) (Scroll 205 10) demo_world in
  calls_between demo_world w' = rev (seqZ first (last - first))
  ∧ (∀ i, first ≤ i < last →
       ∃ nd, itemsInContainer w' !! i = Some (Entry Active nd)
             ∧ match items_get (items_of demo_cfg) i with
               | VNode n => nd = n
               | _ => ∀ k e, itemsInContainer demo_world !! k = Some e → e_node e ≠ nd
               end).
Proof.
  apply (factory_called_for_range Polling demo_cfg demo_dom demo_world 205 10).
  - apply demo_config_ok.
  - apply demo_reachable.
  - vm_compute. reflexivity.
Defined.
